(** * SafeFile: integrity-checked export and import of a saved game

    A shallow embedding of the [SafeFile] class (key derivation, signing,
    structural validation, [secureExport], [secureImport]) and of the
    JavaScript operations it relies on, followed by the properties the
    specification states about it, and by further properties of the same
    code, of [normPair] of [CombineEngine], which names the combinations
    a snapshot records, and of the display configuration of
    [EmojiRenderer].

    Conventions of the model.
    - A JavaScript string is the list of its UTF-16 code units.
    - A JavaScript value is JSON-like data extended with [undefined]; numbers
      are the integer-valued ones (counts, versions, epoch milliseconds).
    - An object is the list of its own enumerable properties in property
      order; the prototype chain holds none of the names the code reads.
    - What the host provides (WebCrypto, the wording of engine errors, date
      formatting, coercion of non-numbers in a comparison) is the class
      [Platform]; [Reference.platform] instantiates it with SHA-256 and
      HMAC-SHA-256 as FIPS 180-4 and RFC 2104 define them. *)

From Stdlib Require Import ZArith List String Ascii Bool Lia DecimalString.
From stdpp Require Import base gmap.
Import ListNotations.
Local Open Scope Z_scope.

(** ** Strings as UTF-16 code units *)

Definition jsstring := list Z.

(** [js s] is the JavaScript string of an ASCII literal. *)
Definition js (s : string) : jsstring :=
  List.map (fun a => Z.of_N (N_of_ascii a)) (list_ascii_of_string s).

Fixpoint str_eqb (a b : jsstring) : bool :=
  match a, b with
  | [], [] => true
  | x :: a', y :: b' => (x =? y) && str_eqb a' b'
  | _, _ => false
  end.

(** The order of [<] on strings: lexicographic on code units. *)
Fixpoint str_ltb (a b : jsstring) : bool :=
  match a, b with
  | _, [] => false
  | [], _ :: _ => true
  | x :: a', y :: b' => (x <? y) || ((x =? y) && str_ltb a' b')
  end.

(** [Array.prototype.join] on strings already converted. *)
Fixpoint join (sep : jsstring) (l : list jsstring) : jsstring :=
  match l with
  | [] => []
  | [s] => s
  | s :: rest => s ++ sep ++ join sep rest
  end.

Definition is_lead (c : Z) : bool := (0xD800 <=? c) && (c <=? 0xDBFF).
Definition is_trail (c : Z) : bool := (0xDC00 <=? c) && (c <=? 0xDFFF).

Definition hex_digit (d : Z) : Z :=
  if d <? 10 then 48 + d else 87 + d.

(** The four lowercase hexadecimal digits of a [\uXXXX] escape. *)
Definition hex4 (c : Z) : jsstring :=
  [hex_digit (Z.shiftr c 12 mod 16); hex_digit (Z.shiftr c 8 mod 16);
   hex_digit (Z.shiftr c 4 mod 16); hex_digit (c mod 16)].

Definition unicode_escape (c : Z) : jsstring := js "\u" ++ hex4 c.

(** QuoteJSONString without the surrounding quotes. *)
Fixpoint quote_units (s : jsstring) : jsstring :=
  match s with
  | [] => []
  | c :: rest =>
      if c =? 0x22 then [0x5C; 0x22] ++ quote_units rest
      else if c =? 0x5C then [0x5C; 0x5C] ++ quote_units rest
      else if c =? 0x08 then js "\b" ++ quote_units rest
      else if c =? 0x0C then js "\f" ++ quote_units rest
      else if c =? 0x0A then js "\n" ++ quote_units rest
      else if c =? 0x0D then js "\r" ++ quote_units rest
      else if c =? 0x09 then js "\t" ++ quote_units rest
      else if c <? 0x20 then unicode_escape c ++ quote_units rest
      else if is_lead c then
        match rest with
        | c2 :: rest' =>
            if is_trail c2 then c :: c2 :: quote_units rest'
            else unicode_escape c ++ quote_units rest
        | [] => unicode_escape c
        end
      else if is_trail c then unicode_escape c ++ quote_units rest
      else c :: quote_units rest
  end.

Definition QuoteJSONString (s : jsstring) : jsstring :=
  [0x22] ++ quote_units s ++ [0x22].

(** An ASCII literal between double quotes. *)
Definition quoted (s : string) : jsstring := [0x22] ++ js s ++ [0x22].

(** ** Bytes *)

Definition bytes := list Z.

Definition utf8_of_code_point (p : Z) : bytes :=
  if p <? 0x80 then [p]
  else if p <? 0x800 then
    [Z.lor 0xC0 (Z.shiftr p 6); Z.lor 0x80 (Z.land p 0x3F)]
  else if p <? 0x10000 then
    [Z.lor 0xE0 (Z.shiftr p 12); Z.lor 0x80 (Z.land (Z.shiftr p 6) 0x3F);
     Z.lor 0x80 (Z.land p 0x3F)]
  else
    [Z.lor 0xF0 (Z.shiftr p 18); Z.lor 0x80 (Z.land (Z.shiftr p 12) 0x3F);
     Z.lor 0x80 (Z.land (Z.shiftr p 6) 0x3F); Z.lor 0x80 (Z.land p 0x3F)].

(** [new TextEncoder().encode(s)]: UTF-8, a lone surrogate becoming U+FFFD. *)
Fixpoint TextEncoder_encode (s : jsstring) : bytes :=
  match s with
  | [] => []
  | c :: rest =>
      if is_lead c then
        match rest with
        | c2 :: rest' =>
            if is_trail c2 then
              utf8_of_code_point
                (0x10000 + Z.shiftl (c - 0xD800) 10 + (c2 - 0xDC00))
              ++ TextEncoder_encode rest'
            else utf8_of_code_point 0xFFFD ++ TextEncoder_encode rest
        | [] => utf8_of_code_point 0xFFFD
        end
      else if is_trail c then utf8_of_code_point 0xFFFD ++ TextEncoder_encode rest
      else utf8_of_code_point c ++ TextEncoder_encode rest
  end.

Definition b64_char (i : Z) : Z :=
  if i <? 26 then 65 + i
  else if i <? 52 then 97 + (i - 26)
  else if i <? 62 then 48 + (i - 52)
  else if i =? 62 then 43 else 47.

(** [btoa(String.fromCharCode(...bs))]: base64 with padding. *)
Fixpoint base64 (bs : bytes) : jsstring :=
  match bs with
  | [] => []
  | [a] =>
      [b64_char (Z.shiftr a 2); b64_char (Z.shiftl (Z.land a 3) 4); 61; 61]
  | [a; b] =>
      [b64_char (Z.shiftr a 2);
       b64_char (Z.lor (Z.shiftl (Z.land a 3) 4) (Z.shiftr b 4));
       b64_char (Z.shiftl (Z.land b 15) 2); 61]
  | a :: b :: c :: rest =>
      [b64_char (Z.shiftr a 2);
       b64_char (Z.lor (Z.shiftl (Z.land a 3) 4) (Z.shiftr b 4));
       b64_char (Z.lor (Z.shiftl (Z.land b 15) 2) (Z.shiftr c 6));
       b64_char (Z.land c 63)] ++ base64 rest
  end.

(** ** SHA-256 and HMAC (FIPS 180-4, RFC 2104) on 32-bit words held in [Z] *)

Module SHA256.

Definition add32 (x y : Z) : Z := (x + y) mod 2 ^ 32.
Definition rotr (n x : Z) : Z :=
  Z.lor (Z.shiftr x n) (Z.shiftl x (32 - n) mod 2 ^ 32).
Definition Ch (x y z : Z) : Z :=
  Z.lxor (Z.land x y) (Z.land (Z.lxor x 0xFFFFFFFF) z).
Definition Maj (x y z : Z) : Z :=
  Z.lxor (Z.lxor (Z.land x y) (Z.land x z)) (Z.land y z).
Definition bsig0 (x : Z) : Z := Z.lxor (Z.lxor (rotr 2 x) (rotr 13 x)) (rotr 22 x).
Definition bsig1 (x : Z) : Z := Z.lxor (Z.lxor (rotr 6 x) (rotr 11 x)) (rotr 25 x).
Definition ssig0 (x : Z) : Z := Z.lxor (Z.lxor (rotr 7 x) (rotr 18 x)) (Z.shiftr x 3).
Definition ssig1 (x : Z) : Z := Z.lxor (Z.lxor (rotr 17 x) (rotr 19 x)) (Z.shiftr x 10).

Definition K : list Z :=
  [0x428A2F98; 0x71374491; 0xB5C0FBCF; 0xE9B5DBA5; 0x3956C25B; 0x59F111F1;
   0x923F82A4; 0xAB1C5ED5; 0xD807AA98; 0x12835B01; 0x243185BE; 0x550C7DC3;
   0x72BE5D74; 0x80DEB1FE; 0x9BDC06A7; 0xC19BF174; 0xE49B69C1; 0xEFBE4786;
   0x0FC19DC6; 0x240CA1CC; 0x2DE92C6F; 0x4A7484AA; 0x5CB0A9DC; 0x76F988DA;
   0x983E5152; 0xA831C66D; 0xB00327C8; 0xBF597FC7; 0xC6E00BF3; 0xD5A79147;
   0x06CA6351; 0x14292967; 0x27B70A85; 0x2E1B2138; 0x4D2C6DFC; 0x53380D13;
   0x650A7354; 0x766A0ABB; 0x81C2C92E; 0x92722C85; 0xA2BFE8A1; 0xA81A664B;
   0xC24B8B70; 0xC76C51A3; 0xD192E819; 0xD6990624; 0xF40E3585; 0x106AA070;
   0x19A4C116; 0x1E376C08; 0x2748774C; 0x34B0BCB5; 0x391C0CB3; 0x4ED8AA4A;
   0x5B9CCA4F; 0x682E6FF3; 0x748F82EE; 0x78A5636F; 0x84C87814; 0x8CC70208;
   0x90BEFFFA; 0xA4506CEB; 0xBEF9A3F7; 0xC67178F2].

Record state := St { sa : Z; sb : Z; sc : Z; sd : Z; se : Z; sf : Z; sg : Z; sh : Z }.

Definition H0 : state :=
  St 0x6A09E667 0xBB67AE85 0x3C6EF372 0xA54FF53A
     0x510E527F 0x9B05688C 0x1F83D9AB 0x5BE0CD19.

(** Padding: a 1 bit, zeros up to 56 mod 64 bytes, the bit length on 64 bits. *)
Definition be_bytes (n : nat) (x : Z) : bytes :=
  List.map (fun i => Z.shiftr x (8 * Z.of_nat i) mod 256) (rev (seq 0 n)).

Definition pad (msg : bytes) : bytes :=
  let len := Z.of_nat (length msg) in
  msg ++ [0x80] ++ repeat 0 (Z.to_nat ((55 - len) mod 64)) ++ be_bytes 8 (8 * len).

Fixpoint words (bs : bytes) : list Z :=
  match bs with
  | a :: b :: c :: d :: rest =>
      (Z.shiftl a 24 + Z.shiftl b 16 + Z.shiftl c 8 + d) :: words rest
  | _ => []
  end.

(** The message schedule, grown from the 16 words of a block to 64. *)
Fixpoint extend (n : nat) (ws : list Z) : list Z :=
  match n with
  | O => ws
  | S n' =>
      let t := length ws in
      let at_ (k : nat) := nth (t - k) ws 0 in
      extend n' (ws ++ [add32 (add32 (ssig1 (at_ 2%nat)) (at_ 7%nat))
                              (add32 (ssig0 (at_ 15%nat)) (at_ 16%nat))])
  end.

Definition round (s : state) (kw : Z * Z) : state :=
  let t1 := add32 (add32 (add32 (sh s) (bsig1 (se s)))
                         (add32 (Ch (se s) (sf s) (sg s)) (fst kw))) (snd kw) in
  let t2 := add32 (bsig0 (sa s)) (Maj (sa s) (sb s) (sc s)) in
  St (add32 t1 t2) (sa s) (sb s) (sc s) (add32 (sd s) t1) (se s) (sf s) (sg s).

Definition compress (h : state) (block : list Z) : state :=
  let s := fold_left round (combine K (extend 48 block)) h in
  St (add32 (sa h) (sa s)) (add32 (sb h) (sb s)) (add32 (sc h) (sc s))
     (add32 (sd h) (sd s)) (add32 (se h) (se s)) (add32 (sf h) (sf s))
     (add32 (sg h) (sg s)) (add32 (sh h) (sh s)).

(** The blocks of a padded message, [n] of them, 16 words each. *)
Fixpoint process (n : nat) (ws : list Z) (h : state) : state :=
  match n with
  | O => h
  | S n' => process n' (skipn 16 ws) (compress h (firstn 16 ws))
  end.

Definition digest_bytes (s : state) : bytes :=
  flat_map (be_bytes 4) [sa s; sb s; sc s; sd s; se s; sf s; sg s; sh s].

Definition sha256 (msg : bytes) : bytes :=
  let ws := words (pad msg) in
  digest_bytes (process (length ws / 16) ws H0).

Definition block_key (key : bytes) : bytes :=
  let k := if (64 <? length key)%nat then sha256 key else key in
  k ++ repeat 0 (64 - length k).

Definition hmac (key msg : bytes) : bytes :=
  let k := block_key key in
  sha256 (List.map (Z.lxor 0x5c) k ++ sha256 (List.map (Z.lxor 0x36) k ++ msg)).

End SHA256.

Definition hex_of_bytes (bs : bytes) : jsstring :=
  flat_map (fun b => [hex_digit (Z.shiftr b 4); hex_digit (b mod 16)]) bs.


(** ** JavaScript values *)

#[local] Unset Elimination Schemes.
Inductive value : Type :=
| VUndefined
| VNull
| VBool (b : bool)
| VNum (n : Z)
| VStr (s : jsstring)
| VArr (elems : list value)
| VObj (props : list (jsstring * value)).
#[local] Set Elimination Schemes.

Inductive type_tag := TUndefined | TObject | TBoolean | TNumber | TString.

Definition typeof (v : value) : type_tag :=
  match v with
  | VUndefined => TUndefined
  | VNull | VArr _ | VObj _ => TObject
  | VBool _ => TBoolean
  | VNum _ => TNumber
  | VStr _ => TString
  end.

Definition type_tag_eqb (a b : type_tag) : bool :=
  match a, b with
  | TUndefined, TUndefined | TObject, TObject | TBoolean, TBoolean
  | TNumber, TNumber | TString, TString => true
  | _, _ => false
  end.

Definition Array_isArray (v : value) : bool :=
  match v with VArr _ => true | _ => false end.

Definition is_nullish (v : value) : bool :=
  match v with VUndefined | VNull => true | _ => false end.

(** ToBoolean. *)
Definition truthy (v : value) : bool :=
  match v with
  | VUndefined | VNull => false
  | VBool b => b
  | VNum n => negb (n =? 0)
  | VStr [] => false
  | VStr (_ :: _) | VArr _ | VObj _ => true
  end.

(** [a || b]. *)
Definition or_else (a b : value) : value := if truthy a then a else b.

(** Number::toString of an integer. *)
Definition number_to_string (n : Z) : jsstring :=
  js (NilZero.string_of_int (Z.to_int n)).

(** ToString. An array prints its elements joined by commas, [null] and
    [undefined] elements as the empty string. *)
Fixpoint ToString (v : value) : jsstring :=
  match v with
  | VUndefined => js "undefined"
  | VNull => js "null"
  | VBool true => js "true"
  | VBool false => js "false"
  | VNum n => number_to_string n
  | VStr s => s
  | VArr l =>
      join (js ",")
        (List.map (fun x => if is_nullish x then [] else ToString x) l)
  | VObj _ => js "[object Object]"
  end.

(** [Array.prototype.join(sep)] on an array of values. *)
Definition Array_join (sep : jsstring) (l : list value) : jsstring :=
  join sep (List.map (fun x => if is_nullish x then [] else ToString x) l).

(** SortCompare of the default [sort()]: [undefined] last, the rest by
    their strings. [sort_before x y] says that x must precede y. *)
Definition sort_before (x y : value) : bool :=
  match x, y with
  | VUndefined, _ => false
  | _, VUndefined => true
  | _, _ => str_ltb (ToString x) (ToString y)
  end.

Fixpoint sort_insert (x : value) (sorted : list value) : list value :=
  match sorted with
  | [] => [x]
  | y :: rest => if sort_before y x then y :: sort_insert x rest else x :: y :: rest
  end.

(** [Array.prototype.sort()] without a comparator; the sort is stable. *)
Definition Array_sort (l : list value) : list value :=
  fold_right sort_insert [] l.

(** The same sort on an array of strings. *)
Definition sort_strings (l : list jsstring) : list jsstring :=
  List.map ToString (Array_sort (List.map VStr l)).

(** Own enumerable properties: of an object its properties, of an array
    and of a string the indices. *)
Definition indexed {A : Type} (l : list A) : list (jsstring * A) :=
  combine (List.map (fun i => number_to_string (Z.of_nat i)) (seq 0 (length l))) l.

Definition own_props (v : value) : list (jsstring * value) :=
  match v with
  | VObj ps => ps
  | VArr l => indexed l
  | VStr s => indexed (List.map (fun c => VStr [c]) s)
  | _ => []
  end.

Fixpoint assoc {A : Type} (k : jsstring) (ps : list (jsstring * A)) : option A :=
  match ps with
  | [] => None
  | (k', x) :: rest => if str_eqb k' k then Some x else assoc k rest
  end.

(** Definition of a property by an object literal or a spread: an existing
    key keeps its place and takes the new value, a new key goes last. *)
Fixpoint set_prop (k : jsstring) (x : value) (ps : list (jsstring * value))
  : list (jsstring * value) :=
  match ps with
  | [] => [(k, x)]
  | (k', y) :: rest =>
      if str_eqb k' k then (k', x) :: rest else (k', y) :: set_prop k x rest
  end.

(** The properties a rest pattern collects: all but the excluded names. *)
Definition without_keys (excluded : list jsstring) (ps : list (jsstring * value))
  : list (jsstring * value) :=
  List.filter (fun kv => negb (existsb (str_eqb (fst kv)) excluded)) ps.

(** The value of an own property, [undefined] when there is none. *)
Definition own_property (v : value) (k : jsstring) : value :=
  match assoc k (own_props v) with
  | Some x => x
  | None => VUndefined
  end.

Definition length_of (v : value) : option Z :=
  match v with
  | VArr l => Some (Z.of_nat (length l))
  | VStr s => Some (Z.of_nat (length s))
  | _ => None
  end.

(** ** JSON.stringify

    [K] is the property list an array replacer yields: when present, every
    object at every depth is written with exactly the names of [K] it owns,
    in the order of [K]; array elements are always written. *)
Fixpoint SerializeJSONProperty (K : option (list jsstring)) (v : value)
  : option jsstring :=
  match v with
  | VUndefined => None
  | VNull => Some (js "null")
  | VBool true => Some (js "true")
  | VBool false => Some (js "false")
  | VNum n => Some (number_to_string n)
  | VStr s => Some (QuoteJSONString s)
  | VArr l =>
      Some (js "[" ++
            join (js ",")
              (List.map (fun x => match SerializeJSONProperty K x with
                                  | Some s => s
                                  | None => js "null"
                                  end) l)
            ++ js "]")
  | VObj ps =>
      let written := List.map (fun kv => (fst kv, SerializeJSONProperty K (snd kv))) ps in
      let chosen :=
        match K with
        | None => written
        | Some ks =>
            flat_map (fun k => match assoc k written with
                               | Some s => [(k, s)]
                               | None => []
                               end) ks
        end in
      Some (js "{" ++
            join (js ",")
              (flat_map (fun ks => match snd ks with
                                   | Some s => [QuoteJSONString (fst ks) ++ js ":" ++ s]
                                   | None => []
                                   end) chosen)
            ++ js "}")
  end.

(** The property list of an array replacer: its strings, duplicates dropped. *)
Fixpoint property_list (seen ks : list jsstring) : list jsstring :=
  match ks with
  | [] => []
  | k :: rest =>
      if existsb (str_eqb k) seen then property_list seen rest
      else k :: property_list (k :: seen) rest
  end.

(** [JSON.stringify(v)] and [JSON.stringify(v, keys)]; [None] is the
    [undefined] it returns for [undefined]. *)
Definition JSON_stringify (v : value) (replacer : option (list jsstring))
  : option jsstring :=
  SerializeJSONProperty (option_map (property_list []) replacer) v.


(** ** Completions: a value, or a thrown error *)

Inductive exn : Type :=
| JsError (message : jsstring)
| JsTypeError (message : jsstring).

Definition error_message (e : exn) : jsstring :=
  match e with JsError m | JsTypeError m => m end.

Inductive completion (A : Type) : Type :=
| Normal (a : A)
| Throw (e : exn).
Arguments Normal {A} a.
Arguments Throw {A} e.

Definition bind {A B : Type} (c : completion A) (k : A -> completion B)
  : completion B :=
  match c with
  | Normal a => k a
  | Throw e => Throw e
  end.

Notation "x <- c ;; k" := (bind c (fun x => k))
  (at level 100, c at next level, right associativity).

(** [try { body } catch (error) { handler }]. *)
Definition try_catch {A : Type} (body : completion A) (handler : exn -> completion A)
  : completion A :=
  match body with
  | Normal a => Normal a
  | Throw e => handler e
  end.

(** [for]-style traversals that stop at the first throw. *)
Fixpoint filterM {A : Type} (p : A -> completion bool) (l : list A)
  : completion (list A) :=
  match l with
  | [] => Normal []
  | x :: rest =>
      keep <- p x ;;
      rest' <- filterM p rest ;;
      Normal (if keep then x :: rest' else rest')
  end.

Fixpoint mapM {A B : Type} (f : A -> completion B) (l : list A)
  : completion (list B) :=
  match l with
  | [] => Normal []
  | x :: rest =>
      y <- f x ;;
      rest' <- mapM f rest ;;
      Normal (y :: rest')
  end.

(** ** The host *)

(** The TypeErrors the engine raises in this code. *)
Inductive type_error : Type :=
| ReadOfNullish (base : value) (k : jsstring)   (* [null.k], [undefined.k] *)
| NotAFunction (method : jsstring)              (* [v.filter(...)], [filter] missing *)
| NotAnObject (v : value)                       (* [Object.keys(null)] *)
| DestructureNullish (v : value)                (* [const {...} = null] *)
| CircularStructure.                            (* [JSON.stringify] of a cycle *)

Class Platform : Type := {
  (** [crypto.subtle.digest('SHA-256', data)] *)
  subtle_digest : bytes -> completion bytes;
  (** [crypto.subtle.importKey('raw', key, {name: 'HMAC', hash: 'SHA-256'},
      false, ['sign'])] followed by [crypto.subtle.sign('HMAC', cryptoKey, data)] *)
  subtle_hmac_sign : bytes -> bytes -> completion bytes;
  (** StringToNumber, [None] for NaN *)
  StringToNumber : jsstring -> option Z;
  (** [new Date(v).toLocaleString()] *)
  Date_toLocaleString : value -> jsstring;
  (** the wording of the engine's TypeErrors *)
  TypeError_message : type_error -> jsstring;
  digest_length : forall m h, subtle_digest m = Normal h -> length h = 32%nat;
  sign_length : forall k m s, subtle_hmac_sign k m = Normal s -> length s = 32%nat
}.

Definition throw_type_error {host : Platform} {A : Type} (e : type_error)
  : completion A :=
  Throw (JsTypeError (TypeError_message e)).

(** ** The class SafeFile *)

(** Results of [validateGameLogic], [secureExport] and [secureImport]:
    [{valid: true}] or [{valid: false, reason}];
    [{success: true, data, info: {elements, history, missions}}] or
    [{success: false, error}];
    [{success: true, data, info: {importTime, elements, verified}}] or
    [{success: false, reason}]. *)
Inductive ValidationResult : Type :=
| Valid
| Invalid (reason : jsstring).

Inductive ExportResult : Type :=
| ExportOk (data : value) (elements history missions : value)
| ExportFail (error : jsstring).

Inductive ImportResult : Type :=
| ImportOk (data : value) (importTime : jsstring) (elements : value) (verified : bool)
| ImportFail (reason : jsstring).

(** The messages of the source, as code units. *)
Definition reason_save_format : jsstring :=      (* 存檔格式錯誤 *)
  [0x5B58; 0x6A94; 0x683C; 0x5F0F; 0x932F; 0x8AA4].
Definition reason_unlocked_format : jsstring :=  (* 解鎖數據格式錯誤 *)
  [0x89E3; 0x9396; 0x6578; 0x64DA; 0x683C; 0x5F0F; 0x932F; 0x8AA4].
Definition reason_history_format : jsstring :=   (* 歷史記錄格式錯誤 *)
  [0x6B77; 0x53F2; 0x8A18; 0x9304; 0x683C; 0x5F0F; 0x932F; 0x8AA4].
Definition reason_missions_format : jsstring :=  (* 任務數據格式錯誤 *)
  [0x4EFB; 0x52D9; 0x6578; 0x64DA; 0x683C; 0x5F0F; 0x932F; 0x8AA4].
Definition reason_parse : jsstring :=            (* 數據解析錯誤 *)
  [0x6578; 0x64DA; 0x89E3; 0x6790; 0x932F; 0x8AA4].
Definition structure_prefix : jsstring :=        (* 存檔結構錯誤: *)
  [0x5B58; 0x6A94; 0x7D50; 0x69CB; 0x932F; 0x8AA4; 0x003A; 0x0020].
Definition reason_not_secure : jsstring :=       (* 這不是安全存檔格式 *)
  [0x9019; 0x4E0D; 0x662F; 0x5B89; 0x5168; 0x5B58; 0x6A94; 0x683C; 0x5F0F].
Definition reason_timestamp : jsstring :=        (* 存檔時間戳異常 *)
  [0x5B58; 0x6A94; 0x6642; 0x9593; 0x6233; 0x7570; 0x5E38].
Definition reason_integrity : jsstring :=        (* 存檔完整性驗證失敗 - 可能已被修改 *)
  [0x5B58; 0x6A94; 0x5B8C; 0x6574; 0x6027; 0x9A57; 0x8B49; 0x5931; 0x6557;
   0x0020; 0x002D; 0x0020; 0x53EF; 0x80FD; 0x5DF2; 0x88AB; 0x4FEE; 0x6539].
Definition import_prefix : jsstring :=           (* 匯入錯誤: *)
  [0x532F; 0x5165; 0x932F; 0x8AA4; 0x003A; 0x0020].

Definition INTEGRITY_KEY : jsstring := js "_sf_integrity".
Definition TIMESTAMP_KEY : jsstring := js "_sf_timestamp".
Definition VERSION_KEY : jsstring := js "_sf_version".
Definition reserved_keys : list jsstring :=
  [INTEGRITY_KEY; TIMESTAMP_KEY; VERSION_KEY].

(** A property list that uses none of the reserved names. *)
Definition no_reserved_key (ps : list (jsstring * value)) : Prop :=
  Forall (fun kv => existsb (str_eqb (fst kv)) reserved_keys = false) ps.

(** The properties of the object literal of [secureExport]: the spread of
    the snapshot's own properties [ps], then the three reserved names. *)
Definition sealed (ps : list (jsstring * value)) (signature : jsstring) (now : Z)
  : list (jsstring * value) :=
  set_prop VERSION_KEY (VStr (js "1.0"))
    (set_prop TIMESTAMP_KEY (VNum now)
      (set_prop INTEGRITY_KEY (VStr signature) ps)).

(** The object the rest pattern of [secureImport] collects: the own
    properties of the input without the three reserved names. *)
Definition candidate (importedData : value) : value :=
  VObj (without_keys reserved_keys (own_props importedData)).

(** The [catch] blocks of [secureExport] and [secureImport]. *)
Definition export_handler (error : exn) : completion ExportResult :=
  Normal (ExportFail (error_message error)).

Definition import_handler (error : exn) : completion ImportResult :=
  Normal (ImportFail (import_prefix ++ error_message error)).

(** [new Date(`${gameReleaseYear}-01-01`).getTime()] with
    [gameReleaseYear = 2025]: midnight UTC of 1 January 2025. *)
Definition releaseTime : Z := 1735689600000.
Definition dayInMs : Z := 24 * 60 * 60 * 1000.

Section SafeFile.
Context {host : Platform}.

(** The property read [v.k]. *)
Definition Get (v : value) (k : jsstring) : completion value :=
  if is_nullish v then throw_type_error (ReadOfNullish v k)
  else
    match (if str_eqb k (js "length") then length_of v else None) with
    | Some n => Normal (VNum n)
    | None => Normal (own_property v k)
    end.

Definition Object_keys (v : value) : completion (list jsstring) :=
  if is_nullish v then throw_type_error (NotAnObject v)
  else Normal (List.map fst (own_props v)).

(** [Object.keys(v).sort()]. *)
Definition sorted_keys (v : value) : completion (list jsstring) :=
  keys <- Object_keys v ;;
  Normal (sort_strings keys).

(** [v.filter(p)]: only an array has the method. *)
Definition Array_filter (v : value) (p : value -> completion bool)
  : completion (list value) :=
  match v with
  | VArr l => filterM p l
  | VUndefined | VNull => throw_type_error (ReadOfNullish v (js "filter"))
  | _ => throw_type_error (NotAFunction (js "filter"))
  end.

(** ToNumber, [None] for NaN. *)
Definition ToNumber (v : value) : option Z :=
  match v with
  | VUndefined => None
  | VNull => Some 0
  | VBool b => Some (if b then 1 else 0)
  | VNum n => Some n
  | VStr s => StringToNumber s
  | VArr _ | VObj _ => StringToNumber (ToString v)
  end.

(** [a < b] on numbers after coercion: false as soon as one side is NaN. *)
Definition less_than (a b : option Z) : bool :=
  match a, b with
  | Some x, Some y => x <? y
  | _, _ => false
  end.

(** [a !== b] where b is a string. *)
Definition differs_from_string (a : value) (b : jsstring) : bool :=
  match a with
  | VStr s => negb (str_eqb s b)
  | _ => true
  end.

(** [encoder.encode(s)], the argument defaulting to the empty string. *)
Definition encode (s : option jsstring) : bytes :=
  TextEncoder_encode (match s with Some x => x | None => [] end).

(** The reduced structure [features] that seeds the key. *)
Definition features (saveData : value) : completion value :=
  unlocked <- Get saveData (js "unlocked") ;;
  names <- sorted_keys (or_else unlocked (VObj [])) ;;
  missions <- Get saveData (js "missions") ;;
  completed <- Array_filter (or_else missions (VArr []))
                 (fun m => d <- Get m (js "done") ;; Normal (truthy d)) ;;
  completedNames <- mapM (fun m => Get m (js "name")) completed ;;
  let missionProgress := Array_join (js ",") (Array_sort completedNames) in
  unlocked' <- Get saveData (js "unlocked") ;;
  keys <- Object_keys (or_else unlocked' (VObj [])) ;;
  version <- Get saveData (js "version") ;;
  Normal
    (VObj [(js "unlocked", VArr (List.map VStr names));
           (js "missionProgress", VStr missionProgress);
           (js "stats",
            VObj [(js "unlockedCount", VNum (Z.of_nat (length keys)));
                  (js "version", or_else version (VNum 1))])]).

Definition generateDynamicKey (saveData : value) : completion jsstring :=
  feats <- features saveData ;;
  let seed := JSON_stringify feats None in
  let seedBuffer := encode seed in
  hashBuffer <- subtle_digest seedBuffer ;;
  Normal (firstn 32 (base64 hashBuffer)).

Definition generateSignature (saveData : value) (dynamicKey : jsstring)
  : completion jsstring :=
  keys <- sorted_keys saveData ;;
  let normalizedData := JSON_stringify saveData (Some keys) in
  let dataBuffer := encode normalizedData in
  let keyBuffer := encode (Some dynamicKey) in
  signature <- subtle_hmac_sign keyBuffer dataBuffer ;;
  Normal (base64 signature).

Definition validateGameLogic (saveData : value) : ValidationResult :=
  let body : completion ValidationResult :=
    if negb (type_tag_eqb (typeof saveData) TObject)
       || match saveData with VNull => true | _ => false end
    then Normal (Invalid reason_save_format)
    else
      u <- Get saveData (js "unlocked") ;;
      let unlocked := or_else u (VObj []) in
      h <- Get saveData (js "history") ;;
      let history := or_else h (VArr []) in
      m <- Get saveData (js "missions") ;;
      let missions := or_else m (VArr []) in
      if negb (type_tag_eqb (typeof unlocked) TObject)
      then Normal (Invalid reason_unlocked_format)
      else if negb (Array_isArray history)
      then Normal (Invalid reason_history_format)
      else if negb (Array_isArray missions)
      then Normal (Invalid reason_missions_format)
      else Normal Valid in
  match body with
  | Normal r => r
  | Throw _ => Invalid reason_parse
  end.

(** [now] is the reading of [Date.now()]. *)
Definition secureExport (now : Z) (saveData : value) : completion ExportResult :=
  try_catch
    (_ <- match validateGameLogic saveData with
          | Invalid reason => Throw (JsError (structure_prefix ++ reason))
          | Valid => Normal tt
          end ;;
     dynamicKey <- generateDynamicKey saveData ;;
     signature <- generateSignature saveData dynamicKey ;;
     let secureData := VObj (sealed (own_props saveData) signature now) in
     u <- Get saveData (js "unlocked") ;;
     keys <- Object_keys (or_else u (VObj [])) ;;
     h <- Get saveData (js "history") ;;
     historyLength <- Get (or_else h (VArr [])) (js "length") ;;
     m <- Get saveData (js "missions") ;;
     missionsLength <- Get (or_else m (VArr [])) (js "length") ;;
     Normal (ExportOk secureData (VNum (Z.of_nat (length keys)))
               historyLength missionsLength))
    export_handler.

(** The condition of the timestamp gate, for a timestamp that passed the
    guard [if (timestamp)]. *)
Definition timestamp_out_of_range (now : Z) (timestamp : value) : bool :=
  less_than (ToNumber timestamp) (Some releaseTime)
  || less_than (Some (now + dayInMs)) (ToNumber timestamp).

(** The statements of [secureImport] that follow the destructuring. [now]
    is the reading of [Date.now()]: a call reads the clock at most once, in
    the gate when the timestamp is truthy and for [importTime] otherwise. *)
Definition import_gates (now : Z) (signature timestamp gameData : value)
  : completion ImportResult :=
  if negb (truthy signature) then Normal (ImportFail reason_not_secure)
  else if truthy timestamp && timestamp_out_of_range now timestamp
  then Normal (ImportFail reason_timestamp)
  else
    match validateGameLogic gameData with
    | Invalid reason => Normal (ImportFail (structure_prefix ++ reason))
    | Valid =>
        expectedKey <- generateDynamicKey gameData ;;
        expectedSignature <- generateSignature gameData expectedKey ;;
        if differs_from_string signature expectedSignature
        then Normal (ImportFail reason_integrity)
        else
          u <- Get gameData (js "unlocked") ;;
          keys <- Object_keys (or_else u (VObj [])) ;;
          Normal (ImportOk gameData
                    (Date_toLocaleString (or_else timestamp (VNum now)))
                    (VNum (Z.of_nat (length keys)))
                    true)
    end.

Definition secureImport (now : Z) (importedData : value) : completion ImportResult :=
  try_catch
    (_ <- (if is_nullish importedData
           then throw_type_error (DestructureNullish importedData)
           else Normal tt) ;;
     signature <- Get importedData INTEGRITY_KEY ;;
     timestamp <- Get importedData TIMESTAMP_KEY ;;
     sfVersion <- Get importedData VERSION_KEY ;;
     let gameData := candidate importedData in
     import_gates now signature timestamp gameData)
    import_handler.

End SafeFile.

(** ** What the validator looks at

    The input is an object (an array counts, [null] does not), and each of
    the three fields, when truthy, has the type it needs. *)
Definition is_object (v : value) : bool :=
  type_tag_eqb (typeof v) TObject && negb (match v with VNull => true | _ => false end).

Definition wrong_unlocked (v : value) : bool :=
  truthy (own_property v (js "unlocked"))
  && negb (type_tag_eqb (typeof (own_property v (js "unlocked"))) TObject).

Definition wrong_history (v : value) : bool :=
  truthy (own_property v (js "history"))
  && negb (Array_isArray (own_property v (js "history"))).

Definition wrong_missions (v : value) : bool :=
  truthy (own_property v (js "missions"))
  && negb (Array_isArray (own_property v (js "missions"))).

(** ** The fingerprint of a snapshot

    The four components the key depends on: the sorted names of the unlocked
    entities, the sorted names of the missions that are done, the number of
    unlocked entities, and the schema version, 1 when there is none. A
    mission is done when its [done] flag is truthy, which for a boolean flag
    is [done = true]; a falsy version or field counts as absent. *)

Record fingerprint : Type := {
  unlocked_names : list jsstring;
  completed_names : list value;
  unlocked_count : Z;
  schema_version : value
}.

Definition unlocked_names_of (S : value) : list jsstring :=
  List.map fst (own_props (or_else (own_property S (js "unlocked")) (VObj []))).

Definition missions_of (S : value) : list value :=
  match or_else (own_property S (js "missions")) (VArr []) with
  | VArr l => l
  | _ => []
  end.

Definition is_done (m : value) : bool := truthy (own_property m (js "done")).

Definition fingerprint_of (S : value) : fingerprint := {|
  unlocked_names := sort_strings (unlocked_names_of S);
  completed_names :=
    Array_sort (List.map (fun m => own_property m (js "name"))
                  (List.filter is_done (missions_of S)));
  unlocked_count := Z.of_nat (length (unlocked_names_of S));
  schema_version := or_else (own_property S (js "version")) (VNum 1)
|}.

(** The canonical serialization of a fingerprint: the JSON text of
    [{unlocked, missionProgress, stats: {unlockedCount, version}}], the
    completed names joined by commas. *)
Definition fingerprint_value (fp : fingerprint) : value :=
  VObj [(js "unlocked", VArr (List.map VStr (unlocked_names fp)));
        (js "missionProgress", VStr (Array_join (js ",") (completed_names fp)));
        (js "stats",
         VObj [(js "unlockedCount", VNum (unlocked_count fp));
               (js "version", schema_version fp)])].

Definition canonical (fp : fingerprint) : jsstring :=
  match JSON_stringify (fingerprint_value fp) None with
  | Some s => s
  | None => []
  end.

(** The snapshots the key derivation is defined on: not [null] or
    [undefined], with [missions] absent, falsy or an array, none of whose
    entries is [null] or [undefined]. *)
Definition key_derivable (S : value) : bool :=
  negb (is_nullish S)
  && (negb (truthy (own_property S (js "missions")))
      || Array_isArray (own_property S (js "missions")))
  && forallb (fun m => negb (is_nullish m)) (missions_of S).

(** ** A reference host: SHA-256 and HMAC-SHA-256 computed *)

Module Reference.

(** Strings that are a run of decimal digits; the empty string is 0 and
    every other string is taken as NaN. *)
Fixpoint digits_value (acc : Z) (s : jsstring) : option Z :=
  match s with
  | [] => Some acc
  | c :: rest =>
      if (48 <=? c) && (c <=? 57) then digits_value (10 * acc + (c - 48)) rest
      else None
  end.

Definition type_error_text (e : type_error) : jsstring :=
  match e with
  | ReadOfNullish base k =>
      js "Cannot read properties of " ++ ToString base ++ js " (reading '" ++ k ++ js "')"
  | NotAFunction method => js "(intermediate value)." ++ method ++ js " is not a function"
  | NotAnObject _ => js "Cannot convert undefined or null to object"
  | DestructureNullish v =>
      js "Cannot destructure '" ++ ToString v ++ js "' as it is " ++ ToString v ++ js "."
  | CircularStructure => js "Converting circular structure to JSON"
  end.

(** WebCrypto refuses to import an empty HMAC key. *)
Definition hmac_sign (key data : bytes) : completion bytes :=
  match key with
  | [] => Throw (JsError (js "DataError"))
  | _ :: _ => Normal (SHA256.hmac key data)
  end.

(** The locale format of a date is the host's own: this host prints the
    argument of [new Date], a time value in milliseconds, as it is. *)
Definition time_value_text (v : value) : jsstring := ToString v.

#[refine] Instance platform : Platform := {|
  subtle_digest m := Normal (SHA256.sha256 m);
  subtle_hmac_sign := hmac_sign;
  StringToNumber := digits_value 0;
  Date_toLocaleString := time_value_text;
  TypeError_message := type_error_text
|}.
Proof.
  - intros m h [= <-]. reflexivity.
  - intros k m s. unfold hmac_sign. destruct k; [discriminate|].
    intros [= <-]. reflexivity.
Defined.

(** The snapshot of the specification's concrete scenario:
    [{unlocked: {"Fire": ["🔥"]}, history: [],
      missions: [{name: "Fire", emoji: ["🔥"], done: true}], version: 1}]. *)
Definition fire : jsstring := [0xD83D; 0xDD25].
Definition droplet : jsstring := [0xD83D; 0xDCA7].

Definition mission (name : jsstring) (emoji : jsstring) (done : bool) : value :=
  VObj [(js "name", VStr name); (js "emoji", VArr [VStr emoji]); (js "done", VBool done)].

Definition snapshot_with (display : jsstring) : value :=
  VObj [(js "unlocked", VObj [(js "Fire", VArr [VStr display])]);
        (js "history", VArr []);
        (js "missions", VArr [mission (js "Fire") fire true]);
        (js "version", VNum 1)].

Definition snapshot : value := snapshot_with fire.

(** A clock reading on 1 November 2025, and the envelope [secureExport]
    builds from [snapshot] at that time. *)
Definition clock : Z := 1762000000000.

Definition signature_of_snapshot : jsstring :=
  js "PkExJsN8lSZVEGsybOrqLZeUHwDuE9kdwDVyWcaqjO4=".

Definition envelope_with (display : jsstring) (timestamp : value) : value :=
  VObj (own_props (snapshot_with display) ++
        [(INTEGRITY_KEY, VStr signature_of_snapshot);
         (TIMESTAMP_KEY, timestamp);
         (VERSION_KEY, VStr (js "1.0"))]).

Definition envelope : value := envelope_with fire (VNum clock).

(** A snapshot that itself carries a reserved name, and its envelope: the
    signature covers [{"_sf_version":"0.9","unlocked":{}}]. *)
Definition snapshot_with_reserved_name : value :=
  VObj [(js "unlocked", VObj []); (VERSION_KEY, VStr (js "0.9"))].

Definition envelope_with_reserved_name : value :=
  VObj [(js "unlocked", VObj []);
        (VERSION_KEY, VStr (js "1.0"));
        (INTEGRITY_KEY, VStr (js "9x65Kwi9q3K29SOu5S8im++OhgYJ4cR9JmYaQy+LrQw="));
        (TIMESTAMP_KEY, VNum clock)].

(** The envelope of the empty array: the signature covers [[]]. *)
Definition envelope_of_empty_array : value :=
  VObj [(INTEGRITY_KEY, VStr (js "yHCVUpOb8EqeWJDi7wfN1vgTrhN8w8LMhaFvQovxOoo="));
        (TIMESTAMP_KEY, VNum clock);
        (VERSION_KEY, VStr (js "1.0"))].

End Reference.

(** ** A host without WebCrypto

    In a context where [crypto.subtle] is undefined, each call on it throws
    a TypeError. *)

Module Unavailable.

Definition no_subtle (method : jsstring) : exn :=
  JsTypeError (Reference.type_error_text (ReadOfNullish VUndefined method)).

#[refine] Instance platform : Platform := {|
  subtle_digest _ := Throw (no_subtle (js "digest"));
  subtle_hmac_sign _ _ := Throw (no_subtle (js "importKey"));
  StringToNumber := Reference.digits_value 0;
  Date_toLocaleString := Reference.time_value_text;
  TypeError_message := Reference.type_error_text
|}.
Proof. all: discriminate. Defined.

End Unavailable.


(** ** The same code on a store of objects

    To say that [secureImport] leaves its input alone, objects and arrays
    live in a store and a value refers to them by location. An object
    literal, a spread, a rest pattern, [Object.keys], [filter] and [map]
    allocate a new cell; [sort] rewrites the cell it is called on. The
    typed arrays and the result records of the source are not cells of this
    store: they are returned as data. *)

Module Store.

Inductive hval : Type :=
| HUndefined
| HNull
| HBool (b : bool)
| HNum (n : Z)
| HStr (s : jsstring)
| HRef (l : positive).

Inductive cell : Type :=
| CArr (elems : list hval)
| CObj (props : list (jsstring * hval)).

Abbreviation heap := (gmap positive cell).

(** A computation reads and changes the store and completes. *)
Definition M (A : Type) : Type := heap -> completion A * heap.

Definition ret {A : Type} (a : A) : M A := fun h => (Normal a, h).

Definition throw {A : Type} (e : exn) : M A := fun h => (Throw e, h).

Definition mbind {A B : Type} (m : M A) (k : A -> M B) : M B :=
  fun h =>
    match m h with
    | (Normal a, h') => k a h'
    | (Throw e, h') => (Throw e, h')
    end.

Notation "x <~ c ;; k" := (mbind c (fun x => k))
  (at level 100, c at next level, right associativity).

(** A step that only looks at the store. *)
Definition look {A : Type} (f : heap -> completion A) : M A := fun h => (f h, h).

(** Allocation of a new object or array. *)
Definition alloc (c : cell) : M hval :=
  fun h => let l := fresh (dom h) in (Normal (HRef l), <[l := c]> h).

Definition catch {A : Type} (body : M A) (handler : exn -> M A) : M A :=
  fun h =>
    match body h with
    | (Normal a, h') => (Normal a, h')
    | (Throw e, h') => handler e h'
    end.

Fixpoint filter_each {A : Type} (p : A -> M bool) (l : list A) : M (list A) :=
  match l with
  | [] => ret []
  | x :: rest =>
      keep <~ p x ;;
      rest' <~ filter_each p rest ;;
      ret (if keep then x :: rest' else rest')
  end.

Fixpoint map_each {A B : Type} (f : A -> M B) (l : list A) : M (list B) :=
  match l with
  | [] => ret []
  | x :: rest =>
      y <~ f x ;;
      rest' <~ map_each f rest ;;
      ret (y :: rest')
  end.

Definition is_nullish (v : hval) : bool :=
  match v with HUndefined | HNull => true | _ => false end.

Definition truthy (v : hval) : bool :=
  match v with
  | HUndefined | HNull => false
  | HBool b => b
  | HNum n => negb (n =? 0)
  | HStr [] => false
  | HStr (_ :: _) | HRef _ => true
  end.

Definition typeof (v : hval) : type_tag :=
  match v with
  | HUndefined => TUndefined
  | HNull | HRef _ => TObject
  | HBool _ => TBoolean
  | HNum _ => TNumber
  | HStr _ => TString
  end.

Definition or_else (a b : hval) : hval := if truthy a then a else b.

(** [a || {}] and [a || []]: the literal is allocated when [a] is falsy. *)
Definition or_else_new (a : hval) (c : cell) : M hval :=
  if truthy a then ret a else alloc c.

(** The cell a reference points to. *)
Definition cell_at (h : heap) (l : positive) : cell :=
  match h !! l with
  | Some c => c
  | None => CObj []
  end.

Definition Array_isArray (h : heap) (v : hval) : bool :=
  match v with
  | HRef l => match cell_at h l with CArr _ => true | CObj _ => false end
  | _ => false
  end.

Definition own_props (h : heap) (v : hval) : list (jsstring * hval) :=
  match v with
  | HRef l => match cell_at h l with CObj ps => ps | CArr es => indexed es end
  | HStr s => indexed (List.map (fun c => HStr [c]) s)
  | _ => []
  end.

Definition own_property (h : heap) (v : hval) (k : jsstring) : hval :=
  match assoc k (own_props h v) with
  | Some x => x
  | None => HUndefined
  end.

Definition length_of (h : heap) (v : hval) : option Z :=
  match v with
  | HRef l =>
      match cell_at h l with
      | CArr es => Some (Z.of_nat (length es))
      | CObj _ => None
      end
  | HStr s => Some (Z.of_nat (length s))
  | _ => None
  end.

(** ToString; an array met again inside itself prints as the empty string,
    as engines have it. *)
Fixpoint ToString (fuel : nat) (h : heap) (visited : list positive) (v : hval)
  : jsstring :=
  match v with
  | HUndefined => js "undefined"
  | HNull => js "null"
  | HBool true => js "true"
  | HBool false => js "false"
  | HNum n => number_to_string n
  | HStr s => s
  | HRef l =>
      match cell_at h l with
      | CObj _ => js "[object Object]"
      | CArr es =>
          match fuel with
          | O => []
          | S fuel' =>
              if existsb (Pos.eqb l) visited then []
              else join (js ",")
                     (List.map (fun x => if is_nullish x then []
                                         else ToString fuel' h (l :: visited) x) es)
          end
      end
  end.

(** No chain of distinct references is longer than the store. *)
Definition depth (h : heap) : nat := S (size h).

Definition to_string (h : heap) (v : hval) : jsstring := ToString (depth h) h [] v.

Definition sort_before (h : heap) (x y : hval) : bool :=
  match x, y with
  | HUndefined, _ => false
  | _, HUndefined => true
  | _, _ => str_ltb (to_string h x) (to_string h y)
  end.

Fixpoint sort_insert (h : heap) (x : hval) (sorted : list hval) : list hval :=
  match sorted with
  | [] => [x]
  | y :: rest =>
      if sort_before h y x then y :: sort_insert h x rest else x :: y :: rest
  end.

Definition sorted (h : heap) (l : list hval) : list hval :=
  fold_right (sort_insert h) [] l.

Section OnHost.
Context {host : Platform}.

Definition throw_type_error {A : Type} (e : type_error) : M A :=
  throw (JsTypeError (TypeError_message e)).

(** The tree a value stands for, for the messages of the host. *)
Definition shallow (v : hval) : value :=
  match v with
  | HUndefined => VUndefined
  | HNull => VNull
  | HBool b => VBool b
  | HNum n => VNum n
  | HStr s => VStr s
  | HRef _ => VObj []
  end.

Definition Get (v : hval) (k : jsstring) : M hval :=
  if is_nullish v then throw_type_error (ReadOfNullish (shallow v) k)
  else
    look (fun h =>
            match (if str_eqb k (js "length") then length_of h v else None) with
            | Some n => Normal (HNum n)
            | None => Normal (own_property h v k)
            end).

(** [Object.keys(v)]: a new array. *)
Definition Object_keys (v : hval) : M hval :=
  if is_nullish v then throw_type_error (NotAnObject (shallow v))
  else
    ps <~ look (fun h => Normal (own_props h v)) ;;
    alloc (CArr (List.map (fun kv => HStr (fst kv)) ps)).

(** [v.sort()]: the array is sorted in place and returned. *)
Definition Array_sort (v : hval) : M hval :=
  fun h =>
    match v with
    | HRef l =>
        match h !! l with
        | Some (CArr es) => (Normal v, <[l := CArr (sorted h es)]> h)
        | _ => (Throw (JsTypeError (TypeError_message (NotAFunction (js "sort")))), h)
        end
    | _ => (Throw (JsTypeError (TypeError_message (NotAFunction (js "sort")))), h)
    end.

Definition elements (method : jsstring) (v : hval) : M (list hval) :=
  match v with
  | HRef l =>
      look (fun h => match cell_at h l with
                     | CArr es => Normal es
                     | CObj _ => Throw (JsTypeError (TypeError_message (NotAFunction method)))
                     end)
  | HUndefined | HNull => throw_type_error (ReadOfNullish (shallow v) method)
  | _ => throw_type_error (NotAFunction method)
  end.

(** [v.filter(p)] and [v.map(f)]: a new array each. *)
Definition Array_filter (v : hval) (p : hval -> M bool) : M hval :=
  es <~ elements (js "filter") v ;;
  kept <~ filter_each p es ;;
  alloc (CArr kept).

Definition Array_map (v : hval) (f : hval -> M hval) : M hval :=
  es <~ elements (js "map") v ;;
  images <~ map_each f es ;;
  alloc (CArr images).

Definition Array_join (sep : jsstring) (v : hval) : M jsstring :=
  es <~ elements (js "join") v ;;
  look (fun h => Normal (join sep (List.map (fun x => if is_nullish x then []
                                                       else to_string h x) es))).

(** SerializeJSONProperty on the store; running out of [fuel] is meeting a
    cycle, which throws. *)
Fixpoint SerializeJSONProperty (fuel : nat) (h : heap) (K : option (list jsstring))
    (v : hval) : completion (option jsstring) :=
  match v with
  | HUndefined => Normal None
  | HNull => Normal (Some (js "null"))
  | HBool true => Normal (Some (js "true"))
  | HBool false => Normal (Some (js "false"))
  | HNum n => Normal (Some (number_to_string n))
  | HStr s => Normal (Some (QuoteJSONString s))
  | HRef l =>
      match fuel with
      | O => Throw (JsTypeError (TypeError_message CircularStructure))
      | S fuel' =>
          match cell_at h l with
          | CArr es =>
              texts <- mapM
                         (fun x => s <- SerializeJSONProperty fuel' h K x ;;
                                   Normal (match s with Some t => t | None => js "null" end))
                         es ;;
              Normal (Some (js "[" ++ join (js ",") texts ++ js "]"))
          | CObj ps =>
              let names := match K with Some ks => ks | None => List.map fst ps end in
              members <- mapM
                           (fun k =>
                              match assoc k ps with
                              | None => Normal []
                              | Some x =>
                                  s <- SerializeJSONProperty fuel' h K x ;;
                                  Normal (match s with
                                          | Some t => [QuoteJSONString k ++ js ":" ++ t]
                                          | None => []
                                          end)
                              end)
                           names ;;
              Normal (Some (js "{" ++ join (js ",") (concat members) ++ js "}"))
          end
      end
  end.

Definition JSON_stringify (v : hval) (replacer : option (list jsstring))
  : M (option jsstring) :=
  look (fun h => SerializeJSONProperty (depth h) h
                   (option_map (property_list []) replacer) v).

(** The strings of an array of strings, for a replacer. *)
Definition strings_of (v : hval) : M (list jsstring) :=
  es <~ elements (js "forEach") v ;;
  look (fun h => Normal (List.map (to_string h) es)).

Definition features (saveData : hval) : M hval :=
  unlocked <~ Get saveData (js "unlocked") ;;
  unlockedOrEmpty <~ or_else_new unlocked (CObj []) ;;
  keys <~ Object_keys unlockedOrEmpty ;;
  names <~ Array_sort keys ;;
  missions <~ Get saveData (js "missions") ;;
  missionsOrEmpty <~ or_else_new missions (CArr []) ;;
  completed <~ Array_filter missionsOrEmpty
                 (fun m => d <~ Get m (js "done") ;; ret (truthy d)) ;;
  completedNames <~ Array_map completed (fun m => Get m (js "name")) ;;
  sortedNames <~ Array_sort completedNames ;;
  missionProgress <~ Array_join (js ",") sortedNames ;;
  unlocked' <~ Get saveData (js "unlocked") ;;
  unlockedOrEmpty' <~ or_else_new unlocked' (CObj []) ;;
  keys' <~ Object_keys unlockedOrEmpty' ;;
  unlockedCount <~ Get keys' (js "length") ;;
  version <~ Get saveData (js "version") ;;
  stats <~ alloc (CObj [(js "unlockedCount", unlockedCount);
                        (js "version", or_else version (HNum 1))]) ;;
  alloc (CObj [(js "unlocked", names);
               (js "missionProgress", HStr missionProgress);
               (js "stats", stats)]).

Definition generateDynamicKey (saveData : hval) : M jsstring :=
  feats <~ features saveData ;;
  seed <~ JSON_stringify feats None ;;
  let seedBuffer := encode seed in
  hashBuffer <~ look (fun _ => subtle_digest seedBuffer) ;;
  ret (firstn 32 (base64 hashBuffer)).

Definition generateSignature (saveData : hval) (dynamicKey : jsstring) : M jsstring :=
  keys <~ Object_keys saveData ;;
  sortedKeys <~ Array_sort keys ;;
  replacer <~ strings_of sortedKeys ;;
  normalizedData <~ JSON_stringify saveData (Some replacer) ;;
  let dataBuffer := encode normalizedData in
  let keyBuffer := encode (Some dynamicKey) in
  signature <~ look (fun _ => subtle_hmac_sign keyBuffer dataBuffer) ;;
  ret (base64 signature).

Definition validateGameLogic (saveData : hval) : M ValidationResult :=
  catch
    (if negb (type_tag_eqb (typeof saveData) TObject)
        || match saveData with HNull => true | _ => false end
     then ret (Invalid reason_save_format)
     else
       u <~ Get saveData (js "unlocked") ;;
       unlocked <~ or_else_new u (CObj []) ;;
       hi <~ Get saveData (js "history") ;;
       history <~ or_else_new hi (CArr []) ;;
       m <~ Get saveData (js "missions") ;;
       missions <~ or_else_new m (CArr []) ;;
       if negb (type_tag_eqb (typeof unlocked) TObject)
       then ret (Invalid reason_unlocked_format)
       else
         historyIsArray <~ look (fun h => Normal (Array_isArray h history)) ;;
         if negb historyIsArray then ret (Invalid reason_history_format)
         else
           missionsIsArray <~ look (fun h => Normal (Array_isArray h missions)) ;;
           if negb missionsIsArray then ret (Invalid reason_missions_format)
           else ret Valid)
    (fun _ => ret (Invalid reason_parse)).

(** The result of [secureImport]; [data] refers to the new object
    [gameData]. *)
Inductive ImportResult : Type :=
| ImportOk (data : hval) (importTime : jsstring) (elements : hval) (verified : bool)
| ImportFail (reason : jsstring).

Definition ToNumber (h : heap) (v : hval) : option Z :=
  match v with
  | HUndefined => None
  | HNull => Some 0
  | HBool b => Some (if b then 1 else 0)
  | HNum n => Some n
  | HStr s => StringToNumber s
  | HRef _ => StringToNumber (to_string h v)
  end.

Definition timestamp_out_of_range (now : Z) (h : heap) (timestamp : hval) : bool :=
  less_than (ToNumber h timestamp) (Some releaseTime)
  || less_than (Some (now + dayInMs)) (ToNumber h timestamp).

Definition differs_from_string (a : hval) (b : jsstring) : bool :=
  match a with
  | HStr s => negb (str_eqb s b)
  | _ => true
  end.

(** The date [new Date(v)] is built from: a primitive, or the string of an
    object. *)
Definition date_argument (h : heap) (v : hval) : value :=
  match v with
  | HRef _ => VStr (to_string h v)
  | _ => shallow v
  end.

Definition import_gates (now : Z) (signature timestamp gameData : hval)
  : M ImportResult :=
  if negb (truthy signature) then ret (ImportFail reason_not_secure)
  else
    outOfRange <~ look (fun h => Normal (truthy timestamp
                                         && timestamp_out_of_range now h timestamp)) ;;
    if (outOfRange : bool) then ret (ImportFail reason_timestamp)
    else
      logicCheck <~ validateGameLogic gameData ;;
      match logicCheck with
      | Invalid reason => ret (ImportFail (structure_prefix ++ reason))
      | Valid =>
          expectedKey <~ generateDynamicKey gameData ;;
          expectedSignature <~ generateSignature gameData expectedKey ;;
          if differs_from_string signature expectedSignature
          then ret (ImportFail reason_integrity)
          else
            importTime <~ look (fun h => Normal (Date_toLocaleString
                                   (date_argument h (or_else timestamp (HNum now))))) ;;
            u <~ Get gameData (js "unlocked") ;;
            unlockedOrEmpty <~ or_else_new u (CObj []) ;;
            keys <~ Object_keys unlockedOrEmpty ;;
            count <~ Get keys (js "length") ;;
            ret (ImportOk gameData importTime count true)
      end.

Definition secureImport (now : Z) (importedData : hval) : M ImportResult :=
  catch
    (_ <~ (if is_nullish importedData
           then throw_type_error (DestructureNullish (shallow importedData))
           else ret tt) ;;
     signature <~ Get importedData INTEGRITY_KEY ;;
     timestamp <~ Get importedData TIMESTAMP_KEY ;;
     sfVersion <~ Get importedData VERSION_KEY ;;
     rest <~ look (fun h => Normal (List.filter
                      (fun kv => negb (existsb (str_eqb (fst kv)) reserved_keys))
                      (own_props h importedData))) ;;
     gameData <~ alloc (CObj rest) ;;
     import_gates now signature timestamp gameData)
    (fun error => ret (ImportFail (import_prefix ++ error_message error))).

End OnHost.

(** Loading a tree into the store, and reading one back. *)
Fixpoint load (v : value) : M hval :=
  match v with
  | VUndefined => ret HUndefined
  | VNull => ret HNull
  | VBool b => ret (HBool b)
  | VNum n => ret (HNum n)
  | VStr s => ret (HStr s)
  | VArr l =>
      es <~ (fix go (l : list value) : M (list hval) :=
               match l with
               | [] => ret []
               | x :: rest => y <~ load x ;; ys <~ go rest ;; ret (y :: ys)
               end) l ;;
      alloc (CArr es)
  | VObj ps =>
      qs <~ (fix go (ps : list (jsstring * value)) : M (list (jsstring * hval)) :=
               match ps with
               | [] => ret []
               | (k, x) :: rest => y <~ load x ;; ys <~ go rest ;; ret ((k, y) :: ys)
               end) ps ;;
      alloc (CObj qs)
  end.

Fixpoint reify (fuel : nat) (h : heap) (v : hval) : option value :=
  match v with
  | HUndefined => Some VUndefined
  | HNull => Some VNull
  | HBool b => Some (VBool b)
  | HNum n => Some (VNum n)
  | HStr s => Some (VStr s)
  | HRef l =>
      match fuel with
      | O => None
      | S fuel' =>
          match cell_at h l with
          | CArr es =>
              option_map VArr
                (fold_right (fun x acc => match reify fuel' h x, acc with
                                          | Some y, Some ys => Some (y :: ys)
                                          | _, _ => None
                                          end) (Some []) es)
          | CObj ps =>
              option_map VObj
                (fold_right (fun kx acc => match reify fuel' h (snd kx), acc with
                                           | Some y, Some ys => Some ((fst kx, y) :: ys)
                                           | _, _ => None
                                           end) (Some []) ps)
          end
      end
  end.

(** [frames h0 m Q]: run from any store that extends [h0], the computation
    [m] ends in a store that extends [h0], and a normal result satisfies
    [Q]. Every cell of [h0] is then what it was. *)
Definition frames {A : Type} (h0 : heap) (m : M A) (Q : A -> Prop) : Prop :=
  forall h, h0 ⊆ h -> h0 ⊆ (m h).2 /\ forall a, (m h).1 = Normal a -> Q a.

(** A value that does not refer to a cell of [h0]. *)
Definition outside (h0 : heap) (v : hval) : Prop :=
  match v with
  | HRef l => h0 !! l = None
  | _ => True
  end.

Definition anything {A : Type} (a : A) : Prop := True.

End Store.

(** The scenario's envelope loaded into an empty store: seven cells, the
    envelope at location 7, its [missions] array at location 6. *)
Definition scenario_store : Store.heap := (Store.load Reference.envelope ∅).2.

(** ** Comparing the two models

    [agrees now tv] runs [secureImport] on the tree [tv] and, in the store
    model, on [tv] loaded into an empty store, and compares the outcomes:
    the same failure reason, or the same data, import time and count; in
    both cases the loaded input must read back as [tv]. *)

Fixpoint value_eqb (a b : value) {struct a} : bool :=
  match a, b with
  | VUndefined, VUndefined | VNull, VNull => true
  | VBool x, VBool y => Bool.eqb x y
  | VNum x, VNum y => x =? y
  | VStr x, VStr y => str_eqb x y
  | VArr l, VArr m =>
      (fix all2 (l m : list value) : bool :=
         match l, m with
         | [], [] => true
         | x :: l', y :: m' => value_eqb x y && all2 l' m'
         | _, _ => false
         end) l m
  | VObj l, VObj m =>
      (fix all2 (l m : list (jsstring * value)) : bool :=
         match l, m with
         | [], [] => true
         | (k, x) :: l', (k', y) :: m' => str_eqb k k' && value_eqb x y && all2 l' m'
         | _, _ => false
         end) l m
  | _, _ => false
  end.

Definition reads_as (h : Store.heap) (v : Store.hval) (tv : value) : bool :=
  match Store.reify (Store.depth h) h v with
  | Some tv' => value_eqb tv tv'
  | None => false
  end.

Definition agrees {host : Platform} (now : Z) (tv : value) : bool :=
  match Store.load tv ∅ with
  | (Normal v, h) =>
      match secureImport now tv, Store.secureImport now v h with
      | Normal (ImportOk data importTime count verified),
        (Normal (Store.ImportOk data' importTime' count' verified'), h') =>
          reads_as h' data' data && str_eqb importTime importTime'
          && reads_as h' count' count && Bool.eqb verified verified'
          && reads_as h' v tv
      | Normal (ImportFail reason), (Normal (Store.ImportFail reason'), h') =>
          str_eqb reason reason' && reads_as h' v tv
      | _, _ => false
      end
  | _ => false
  end.

(** Inputs of every kind: accepted and tampered envelopes, foreign values,
    wrong field types, [null] entries, names and timestamps that are not
    strings or numbers. *)
Definition samples : list value :=
  let signed (ps : list (jsstring * value)) := VObj ((INTEGRITY_KEY, VStr (js "sig")) :: ps) in
  [Reference.envelope; Reference.snapshot; VNull; VUndefined; VNum 5;
   VStr (js "abc"); VArr [VNum 1];
   Reference.envelope_with Reference.droplet (VNum 0);
   Reference.envelope_with Reference.fire (VNum 1);
   Reference.envelope_with_reserved_name; Reference.envelope_of_empty_array;
   signed [(js "missions", VArr [VNull])];
   signed [(js "missions", VStr (js "abc"))];
   signed [(js "history", VNum 3)];
   signed [(js "unlocked", VStr (js "abc"))];
   signed [(TIMESTAMP_KEY, VStr (js "12"))];
   signed [(TIMESTAMP_KEY, VArr [VNum 5])];
   signed [(TIMESTAMP_KEY, VObj [])];
   signed [(js "unlocked", VObj [(js "b", VNum 1); (js "a", VNum 2); (js "10", VNull)]);
           (js "missions",
            VArr [VObj [(js "done", VNum 1);
                        (js "name", VArr [VNum 1; VNull; VArr [VNum 2]])];
                  VStr (js "zz"); VNum 4;
                  VObj [(js "done", VBool true); (js "name", VNum 10)];
                  VObj [(js "done", VBool true); (js "name", VNum 9)];
                  VObj [(js "done", VStr (js "y"))]])];
   VObj [(INTEGRITY_KEY, VNum 1)]].

(** ** What lets an input through the gates of [secureImport]

    After the guard on the signature: the timestamp is falsy or in range,
    the validator accepts [gameData], the key and the signature are
    derived, and the stored signature is the string recomputed. *)
Definition passes {host : Platform} (now : Z) (signature timestamp gameData : value)
    (key expected : jsstring) : Prop :=
  truthy timestamp && timestamp_out_of_range now timestamp = false
  /\ validateGameLogic gameData = Valid
  /\ generateDynamicKey gameData = Normal key
  /\ generateSignature gameData key = Normal expected
  /\ signature = VStr expected.

(** The entries [(saveData.history || []).length] counts. *)
Definition history_of (S : value) : list value :=
  match or_else (own_property S (js "history")) (VArr []) with
  | VArr l => l
  | _ => []
  end.

(** ** Values a property list cannot tell apart

    [alike K v v']: [v] and [v'] are the same but for what objects hold
    under names outside [K]. Arrays are alike element by element; two
    objects are alike when each name of [K] is owned by both or by neither,
    with values that are alike. *)
#[local] Unset Elimination Schemes.
Inductive alike (K : list jsstring) : value -> value -> Prop :=
| alike_same v : alike K v v
| alike_arr l l' : Forall2 (alike K) l l' -> alike K (VArr l) (VArr l')
| alike_obj ps ps' :
    (forall k, In k K -> assoc k ps = None <-> assoc k ps' = None) ->
    (forall k x y, In k K -> assoc k ps = Some x -> assoc k ps' = Some y -> alike K x y) ->
    alike K (VObj ps) (VObj ps').
#[local] Set Elimination Schemes.

(** ** The pair key of the combination engine

    [normPair(a, b)] of [CombineEngine]: [[a, b].sort().join('+')]. *)
Definition normPair (a b : value) : jsstring :=
  Array_join (js "+") (Array_sort [a; b]).

(** ** [secureExport] on the store

    The object literal of [secureExport] allocates the envelope: the spread
    copies the own properties of the snapshot, references included, and the
    three reserved names follow. *)

Module Sealing.
Import Store.

Fixpoint set_prop (k : jsstring) (x : hval) (ps : list (jsstring * hval))
  : list (jsstring * hval) :=
  match ps with
  | [] => [(k, x)]
  | (k', y) :: rest =>
      if str_eqb k' k then (k', x) :: rest else (k', y) :: set_prop k x rest
  end.

Definition sealed (ps : list (jsstring * hval)) (signature : jsstring) (now : Z)
  : list (jsstring * hval) :=
  set_prop VERSION_KEY (HStr (js "1.0"))
    (set_prop TIMESTAMP_KEY (HNum now)
      (set_prop INTEGRITY_KEY (HStr signature) ps)).

(** The result of [secureExport]; [data] refers to the new object
    [secureData]. *)
Inductive ExportResult : Type :=
| ExportOk (data : hval) (elements history missions : hval)
| ExportFail (error : jsstring).

Section OnHost.
Context {host : Platform}.

Definition secureExport (now : Z) (saveData : hval) : M ExportResult :=
  catch
    (logicCheck <~ validateGameLogic saveData ;;
     _ <~ match logicCheck with
          | Invalid reason => throw (JsError (structure_prefix ++ reason))
          | Valid => ret tt
          end ;;
     dynamicKey <~ generateDynamicKey saveData ;;
     signature <~ generateSignature saveData dynamicKey ;;
     ps <~ look (fun h => Normal (own_props h saveData)) ;;
     secureData <~ alloc (CObj (sealed ps signature now)) ;;
     u <~ Get saveData (js "unlocked") ;;
     unlockedOrEmpty <~ or_else_new u (CObj []) ;;
     keys <~ Object_keys unlockedOrEmpty ;;
     elements <~ Get keys (js "length") ;;
     hi <~ Get saveData (js "history") ;;
     historyOrEmpty <~ or_else_new hi (CArr []) ;;
     historyLength <~ Get historyOrEmpty (js "length") ;;
     m <~ Get saveData (js "missions") ;;
     missionsOrEmpty <~ or_else_new m (CArr []) ;;
     missionsLength <~ Get missionsOrEmpty (js "length") ;;
     ret (ExportOk secureData elements historyLength missionsLength))
    (fun error => ret (ExportFail (error_message error))).

End OnHost.

(** A primitive, or a reference to a cell the store holds. *)
Definition allocated (h : heap) (v : hval) : Prop :=
  match v with
  | HRef l => h !! l <> None
  | _ => True
  end.

(** A successful result whose [data] is the reference [g]. *)
Definition imported_data_is (g : hval) (r : ImportResult) : Prop :=
  match r with
  | ImportOk d _ _ _ => d = g
  | ImportFail _ => True
  end.

Definition exported_data_is (g : hval) (r : ExportResult) : Prop :=
  match r with
  | ExportOk d _ _ _ => d = g
  | ExportFail _ => True
  end.

End Sealing.

(** The scenario's snapshot loaded into an empty store: seven cells, the
    snapshot at location 7. *)
Definition snapshot_store : Store.heap := (Store.load Reference.snapshot ∅).2.

(** [export_agrees now tv] compares [secureExport] on the tree [tv] and on
    [tv] loaded into an empty store, as [agrees] does for [secureImport]. *)
Definition export_agrees {host : Platform} (now : Z) (tv : value) : bool :=
  match Store.load tv ∅ with
  | (Normal v, h) =>
      match secureExport now tv, Sealing.secureExport now v h with
      | Normal (ExportOk data elements history missions),
        (Normal (Sealing.ExportOk data' elements' history' missions'), h') =>
          reads_as h' data' data && reads_as h' elements' elements
          && reads_as h' history' history && reads_as h' missions' missions
          && reads_as h' v tv
      | Normal (ExportFail error), (Normal (Sealing.ExportFail error'), h') =>
          str_eqb error error' && reads_as h' v tv
      | _, _ => false
      end
  | _ => false
  end.

(** Snapshots of every kind: the scenario's, an array, values that are not
    objects, a wrong field type, a [null] mission. *)
Definition export_samples : list value :=
  [Reference.snapshot; VArr [VNum 1]; VNull; VUndefined; VStr (js "abc");
   VObj [(js "history", VNum 3)]; VObj [(js "missions", VArr [VNull])]].

(** ** The display configuration of [EmojiRenderer]

    The methods that read and change [elementDisplay], an object used as a
    map from element names to configurations. The renderer is the record
    of the fields these methods use; [emojiImgCache] holds DOM nodes and is
    left out. A name is looked up in a plain object through its own
    properties and then through [Object.prototype]: [inherited] tells the
    names the prototype answers, and a call that would reach one of its
    built-in objects is outside the model ([None]). *)

Module Display.

Record EmojiRenderer : Type := {
  elementDisplay : gmap jsstring value;
  (** the two helpers, [undefined] until [setEmojiHelpers] is called;
      the map is an object used as a map from names to emoji *)
  pickEmojiByName : option (jsstring -> completion value);
  resultEmojiMap : option (gmap jsstring value)
}.

Definition dragon_heart : jsstring := [0x9F8D; 0x4E4B; 0x5FC3].   (* 龍之心 *)

(** The renderer the constructor builds. *)
Definition created : EmojiRenderer := {|
  elementDisplay :=
    {[ dragon_heart :=
         VObj [(js "showEmoji", VBool false); (js "showImage", VBool true);
               (js "image", VStr (js "images/dragon_heart.png"))] ]};
  pickEmojiByName := None;
  resultEmojiMap := None
|}.

(** The table [modes] of [setDisplayMode]. *)
Definition flags (showEmoji showImage : bool) : value :=
  VObj [(js "showEmoji", VBool showEmoji); (js "showImage", VBool showImage)].

Definition modes : list (jsstring * value) :=
  [(js "emoji-only", flags true false);
   (js "image-only", flags false true);
   (js "mixed", flags true true);
   (js "auto", flags true true)].

(** [Object.assign(target, source)] on the properties of two objects. *)
Definition Object_assign (target source : list (jsstring * value))
  : list (jsstring * value) :=
  fold_left (fun t kv => set_prop (fst kv) (snd kv) t) source target.

(** What [o[k]] finds: an own property, nothing, or a built-in of
    [Object.prototype]. *)
Inductive found : Type :=
| Own (x : value)
| Missing
| Builtin.

Section Prototype.
Variable inherited : jsstring -> bool.

Definition resolve (own : option value) (k : jsstring) : found :=
  match own with
  | Some x => Own x
  | None => if inherited k then Builtin else Missing
  end.

Definition with_display (r : EmojiRenderer) (d : gmap jsstring value) : EmojiRenderer :=
  {| elementDisplay := d;
     pickEmojiByName := pickEmojiByName r;
     resultEmojiMap := resultEmojiMap r |}.

(** [Object.assign(this.elementDisplay[elementName], source)], the entry
    being the truthy value [config]: an object takes the properties, a
    primitive is wrapped and the wrapper is dropped, an array would take
    named properties, which the values of this model do not have. *)
Definition assign_entry (r : EmojiRenderer) (elementName : jsstring)
    (config source : value) : option EmojiRenderer :=
  match config with
  | VObj ps =>
      Some (with_display r
              (<[elementName := VObj (Object_assign ps (own_props source))]>
                 (elementDisplay r)))
  | VArr _ => None
  | _ => Some r
  end.

Definition setDisplayMode (r : EmojiRenderer) (elementName mode : jsstring)
  : option EmojiRenderer :=
  match resolve (assoc mode modes) mode with
  | Builtin => None
  | Missing => Some r
  | Own source =>
      match resolve (elementDisplay r !! elementName) elementName with
      | Builtin => None
      | Missing => assign_entry r elementName (VObj []) source
      | Own config =>
          if truthy config then assign_entry r elementName config source
          else assign_entry r elementName (VObj []) source
      end
  end.

Definition setEmojiHelpers (r : EmojiRenderer)
    (pickEmojiByNameFn : option (jsstring -> completion value))
    (map : option (gmap jsstring value)) : EmojiRenderer :=
  {| elementDisplay := elementDisplay r;
     pickEmojiByName := pickEmojiByNameFn;
     resultEmojiMap := map |}.

(** The default emoji of [getElementDisplayConfig]: the fallback when it
    is truthy or a helper is missing, else the entry of the map when it is
    truthy, else what [pickEmojiByName] returns. *)
Definition defaultEmoji (r : EmojiRenderer) (name : jsstring) (fallbackEmoji : value)
  : option (completion value) :=
  match resultEmojiMap r, pickEmojiByName r with
  | Some entries, Some pick =>
      if truthy fallbackEmoji then Some (Normal fallbackEmoji)
      else
        match resolve (entries !! name) name with
        | Builtin => None
        | Own x => if truthy x then Some (Normal x) else Some (pick name)
        | Missing => Some (pick name)
        end
  | _, _ => Some (Normal fallbackEmoji)
  end.

(** [fallbackEmoji] is the argument, [undefined] when there is none. *)
Definition getElementDisplayConfig (r : EmojiRenderer) (name : jsstring)
    (fallbackEmoji : value) : option (completion value) :=
  match resolve (elementDisplay r !! name) name with
  | Builtin => None
  | entry =>
      let config := match entry with Own x => x | _ => VUndefined end in
      let fallback := match fallbackEmoji with VUndefined => VNull | x => x end in
      match defaultEmoji r name fallback with
      | None => None
      | Some (Throw e) => Some (Throw e)
      | Some (Normal emoji) =>
          if negb (truthy config)
          then Some (Normal (VObj [(js "showEmoji", VBool true);
                                   (js "showImage", VBool false);
                                   (js "emoji", emoji)]))
          else Some (Normal (VObj (set_prop (js "emoji")
                                     (or_else (own_property config (js "customEmoji")) emoji)
                                     (own_props config))))
      end
  end.

End Prototype.

(** The names [Object.prototype] defines in ECMAScript, Annex B included. *)
Definition Object_prototype_names : list jsstring :=
  [js "constructor"; js "hasOwnProperty"; js "isPrototypeOf";
   js "propertyIsEnumerable"; js "toLocaleString"; js "toString"; js "valueOf";
   js "__proto__"; js "__defineGetter__"; js "__defineSetter__";
   js "__lookupGetter__"; js "__lookupSetter__"].

Definition standard (k : jsstring) : bool := existsb (str_eqb k) Object_prototype_names.

(** Every configuration is an object, as the constructor and
    [setDisplayMode] make them. *)
Definition configured (r : EmojiRenderer) : Prop :=
  forall name x, elementDisplay r !! name = Some x -> exists ps, x = VObj ps.

End Display.

(** ** Platform detection of [EmojiRenderer]

    [/Mac|iPhone|iPad|iPod/i.test(navigator.userAgent)]. Without the
    [u] flag, ignoring case compares code units after [toUpperCase], and a
    code unit outside ASCII never compares equal to an ASCII one: for the
    letters of the pattern, only the 26 ASCII lowercase letters fold. *)

Definition fold_case (c : Z) : Z :=
  if (97 <=? c) && (c <=? 122) then c - 32 else c.

(** The word [w] matches at the start of [s]. *)
Fixpoint matches_here (w s : jsstring) : bool :=
  match w, s with
  | [], _ => true
  | p :: w', c :: s' => (fold_case p =? fold_case c) && matches_here w' s'
  | _ :: _, [] => false
  end.

(** The word matches at some index of [s]. *)
Fixpoint matches_somewhere (w s : jsstring) : bool :=
  matches_here w s
  || match s with
     | [] => false
     | _ :: s' => matches_somewhere w s'
     end.

Definition apple_words : list jsstring := [js "Mac"; js "iPhone"; js "iPad"; js "iPod"].

(** [userAgent] is [navigator.userAgent]. *)
Definition isApplePlatform (userAgent : jsstring) : bool :=
  existsb (fun w => matches_somewhere w userAgent) apple_words.

(** * Properties *)

(** ** Strings and property lists *)

Lemma str_eqb_eq (a b : jsstring) : str_eqb a b = true <-> a = b.
Proof.
  revert b. induction a as [|x a IH]; intros [|y b]; simpl; split;
    try congruence; try discriminate.
  - intros H. apply andb_true_iff in H as [Hx Hab].
    apply Z.eqb_eq in Hx. apply IH in Hab. congruence.
  - intros [= -> ->]. rewrite Z.eqb_refl. simpl. now apply IH.
Qed.

Lemma str_eqb_refl (a : jsstring) : str_eqb a a = true.
Proof. now apply str_eqb_eq. Qed.

Lemma str_eqb_neq (a b : jsstring) : str_eqb a b = false <-> a <> b.
Proof.
  rewrite <- str_eqb_eq. destruct (str_eqb a b); split; congruence.
Qed.

Lemma assoc_set_prop_eq (k : jsstring) (x : value) ps :
  assoc k (set_prop k x ps) = Some x.
Proof.
  induction ps as [|[k' y] ps IH]; simpl.
  - now rewrite str_eqb_refl.
  - destruct (str_eqb k' k) eqn:E; simpl; rewrite E; auto.
Qed.

Lemma assoc_set_prop_ne (k k' : jsstring) (x : value) ps :
  str_eqb k k' = false -> assoc k' (set_prop k x ps) = assoc k' ps.
Proof.
  intros Hne. induction ps as [|[k0 y] ps IH]; simpl.
  - now rewrite Hne.
  - destruct (str_eqb k0 k) eqn:E; simpl.
    + apply str_eqb_eq in E. subst k0. now rewrite Hne.
    + now rewrite IH.
Qed.

(** A rest pattern that excludes [k] does not see what was stored under [k]. *)
Lemma without_keys_set_prop (ks : list jsstring) (k : jsstring) (x : value) ps :
  existsb (str_eqb k) ks = true ->
  without_keys ks (set_prop k x ps) = without_keys ks ps.
Proof.
  intros Hk. unfold without_keys.
  induction ps as [|[k' y] ps IH]; simpl.
  - now rewrite Hk.
  - destruct (str_eqb k' k) eqn:E; simpl.
    + apply str_eqb_eq in E. subst k'. now rewrite Hk.
    + now rewrite IH.
Qed.

Lemma without_keys_none ps :
  no_reserved_key ps -> without_keys reserved_keys ps = ps.
Proof.
  unfold without_keys. induction 1 as [|kv ps Hkv _ IH]; cbn [List.filter]; auto.
  rewrite Hkv. cbn [negb]. now rewrite IH.
Qed.

Lemma without_keys_absent (ks : list jsstring) ps k :
  existsb (str_eqb k) ks = true -> assoc k (without_keys ks ps) = None (A:=value).
Proof.
  intros Hk. unfold without_keys.
  induction ps as [|[k' y] ps IH]; simpl; auto.
  destruct (existsb (str_eqb k') ks) eqn:E; simpl; auto.
  destruct (str_eqb k' k) eqn:E'; auto.
  apply str_eqb_eq in E'. congruence.
Qed.

Lemma base64_length_32 (bs : bytes) :
  length bs = 32%nat -> truthy (VStr (base64 bs)) = true.
Proof.
  destruct bs as [|a [|b [|c rest]]]; simpl; try discriminate; auto.
Qed.

(** ** Property reads *)

Section Reads.
Context {host : Platform}.

Lemma Get_own v k :
  is_nullish v = false -> str_eqb k (js "length") = false ->
  Get v k = Normal (own_property v k).
Proof. intros H Hk. unfold Get. now rewrite H, Hk. Qed.

Lemma Get_total v k : is_nullish v = false -> exists x, Get v k = Normal x.
Proof.
  intros H. unfold Get. rewrite H.
  destruct (if str_eqb k (js "length") then length_of v else None); eauto.
Qed.

End Reads.

(** ** The gates of secureImport *)

Section Gates.
Context {host : Platform}.

(** After the destructuring, [secureImport] runs its gates on the own
    properties of the input. *)
Lemma secureImport_destructure now v :
  is_nullish v = false ->
  secureImport now v
  = try_catch
      (import_gates now (own_property v INTEGRITY_KEY) (own_property v TIMESTAMP_KEY)
         (candidate v))
      import_handler.
Proof.
  intros H. unfold secureImport. rewrite H.
  rewrite !Get_own by (auto; reflexivity). reflexivity.
Qed.

Lemma secureImport_nullish now v :
  is_nullish v = true ->
  secureImport now v
  = Normal (ImportFail (import_prefix ++ TypeError_message (DestructureNullish v))).
Proof. intros H. unfold secureImport. rewrite H. reflexivity. Qed.

Lemma import_gates_falsy_signature now signature timestamp gameData :
  truthy signature = false ->
  import_gates now signature timestamp gameData = Normal (ImportFail reason_not_secure).
Proof. intros H. unfold import_gates. now rewrite H. Qed.

End Gates.

(** ** Foreign input *)

(** C6. An input that is not [null] or [undefined] (an object, in
    particular) and owns no [_sf_integrity] property is refused by
    [secureImport] with the reason "not a secure save format", which is
    not the integrity-mismatch reason. *)
Theorem secureImport_without_signature {host : Platform} (now : Z) (v : value) :
  is_nullish v = false ->
  assoc INTEGRITY_KEY (own_props v) = None ->
  secureImport now v = Normal (ImportFail reason_not_secure)
  /\ secureImport now v <> Normal (ImportFail reason_integrity).
Proof.
  intros Hv Habsent.
  assert (E : secureImport now v = Normal (ImportFail reason_not_secure)).
  { rewrite secureImport_destructure by assumption.
    rewrite import_gates_falsy_signature; [reflexivity|].
    unfold own_property. now rewrite Habsent. }
  split; [exact E|]. rewrite E. discriminate.
Qed.

(** C9. An input whose [_sf_integrity] property is present with a falsy
    value (the empty string, 0, false, null, undefined) is refused with the
    reason "not a secure save format", not with the integrity-mismatch
    reason: presence is tested by the truthiness of the value. *)
Theorem secureImport_falsy_signature {host : Platform} (now : Z) (v signature : value) :
  is_nullish v = false ->
  assoc INTEGRITY_KEY (own_props v) = Some signature ->
  truthy signature = false ->
  secureImport now v = Normal (ImportFail reason_not_secure)
  /\ secureImport now v <> Normal (ImportFail reason_integrity).
Proof.
  intros Hv Hsig Hfalsy.
  assert (E : secureImport now v = Normal (ImportFail reason_not_secure)).
  { rewrite secureImport_destructure by assumption.
    rewrite import_gates_falsy_signature; [reflexivity|].
    unfold own_property. now rewrite Hsig. }
  split; [exact E|]. rewrite E. discriminate.
Qed.

(** ** The reference host against published vectors

    SHA-256 of the empty message and of "abc" (FIPS 180-4), HMAC-SHA-256 of
    RFC 4231 test case 2, base64 of RFC 4648. *)

Lemma sha256_vectors :
  hex_of_bytes (SHA256.sha256 [])
  = js "e3b0c44298fc1c149afbf4c8996fb92427ae41e4649b934ca495991b7852b855"
  /\ hex_of_bytes (SHA256.sha256 (js "abc"))
     = js "ba7816bf8f01cfea414140de5dae2223b00361a396177a9cb410ff61f20015ad".
Proof. split; vm_compute; reflexivity. Qed.

Lemma hmac_vector :
  hex_of_bytes (SHA256.hmac (js "Jefe") (js "what do ya want for nothing?"))
  = js "5bdcc146bf60754e6a042426089575c75a003f089d2739839dec58b964ec3843".
Proof. vm_compute. reflexivity. Qed.

Lemma base64_vectors :
  base64 (js "foobar") = js "Zm9vYmFy" /\ base64 (js "fooba") = js "Zm9vYmE="
  /\ base64 (js "foob") = js "Zm9vYg==".
Proof. repeat split. Qed.

(** ** The reference host on the concrete scenario *)

Lemma reference_export :
  secureExport (host:=Reference.platform) Reference.clock Reference.snapshot
  = Normal (ExportOk Reference.envelope (VNum 1) (VNum 0) (VNum 1)).
Proof. vm_compute. reflexivity. Qed.

Lemma reference_import :
  secureImport (host:=Reference.platform) Reference.clock Reference.envelope
  = Normal (ImportOk Reference.snapshot (js "1762000000000") (VNum 1) true).
Proof. vm_compute. reflexivity. Qed.

(** ** Timestamp gate *)

Section TimestampGate.
Context {host : Platform}.

(** The gate is the only source of the timestamp reason: it is returned
    exactly when the signature is truthy, the timestamp is truthy and out
    of range. *)
Lemma timestamp_reason_iff now signature timestamp gameData :
  try_catch (import_gates now signature timestamp gameData) import_handler
  = Normal (ImportFail reason_timestamp)
  <-> truthy signature = true /\ truthy timestamp = true
      /\ timestamp_out_of_range now timestamp = true.
Proof.
  assert (Later :
    try_catch
      (match validateGameLogic gameData with
            | Invalid reason => Normal (ImportFail (structure_prefix ++ reason))
            | Valid =>
                expectedKey <- generateDynamicKey gameData ;;
                expectedSignature <- generateSignature gameData expectedKey ;;
                if differs_from_string signature expectedSignature
                then Normal (ImportFail reason_integrity)
                else
                  u <- Get gameData (js "unlocked") ;;
                  keys <- Object_keys (or_else u (VObj [])) ;;
                  Normal (ImportOk gameData
                            (Date_toLocaleString (or_else timestamp (VNum now)))
                            (VNum (Z.of_nat (length keys))) true)
            end) import_handler
    <> Normal (ImportFail reason_timestamp)).
  { destruct (validateGameLogic gameData); [|discriminate].
    destruct (generateDynamicKey gameData) as [k|]; [|discriminate].
    cbn [bind]. destruct (generateSignature gameData k) as [s|]; [|discriminate].
    cbn [bind]. destruct (differs_from_string signature s); [discriminate|].
    destruct (Get gameData (js "unlocked")) as [u|]; [|discriminate].
    cbn [bind]. destruct (Object_keys (or_else u (VObj []))); discriminate. }
  unfold import_gates.
  destruct (truthy signature); cbn [negb].
  2: { split; [discriminate | intros [? _]; discriminate]. }
  destruct (truthy timestamp && timestamp_out_of_range now timestamp) eqn:Fired.
  - apply andb_true_iff in Fired as [-> ->]. split; auto.
  - split; [intros H; now apply Later in H|].
    intros (_ & Ht & Ho). rewrite Ht, Ho in Fired. discriminate.
Qed.

Lemma out_of_range_number now t :
  timestamp_out_of_range now (VNum t) = true <-> t < releaseTime \/ now + dayInMs < t.
Proof.
  unfold timestamp_out_of_range, less_than, ToNumber.
  rewrite orb_true_iff, !Z.ltb_lt. reflexivity.
Qed.

End TimestampGate.

(** C3, as the code has it. For an envelope with a truthy signature and a
    numeric timestamp [t], [secureImport] answers with the timestamp reason
    exactly when [t] is not 0 and lies before the release boundary or after
    [now] plus one day. So a timestamp of 0, falsy for the guard
    [if (timestamp)], passes the gate as an absent one does; a timestamp
    equal to the current time passes when the clock is not before the
    release boundary; a timestamp of [now] plus two days is refused. *)
Theorem timestamp_gate_numeric {host : Platform} (now t : Z) (v signature : value) :
  is_nullish v = false ->
  assoc INTEGRITY_KEY (own_props v) = Some signature ->
  truthy signature = true ->
  assoc TIMESTAMP_KEY (own_props v) = Some (VNum t) ->
  (secureImport now v = Normal (ImportFail reason_timestamp)
   <-> t <> 0 /\ (t < releaseTime \/ now + dayInMs < t))
  /\ (t = 0 -> secureImport now v <> Normal (ImportFail reason_timestamp))
  /\ (t = now -> releaseTime <= now ->
      secureImport now v <> Normal (ImportFail reason_timestamp))
  /\ (t = now + 2 * dayInMs -> 0 <= now ->
      secureImport now v = Normal (ImportFail reason_timestamp)).
Proof.
  intros Hv Hsig Htruthy Hts.
  assert (Gate : secureImport now v = Normal (ImportFail reason_timestamp)
                 <-> t <> 0 /\ (t < releaseTime \/ now + dayInMs < t)).
  { rewrite secureImport_destructure by assumption.
    rewrite timestamp_reason_iff. unfold own_property. rewrite Hsig, Hts.
    rewrite out_of_range_number. cbn [truthy].
    rewrite negb_true_iff, Z.eqb_neq. tauto. }
  split; [exact Gate|]. unfold dayInMs in *. repeat split.
  - intros -> H. apply Gate in H. lia.
  - intros -> Hnow H. apply Gate in H. lia.
  - intros -> Hnow. apply Gate. unfold releaseTime. lia.
Qed.

Lemma timestamp_gate_numeric_witness :
  secureImport (host:=Reference.platform) Reference.clock
    (Reference.envelope_with Reference.fire (VNum 1))
  = Normal (ImportFail reason_timestamp).
Proof.
  destruct (timestamp_gate_numeric (host:=Reference.platform) Reference.clock 1
              (Reference.envelope_with Reference.fire (VNum 1))
              (VStr Reference.signature_of_snapshot)
              eq_refl eq_refl eq_refl eq_refl) as [Gate _].
  apply Gate. split; [discriminate | left; reflexivity].
Defined.

(** C3, as stated, fails at timestamp 0: the envelope of the concrete
    scenario with its timestamp replaced by 0 is accepted. *)
Lemma timestamp_zero_is_accepted :
  own_property (Reference.envelope_with Reference.fire (VNum 0)) TIMESTAMP_KEY = VNum 0
  /\ secureImport (host:=Reference.platform) Reference.clock
       (Reference.envelope_with Reference.fire (VNum 0))
     = Normal (ImportOk Reference.snapshot (js "1762000000000") (VNum 1) true).
Proof. split; vm_compute; reflexivity. Qed.

(** ** The structural validator *)

Section Validator.
Context {host : Platform}.

Lemma is_object_not_nullish v : is_object v = true -> is_nullish v = false.
Proof. now destruct v. Qed.

Lemma or_else_object_type u :
  negb (type_tag_eqb (typeof (or_else u (VObj []))) TObject)
  = truthy u && negb (type_tag_eqb (typeof u) TObject).
Proof. unfold or_else. now destruct (truthy u). Qed.

Lemma or_else_array u :
  negb (Array_isArray (or_else u (VArr []))) = truthy u && negb (Array_isArray u).
Proof. unfold or_else. now destruct (truthy u). Qed.

(** The validator as a decision list. *)
Lemma validateGameLogic_cases v :
  validateGameLogic v
  = if negb (is_object v) then Invalid reason_save_format
    else if wrong_unlocked v then Invalid reason_unlocked_format
    else if wrong_history v then Invalid reason_history_format
    else if wrong_missions v then Invalid reason_missions_format
    else Valid.
Proof.
  unfold validateGameLogic.
  destruct (is_object v) eqn:Hobj.
  - assert (Hn := is_object_not_nullish _ Hobj).
    replace (negb (type_tag_eqb (typeof v) TObject)
             || match v with VNull => true | _ => false end) with false
      by (now destruct v).
    rewrite !Get_own by (auto; reflexivity). cbn [bind negb].
    rewrite or_else_object_type, !or_else_array.
    unfold wrong_unlocked, wrong_history, wrong_missions.
    repeat match goal with |- context [if ?b then _ else _] => destruct b end;
      reflexivity.
  - replace (negb (type_tag_eqb (typeof v) TObject)
             || match v with VNull => true | _ => false end) with true
      by (now destruct v).
    reflexivity.
Qed.

End Validator.

(** C5, as the code has it. [validateGameLogic] answers invalid exactly in
    four cases, each with a reason of its own: the input is not an object
    (or is [null]); [unlocked] is truthy and not of type object; [history]
    is truthy and not an array; [missions] is truthy and not an array. It
    answers valid in every other case, so a field that is absent or falsy
    counts as an empty collection; it never answers with the reason of the
    [catch] branch, and the four reasons differ from one another. *)
Theorem validateGameLogic_spec {host : Platform} (v : value) :
  (validateGameLogic v = Valid
   <-> is_object v = true /\ wrong_unlocked v = false
       /\ wrong_history v = false /\ wrong_missions v = false)
  /\ (validateGameLogic v = Invalid reason_save_format <-> is_object v = false)
  /\ (validateGameLogic v = Invalid reason_unlocked_format
      <-> is_object v = true /\ wrong_unlocked v = true)
  /\ (validateGameLogic v = Invalid reason_history_format
      <-> is_object v = true /\ wrong_unlocked v = false /\ wrong_history v = true)
  /\ (validateGameLogic v = Invalid reason_missions_format
      <-> is_object v = true /\ wrong_unlocked v = false
          /\ wrong_history v = false /\ wrong_missions v = true)
  /\ validateGameLogic v <> Invalid reason_parse
  /\ List.NoDup [reason_save_format; reason_unlocked_format; reason_history_format;
                 reason_missions_format].
Proof.
  assert (Hreasons : List.NoDup [reason_save_format; reason_unlocked_format;
                                 reason_history_format; reason_missions_format]).
  { repeat (apply List.NoDup_cons;
            [cbn [In]; intros H; repeat (destruct H as [H|H]; [discriminate H|]);
             exact H|]).
    apply List.NoDup_nil. }
  rewrite validateGameLogic_cases.
  destruct (is_object v), (wrong_unlocked v), (wrong_history v), (wrong_missions v);
    cbn [negb]; repeat split; try exact Hreasons; try discriminate; try tauto;
    try (intros; reflexivity);
    try (intros (? & ?); discriminate);
    try (intros (? & ? & ?); discriminate);
    try (intros (? & ? & ? & ?); discriminate).
Qed.

(** C5, as stated, fails on a field that is present and falsy: [history]
    holding the empty string is present and is not a sequence, and the
    validator accepts the snapshot. *)
Lemma validateGameLogic_accepts_empty_string_history :
  assoc (js "history") (own_props (VObj [(js "history", VStr [])])) = Some (VStr [])
  /\ Array_isArray (VStr []) = false
  /\ validateGameLogic (host:=Reference.platform) (VObj [(js "history", VStr [])]) = Valid.
Proof. repeat split. Qed.

(** ** Export, then import *)

Section RoundTrip.
Context {host : Platform}.

(** What a successful export tells: the snapshot passed the validator, the
    key and the signature were computed, and the envelope is the snapshot's
    properties sealed with them. *)
Lemma secureExport_success now saveData env elements history missions :
  secureExport now saveData = Normal (ExportOk env elements history missions) ->
  exists key signature,
    validateGameLogic saveData = Valid
    /\ generateDynamicKey saveData = Normal key
    /\ generateSignature saveData key = Normal signature
    /\ env = VObj (sealed (own_props saveData) signature now)
    /\ (u <- Get saveData (js "unlocked") ;;
        keys <- Object_keys (or_else u (VObj [])) ;;
        Normal (VNum (Z.of_nat (length keys)))) = Normal elements.
Proof.
  unfold secureExport. intros H.
  destruct (validateGameLogic saveData) eqn:Hvalid; [|discriminate]. cbn [bind] in H.
  destruct (generateDynamicKey saveData) as [key|] eqn:Hkey; [|discriminate].
  cbn [bind] in H.
  destruct (generateSignature saveData key) as [signature|] eqn:Hsig; [|discriminate].
  cbn [bind] in H.
  destruct (Get saveData (js "unlocked")) as [u|] eqn:Hu; [|discriminate].
  cbn [bind] in H.
  destruct (Object_keys (or_else u (VObj []))) as [keys|] eqn:Hkeys; [|discriminate].
  cbn [bind] in H.
  destruct (Get saveData (js "history")) as [h|]; [|discriminate]. cbn [bind] in H.
  destruct (Get (or_else h (VArr [])) (js "length")) as [hl|]; [|discriminate].
  cbn [bind] in H.
  destruct (Get saveData (js "missions")) as [m|]; [|discriminate]. cbn [bind] in H.
  destruct (Get (or_else m (VArr [])) (js "length")) as [ml|]; [|discriminate].
  cbn [bind try_catch] in H. injection H as <- <- <- <-.
  exists key, signature. cbn [bind]. rewrite Hkeys. repeat split; auto.
Qed.

Lemma generateSignature_truthy saveData key signature :
  generateSignature saveData key = Normal signature ->
  truthy (VStr signature) = true.
Proof.
  unfold generateSignature. destruct (sorted_keys saveData) as [ks|]; [|discriminate].
  cbn [bind].
  destruct (subtle_hmac_sign _ _) as [s|] eqn:Hs; [|discriminate].
  cbn [bind]. intros [= <-]. apply base64_length_32. eapply sign_length, Hs.
Qed.

(** The reserved properties of a sealed envelope, and what is left when
    they are taken out. *)
Lemma sealed_integrity ps signature now :
  assoc INTEGRITY_KEY (sealed ps signature now) = Some (VStr signature).
Proof.
  unfold sealed. rewrite !assoc_set_prop_ne by reflexivity.
  apply assoc_set_prop_eq.
Qed.

Lemma sealed_timestamp ps signature now :
  assoc TIMESTAMP_KEY (sealed ps signature now) = Some (VNum now).
Proof.
  unfold sealed. rewrite assoc_set_prop_ne by reflexivity.
  apply assoc_set_prop_eq.
Qed.

Lemma sealed_version ps signature now :
  assoc VERSION_KEY (sealed ps signature now) = Some (VStr (js "1.0")).
Proof. unfold sealed. apply assoc_set_prop_eq. Qed.

Lemma without_keys_sealed ps signature now :
  without_keys reserved_keys (sealed ps signature now) = without_keys reserved_keys ps.
Proof. unfold sealed. now rewrite !without_keys_set_prop by reflexivity. Qed.

Lemma differs_from_itself s : differs_from_string (VStr s) s = false.
Proof. cbn. now rewrite str_eqb_refl. Qed.

(** Importing a sealed envelope: the candidate is the snapshot without its
    reserved properties, and the gates run on it. *)
Lemma secureImport_sealed now' ps signature now :
  secureImport now' (VObj (sealed ps signature now))
  = try_catch
      (import_gates now' (VStr signature) (VNum now)
         (VObj (without_keys reserved_keys ps)))
      import_handler.
Proof.
  rewrite secureImport_destructure by reflexivity.
  unfold own_property, candidate. cbn [own_props].
  now rewrite sealed_integrity, sealed_timestamp, without_keys_sealed.
Qed.

End RoundTrip.

(** Import after export, for a plain object without reserved names. *)
Lemma import_of_export {host : Platform} (t t' : Z)
    (ps : list (jsstring * value)) (env elements history missions : value) :
  no_reserved_key ps ->
  secureExport t (VObj ps) = Normal (ExportOk env elements history missions) ->
  t = 0 \/ releaseTime <= t <= t' + dayInMs ->
  secureImport t' env
  = Normal (ImportOk (VObj ps)
              (Date_toLocaleString (if t =? 0 then VNum t' else VNum t))
              elements true).
Proof.
  intros Hps Hexport Hclock.
  apply secureExport_success in Hexport
    as (key & signature & Hvalid & Hkey & Hsig & -> & Helements).
  cbn [own_props]. rewrite secureImport_sealed, (without_keys_none _ Hps).
  unfold import_gates.
  rewrite (generateSignature_truthy _ _ _ Hsig). cbn [negb].
  replace (truthy (VNum t) && timestamp_out_of_range t' (VNum t)) with false.
  2: { symmetry. apply not_true_iff_false. rewrite andb_true_iff.
       rewrite out_of_range_number. cbn [truthy].
       rewrite negb_true_iff, Z.eqb_neq. lia. }
  rewrite Hvalid, Hkey. cbn [bind]. rewrite Hsig. cbn [bind].
  rewrite differs_from_itself.
  destruct (Get (VObj ps) (js "unlocked")) as [u|]; [|discriminate].
  cbn [bind] in *.
  destruct (Object_keys (or_else u (VObj []))) as [keys|]; [|discriminate].
  cbn [bind try_catch] in *. injection Helements as <-.
  unfold or_else. cbn [truthy]. now destruct (t =? 0).
Qed.

(** C2, as the code has it. Let S be a plain object that owns none of the
    three reserved names and that [secureExport] seals at clock reading [t].
    Importing the envelope at clock reading [t'] succeeds and returns S
    itself, with the count of unlocked entities the export reported,
    provided the export time passes the import's timestamp gate: it is 0,
    or it lies between the release boundary and [t'] plus one day. *)
Theorem export_import_roundtrip {host : Platform} (t t' : Z)
    (ps : list (jsstring * value)) (env elements history missions : value) :
  no_reserved_key ps ->
  secureExport t (VObj ps) = Normal (ExportOk env elements history missions) ->
  t = 0 \/ releaseTime <= t <= t' + dayInMs ->
  exists importTime,
    secureImport t' env = Normal (ImportOk (VObj ps) importTime elements true)
    /\ importTime = Date_toLocaleString (if t =? 0 then VNum t' else VNum t).
Proof.
  intros Hps Hexport Hclock. eexists. split; [|reflexivity].
  eapply import_of_export; eassumption.
Qed.

Lemma export_import_roundtrip_witness :
  secureImport (host:=Reference.platform) Reference.clock Reference.envelope
  = Normal (ImportOk Reference.snapshot (js "1762000000000") (VNum 1) true).
Proof.
  destruct (export_import_roundtrip (host:=Reference.platform)
              Reference.clock Reference.clock
              (own_props Reference.snapshot) Reference.envelope
              (VNum 1) (VNum 0) (VNum 1)) as (importTime & Himport & ->).
  - repeat constructor.
  - vm_compute. reflexivity.
  - right. unfold releaseTime, dayInMs, Reference.clock. lia.
  - exact Himport.
Defined.

(** C2, as stated, fails when the importing clock is behind: the envelope of
    the concrete scenario, untouched, is refused two days before its export
    time. *)
Lemma roundtrip_refused_when_clock_is_behind :
  validateGameLogic (host:=Reference.platform) Reference.snapshot = Valid
  /\ secureExport (host:=Reference.platform) Reference.clock Reference.snapshot
     = Normal (ExportOk Reference.envelope (VNum 1) (VNum 0) (VNum 1))
  /\ secureImport (host:=Reference.platform) (Reference.clock - 2 * dayInMs)
       Reference.envelope
     = Normal (ImportFail reason_timestamp).
Proof. split; [|split]; vm_compute; reflexivity. Qed.

(** Three more ways for a snapshot the validator accepts not to come back:
    an array is sealed as an object; a reserved name of the snapshot is
    signed and then overwritten; a [null] entry of [missions] makes the key
    derivation throw, so there is no envelope. *)
Lemma roundtrip_refuses_array :
  validateGameLogic (host:=Reference.platform) (VArr []) = Valid
  /\ secureExport (host:=Reference.platform) Reference.clock (VArr [])
     = Normal (ExportOk Reference.envelope_of_empty_array (VNum 0) (VNum 0) (VNum 0))
  /\ secureImport (host:=Reference.platform) Reference.clock
       Reference.envelope_of_empty_array
     = Normal (ImportFail reason_integrity).
Proof. split; [|split]; vm_compute; reflexivity. Qed.

Lemma roundtrip_refuses_reserved_name :
  validateGameLogic (host:=Reference.platform) Reference.snapshot_with_reserved_name
  = Valid
  /\ secureExport (host:=Reference.platform) Reference.clock
       Reference.snapshot_with_reserved_name
     = Normal (ExportOk Reference.envelope_with_reserved_name (VNum 0) (VNum 0) (VNum 0))
  /\ secureImport (host:=Reference.platform) Reference.clock
       Reference.envelope_with_reserved_name
     = Normal (ImportFail reason_integrity).
Proof. split; [|split]; vm_compute; reflexivity. Qed.

Lemma export_fails_on_null_mission :
  let S := VObj [(js "missions", VArr [VNull])] in
  validateGameLogic (host:=Reference.platform) S = Valid
  /\ secureExport (host:=Reference.platform) Reference.clock S
     = Normal (ExportFail (js "Cannot read properties of null (reading 'done')")).
Proof. split; vm_compute; reflexivity. Qed.

(** ** Reserved names in the caller's snapshot *)

(** C10. Whatever the caller's snapshot holds under the three reserved
    names, a successful export puts its own signature, the clock reading and
    the literal "1.0" there, and a successful import of that envelope returns
    the snapshot's own properties without the three names: none of them is a
    property of the recovered data. *)
Theorem reserved_fields_do_not_survive {host : Platform} (t : Z)
    (S env elements history missions : value) :
  secureExport t S = Normal (ExportOk env elements history missions) ->
  (exists key signature,
      generateDynamicKey S = Normal key
      /\ generateSignature S key = Normal signature
      /\ own_property env INTEGRITY_KEY = VStr signature)
  /\ own_property env TIMESTAMP_KEY = VNum t
  /\ own_property env VERSION_KEY = VStr (js "1.0")
  /\ forall t' data importTime elements' verified,
       secureImport t' env = Normal (ImportOk data importTime elements' verified) ->
       data = VObj (without_keys reserved_keys (own_props S))
       /\ forall k, In k reserved_keys -> assoc k (own_props data) = None.
Proof.
  intros Hexport.
  apply secureExport_success in Hexport
    as (key & signature & Hvalid & Hkey & Hsig & -> & _).
  unfold own_property. cbn [own_props].
  rewrite sealed_integrity, sealed_timestamp, sealed_version.
  split; [exists key, signature; auto|]. do 2 (split; [reflexivity|]).
  intros t' data importTime elements' verified.
  rewrite secureImport_sealed. unfold import_gates.
  destruct (negb (truthy (VStr signature))); [discriminate|].
  destruct (truthy (VNum t) && timestamp_out_of_range t' (VNum t)); [discriminate|].
  set (gameData := VObj (without_keys reserved_keys (own_props S))).
  destruct (validateGameLogic gameData); [|discriminate].
  destruct (generateDynamicKey gameData) as [k'|]; [|discriminate]. cbn [bind].
  destruct (generateSignature gameData k') as [s'|]; [|discriminate]. cbn [bind].
  destruct (differs_from_string (VStr signature) s'); [discriminate|].
  destruct (Get gameData (js "unlocked")) as [u|]; [|discriminate]. cbn [bind].
  destruct (Object_keys (or_else u (VObj []))); [|discriminate].
  cbn [bind try_catch]. intros [= <- _ _ _]. split; [reflexivity|].
  intros k Hk. cbn [own_props gameData]. apply without_keys_absent.
  apply existsb_exists. exists k. split; [exact Hk | apply str_eqb_refl].
Qed.

Lemma reserved_fields_do_not_survive_witness :
  own_property Reference.snapshot_with_reserved_name VERSION_KEY = VStr (js "0.9")
  /\ own_property Reference.envelope_with_reserved_name VERSION_KEY = VStr (js "1.0").
Proof.
  split; [reflexivity|].
  apply (reserved_fields_do_not_survive (host:=Reference.platform) Reference.clock
           Reference.snapshot_with_reserved_name
           Reference.envelope_with_reserved_name (VNum 0) (VNum 0) (VNum 0)).
  vm_compute. reflexivity.
Defined.

(** A reserved name the signature does not see, its value being
    [undefined]: the export overwrites it, the import succeeds and returns
    the snapshot without it. *)
Lemma reserved_name_is_stripped :
  let S := VObj [(js "unlocked", VObj []); (VERSION_KEY, VUndefined)] in
  secureExport (host:=Reference.platform) Reference.clock S
  = Normal (ExportOk
              (VObj [(js "unlocked", VObj []);
                     (VERSION_KEY, VStr (js "1.0"));
                     (INTEGRITY_KEY,
                      VStr (js "J534/NMJAKwnzTOWZKcxgThlmSDL9N972O0uDMM+ZSo="));
                     (TIMESTAMP_KEY, VNum Reference.clock)])
              (VNum 0) (VNum 0) (VNum 0))
  /\ secureImport (host:=Reference.platform) Reference.clock
       (VObj [(js "unlocked", VObj []);
              (VERSION_KEY, VStr (js "1.0"));
              (INTEGRITY_KEY,
               VStr (js "J534/NMJAKwnzTOWZKcxgThlmSDL9N972O0uDMM+ZSo="));
              (TIMESTAMP_KEY, VNum Reference.clock)])
     = Normal (ImportOk (VObj [(js "unlocked", VObj [])])
                 (js "1762000000000") (VNum 0) true).
Proof. split; vm_compute; reflexivity. Qed.

(** ** No exception crosses the boundary *)

Section Failures.
Context {host : Platform}.

(** A digest or a signing that throws makes the key derivation or the
    signature throw the same error. *)
Lemma digest_failure_reaches_key saveData feats e :
  features saveData = Normal feats ->
  subtle_digest (encode (JSON_stringify feats None)) = Throw e ->
  generateDynamicKey saveData = Throw e.
Proof.
  intros Hfeats Hdigest. unfold generateDynamicKey.
  rewrite Hfeats. cbn [bind]. now rewrite Hdigest.
Qed.

Lemma sign_failure_reaches_signature saveData dynamicKey keys e :
  sorted_keys saveData = Normal keys ->
  subtle_hmac_sign (encode (Some dynamicKey))
    (encode (JSON_stringify saveData (Some keys))) = Throw e ->
  generateSignature saveData dynamicKey = Throw e.
Proof.
  intros Hkeys Hsign. unfold generateSignature.
  rewrite Hkeys. cbn [bind]. now rewrite Hsign.
Qed.

End Failures.

(** C7. For every input and every host, [secureExport] and [secureImport]
    complete normally with one result value. When the key derivation or the
    signing throws on a snapshot the validator accepts, the export answers
    with a failure carrying the message of the error; when it throws on the
    candidate of an import that passed the presence, timestamp and
    structural gates, the import answers with a failure carrying that
    message after its prefix. *)
Theorem export_and_import_never_throw {host : Platform} (now : Z) (v : value) :
  (exists r, secureExport now v = Normal r)
  /\ (exists r, secureImport now v = Normal r)
  /\ (forall e,
       validateGameLogic v = Valid ->
       generateDynamicKey v = Throw e
       \/ (exists key, generateDynamicKey v = Normal key
                       /\ generateSignature v key = Throw e) ->
       secureExport now v = Normal (ExportFail (error_message e)))
  /\ (forall e,
       is_nullish v = false ->
       truthy (own_property v INTEGRITY_KEY) = true ->
       truthy (own_property v TIMESTAMP_KEY)
       && timestamp_out_of_range now (own_property v TIMESTAMP_KEY) = false ->
       validateGameLogic (candidate v) = Valid ->
       generateDynamicKey (candidate v) = Throw e
       \/ (exists key, generateDynamicKey (candidate v) = Normal key
                       /\ generateSignature (candidate v) key = Throw e) ->
       secureImport now v = Normal (ImportFail (import_prefix ++ error_message e))).
Proof.
  repeat split.
  - unfold secureExport, try_catch.
    match goal with |- context [match ?body with _ => _ end] => destruct body end;
      unfold export_handler; eauto.
  - unfold secureImport, try_catch.
    match goal with |- context [match ?body with _ => _ end] => destruct body end;
      unfold import_handler; eauto.
  - intros e Hvalid [Hkey | (key & Hkey & Hsig)]; unfold secureExport;
      rewrite Hvalid, Hkey; cbn [bind]; [|rewrite Hsig]; reflexivity.
  - intros e Hv Hs Ht Hvalid Hthrow.
    rewrite secureImport_destructure by assumption. unfold import_gates.
    rewrite Hs, Ht, Hvalid. cbn [negb].
    destruct Hthrow as [Hkey | (key & Hkey & Hsig)];
      rewrite Hkey; cbn [bind]; [|rewrite Hsig]; reflexivity.
Qed.

(** On a host without WebCrypto the scenario's export and the import of its
    envelope both answer with the TypeError's message. *)
Lemma export_and_import_never_throw_witness :
  secureExport (host:=Unavailable.platform) Reference.clock Reference.snapshot
  = Normal (ExportFail (js "Cannot read properties of undefined (reading 'digest')"))
  /\ secureImport (host:=Unavailable.platform) Reference.clock Reference.envelope
     = Normal (ImportFail
                 (import_prefix
                  ++ js "Cannot read properties of undefined (reading 'digest')")).
Proof.
  split.
  - destruct (export_and_import_never_throw (host:=Unavailable.platform)
                Reference.clock Reference.snapshot) as (_ & _ & Hexport & _).
    apply (Hexport (Unavailable.no_subtle (js "digest"))); [reflexivity|].
    left. reflexivity.
  - destruct (export_and_import_never_throw (host:=Unavailable.platform)
                Reference.clock Reference.envelope) as (_ & _ & _ & Himport).
    apply (Himport (Unavailable.no_subtle (js "digest"))); try reflexivity.
    left. reflexivity.
Defined.

(** ** Witnesses of the foreign-input properties *)

Lemma secureImport_without_signature_witness :
  secureImport (host:=Reference.platform) Reference.clock Reference.snapshot
  = Normal (ImportFail reason_not_secure).
Proof.
  apply (secureImport_without_signature (host:=Reference.platform)
           Reference.clock Reference.snapshot); reflexivity.
Defined.

Lemma secureImport_falsy_signature_witness :
  secureImport (host:=Reference.platform) Reference.clock
    (VObj [(js "unlocked", VObj []); (INTEGRITY_KEY, VStr [])])
  = Normal (ImportFail reason_not_secure).
Proof.
  apply (secureImport_falsy_signature (host:=Reference.platform) Reference.clock
           (VObj [(js "unlocked", VObj []); (INTEGRITY_KEY, VStr [])]) (VStr []));
    reflexivity.
Defined.

(** ** Key derivation *)

Section KeyDerivation.
Context {host : Platform}.

Lemma or_else_not_nullish u d : is_nullish d = false -> is_nullish (or_else u d) = false.
Proof.
  intros Hd. unfold or_else. destruct (truthy u) eqn:E; [|exact Hd].
  destruct u; try discriminate; reflexivity.
Qed.

Lemma filterM_done (l : list value) :
  forallb (fun m => negb (is_nullish m)) l = true ->
  filterM (fun m => d <- Get m (js "done") ;; Normal (truthy d)) l
  = Normal (List.filter is_done l).
Proof.
  induction l as [|m l IH]; cbn [forallb filterM List.filter]; auto.
  intros [Hm Hl]%andb_true_iff. apply negb_true_iff in Hm.
  rewrite Get_own by (auto; reflexivity). cbn [bind].
  rewrite IH by assumption. reflexivity.
Qed.

Lemma mapM_name (l : list value) :
  forallb (fun m => negb (is_nullish m)) l = true ->
  mapM (fun m => Get m (js "name")) l
  = Normal (List.map (fun m => own_property m (js "name")) l).
Proof.
  induction l as [|m l IH]; cbn [forallb mapM List.map]; auto.
  intros [Hm Hl]%andb_true_iff. apply negb_true_iff in Hm.
  rewrite Get_own by (auto; reflexivity). cbn [bind].
  rewrite IH by assumption. reflexivity.
Qed.

Lemma forallb_filter {A : Type} (p q : A -> bool) (l : list A) :
  forallb p l = true -> forallb p (List.filter q l) = true.
Proof.
  induction l as [|x l IH]; cbn [forallb List.filter]; auto.
  intros [Hx Hl]%andb_true_iff. destruct (q x); cbn [forallb]; auto.
  now rewrite Hx, IH.
Qed.

Lemma Array_filter_missions S p :
  negb (truthy (own_property S (js "missions")))
  || Array_isArray (own_property S (js "missions")) = true ->
  Array_filter (or_else (own_property S (js "missions")) (VArr [])) p
  = filterM p (missions_of S).
Proof.
  unfold missions_of, or_else.
  destruct (truthy (own_property S (js "missions"))); cbn [negb orb];
    [|reflexivity].
  destruct (own_property S (js "missions")); try discriminate. reflexivity.
Qed.

(** On a snapshot the derivation is defined on, [features] is the value of
    the fingerprint: none of its reads throws. *)
Lemma features_fingerprint S :
  key_derivable S = true ->
  features S = Normal (fingerprint_value (fingerprint_of S)).
Proof.
  unfold key_derivable. intros [[HS Hm]%andb_true_iff Hl]%andb_true_iff.
  apply negb_true_iff in HS. unfold features.
  rewrite !Get_own by (auto; reflexivity). cbn [bind].
  unfold sorted_keys, Object_keys.
  rewrite or_else_not_nullish by reflexivity. cbn [bind].
  rewrite Array_filter_missions by assumption.
  rewrite filterM_done by assumption. cbn [bind].
  rewrite mapM_name by (now apply forallb_filter). cbn [bind].
  reflexivity.
Qed.

Lemma generateDynamicKey_of_fingerprint S :
  key_derivable S = true ->
  generateDynamicKey S
  = (hashBuffer <- subtle_digest (TextEncoder_encode (canonical (fingerprint_of S))) ;;
     Normal (firstn 32 (base64 hashBuffer))).
Proof.
  intros HS. unfold generateDynamicKey. rewrite features_fingerprint by assumption.
  reflexivity.
Qed.

End KeyDerivation.

(** C4. The key is a function of the fingerprint. Two snapshots the
    derivation is defined on, with the same sorted unlocked names, the same
    sorted names of done missions, the same unlocked count and the same
    schema version (1 when there is none), get the same key, whatever else
    they hold; and the key is the first 32 characters of the base64 text of
    the host's SHA-256 digest, 32 bytes long, of the UTF-8 bytes of the
    fingerprint's canonical serialization. Being a function of the snapshot
    and the host, the derivation gives the same key on every call. *)
Theorem generateDynamicKey_depends_on_fingerprint {host : Platform} (S1 S2 : value) :
  key_derivable S1 = true ->
  key_derivable S2 = true ->
  fingerprint_of S1 = fingerprint_of S2 ->
  generateDynamicKey S1 = generateDynamicKey S2
  /\ generateDynamicKey S1
     = (hashBuffer <- subtle_digest (TextEncoder_encode (canonical (fingerprint_of S1))) ;;
        Normal (firstn 32 (base64 hashBuffer)))
  /\ forall hashBuffer,
       subtle_digest (TextEncoder_encode (canonical (fingerprint_of S1)))
       = Normal hashBuffer ->
       length hashBuffer = 32%nat
       /\ generateDynamicKey S1 = Normal (firstn 32 (base64 hashBuffer)).
Proof.
  intros H1 H2 Hfp.
  rewrite !generateDynamicKey_of_fingerprint by assumption.
  rewrite Hfp. repeat split.
  - eapply digest_length. eassumption.
  - rewrite H. reflexivity.
Qed.

(** Two snapshots that differ in display data only, and their common key. *)
Lemma generateDynamicKey_depends_on_fingerprint_witness :
  generateDynamicKey (host:=Reference.platform) (Reference.snapshot_with Reference.fire)
  = generateDynamicKey (host:=Reference.platform)
      (Reference.snapshot_with Reference.droplet)
  /\ generateDynamicKey (host:=Reference.platform)
       (Reference.snapshot_with Reference.fire)
     = Normal (js "5El8TSTTOpKY3Diqp2Hplp81gKI/cq+F").
Proof.
  destruct (generateDynamicKey_depends_on_fingerprint (host:=Reference.platform)
              (Reference.snapshot_with Reference.fire)
              (Reference.snapshot_with Reference.droplet)
              eq_refl eq_refl eq_refl) as (Hsame & Hkey & _).
  split; [exact Hsame|]. rewrite Hkey. vm_compute. reflexivity.
Defined.

(** ** What the signature covers *)

(** The replacer of [generateSignature] is the sorted list of the top-level
    names. As a property list it also filters every nested object, so the
    entries of [unlocked], of a mission or of a history record are written
    only under names that happen to be top-level names: the text that is
    signed for the scenario's snapshot is
    [{"history":[],"missions":[{}],"unlocked":{},"version":1}]. *)
Lemma normalized_scenario (display : jsstring) :
  JSON_stringify (Reference.snapshot_with display)
    (Some (sort_strings (List.map fst (own_props (Reference.snapshot_with display)))))
  = Some (js "{" ++ quoted "history" ++ js ":[]," ++ quoted "missions" ++ js ":[{}],"
          ++ quoted "unlocked" ++ js ":{}," ++ quoted "version" ++ js ":1}").
Proof. vm_compute. reflexivity. Qed.

Section Coverage.
Context {host : Platform}.

(** Neither the key nor the signature of the scenario's snapshot depends on
    the display data of its unlocked entity. *)
Lemma display_data_is_not_signed (d1 d2 : jsstring) (key : jsstring) :
  generateDynamicKey (Reference.snapshot_with d1)
  = generateDynamicKey (Reference.snapshot_with d2)
  /\ generateSignature (Reference.snapshot_with d1) key
     = generateSignature (Reference.snapshot_with d2) key.
Proof.
  split.
  - rewrite !generateDynamicKey_of_fingerprint by reflexivity. reflexivity.
  - unfold generateSignature.
    change (sorted_keys (Reference.snapshot_with d1))
      with (Normal (sort_strings
                      (List.map fst (own_props (Reference.snapshot_with d1))))).
    change (sorted_keys (Reference.snapshot_with d2))
      with (Normal (sort_strings
                      (List.map fst (own_props (Reference.snapshot_with d2))))).
    cbn [bind]. now rewrite !normalized_scenario.
Qed.

(** Past the structural gate, a recomputed signature that differs from the
    stored one gives the integrity reason. *)
Lemma integrity_reason_when_signature_differs now signature timestamp gameData
    key expected :
  truthy signature = true ->
  truthy timestamp && timestamp_out_of_range now timestamp = false ->
  validateGameLogic gameData = Valid ->
  generateDynamicKey gameData = Normal key ->
  generateSignature gameData key = Normal expected ->
  differs_from_string signature expected = true ->
  import_gates now signature timestamp gameData = Normal (ImportFail reason_integrity).
Proof.
  intros Hs Ht Hvalid Hkey Hsig Hdiff. unfold import_gates.
  rewrite Hs, Ht, Hvalid, Hkey. cbn [negb bind]. rewrite Hsig. cbn [bind].
  now rewrite Hdiff.
Qed.

End Coverage.

(** On every host and for every display data [d]: once the scenario's
    snapshot is exported, the envelope with the value of [unlocked] replaced
    by [{"Fire": [d]}] is accepted, and the modified snapshot comes back. *)
Lemma tampered_display_is_accepted_on_every_host {host : Platform} (t t' : Z)
    (d : jsstring) (env elements history missions : value) :
  secureExport t Reference.snapshot
  = Normal (ExportOk env elements history missions) ->
  t = 0 \/ releaseTime <= t <= t' + dayInMs ->
  secureImport t'
    (VObj (set_prop (js "unlocked") (VObj [(js "Fire", VArr [VStr d])]) (own_props env)))
  = Normal (ImportOk (Reference.snapshot_with d)
              (Date_toLocaleString (if t =? 0 then VNum t' else VNum t))
              (VNum 1) true).
Proof.
  intros Hexport Hclock.
  apply secureExport_success in Hexport
    as (key & signature & _ & Hkey & Hsig & -> & _).
  destruct (display_data_is_not_signed d Reference.fire key) as [Hkey' Hsig'].
  fold Reference.snapshot in Hkey', Hsig'. rewrite Hkey in Hkey'. rewrite Hsig in Hsig'.
  change (VObj (set_prop (js "unlocked") (VObj [(js "Fire", VArr [VStr d])])
                  (own_props (VObj (sealed (own_props Reference.snapshot) signature t)))))
    with (VObj (sealed (own_props (Reference.snapshot_with d)) signature t)).
  apply (import_of_export t t' (own_props (Reference.snapshot_with d)) _
           (VNum 1) (VNum 0) (VNum 1)).
  - repeat constructor.
  - unfold secureExport.
    change (validateGameLogic (VObj (own_props (Reference.snapshot_with d))))
      with Valid.
    change (VObj (own_props (Reference.snapshot_with d)))
      with (Reference.snapshot_with d).
    cbn [bind]. rewrite Hkey'. cbn [bind]. rewrite Hsig'. reflexivity.
  - exact Hclock.
Qed.

(** C1 at a failing input, on the reference host. The envelope exported for
    the scenario's snapshot, with the value of its top-level field [unlocked]
    replaced (the display data of Fire changed from the fire emoji to the
    droplet emoji) and signature and timestamp kept, is accepted by
    [secureImport], which returns the modified snapshot as verified. *)
Theorem tampered_unlocked_is_accepted :
  secureExport (host:=Reference.platform) Reference.clock Reference.snapshot
  = Normal (ExportOk (Reference.envelope_with Reference.fire (VNum Reference.clock))
              (VNum 1) (VNum 0) (VNum 1))
  /\ own_property (Reference.envelope_with Reference.fire (VNum Reference.clock))
       (js "unlocked")
     = VObj [(js "Fire", VArr [VStr Reference.fire])]
  /\ own_property (Reference.envelope_with Reference.droplet (VNum Reference.clock))
       (js "unlocked")
     = VObj [(js "Fire", VArr [VStr Reference.droplet])]
  /\ secureImport (host:=Reference.platform) Reference.clock
       (Reference.envelope_with Reference.droplet (VNum Reference.clock))
     = Normal (ImportOk (Reference.snapshot_with Reference.droplet)
                 (js "1762000000000") (VNum 1) true).
Proof. split; [|split; [|split]]; vm_compute; reflexivity. Qed.

(** A change the signature does cover: the scenario's envelope with
    [version] set to 2 is refused with the integrity reason. *)
Lemma tampered_version_is_refused :
  secureImport (host:=Reference.platform) Reference.clock
    (VObj (set_prop (js "version") (VNum 2) (own_props Reference.envelope)))
  = Normal (ImportFail reason_integrity).
Proof. vm_compute. reflexivity. Qed.

(** ** The store during an import *)

Module StoreFacts.
Import Store.

Section Rules.
Context {host : Platform}.
Variable h0 : heap.

Lemma frames_weaken {A : Type} (m : M A) (Q R : A -> Prop) :
  frames h0 m Q -> (forall a, Q a -> R a) -> frames h0 m R.
Proof. intros Hm HQR h Hh. destruct (Hm h Hh) as [? HQ]. split; auto. Qed.

Lemma frames_anything {A : Type} (m : M A) (Q : A -> Prop) :
  frames h0 m Q -> frames h0 m anything.
Proof. intros Hm. eapply frames_weaken; [exact Hm|]. intros; exact I. Qed.

Lemma frames_ret {A : Type} (a : A) (Q : A -> Prop) : Q a -> frames h0 (ret a) Q.
Proof. intros HQ h Hh. split; [exact Hh|]. cbn. now intros ? [= <-]. Qed.

Lemma frames_throw {A : Type} (e : exn) (Q : A -> Prop) : frames h0 (throw e) Q.
Proof. intros h Hh. split; [exact Hh|]. cbn. discriminate. Qed.

Lemma frames_look {A : Type} (f : heap -> completion A) :
  frames h0 (look f) anything.
Proof. intros h Hh. split; [exact Hh|]. intros; exact I. Qed.

Lemma frames_bind {A B : Type} (m : M A) (k : A -> M B) (Q : A -> Prop) (R : B -> Prop) :
  frames h0 m Q -> (forall a, Q a -> frames h0 (k a) R) -> frames h0 (mbind m k) R.
Proof.
  intros Hm Hk h Hh. unfold mbind. destruct (Hm h Hh) as [Hh' HQ].
  destruct (m h) as [[a|e] h']; cbn in *.
  - apply Hk; auto.
  - split; [exact Hh'|]. discriminate.
Qed.

Lemma frames_catch {A : Type} (body : M A) (handler : exn -> M A) (Q : A -> Prop) :
  frames h0 body Q -> (forall e, frames h0 (handler e) Q) ->
  frames h0 (catch body handler) Q.
Proof.
  intros Hb Hc h Hh. unfold catch. destruct (Hb h Hh) as [Hh' HQ].
  destruct (body h) as [[a|e] h']; cbn in *.
  - split; auto.
  - apply Hc; auto.
Qed.

(** A new cell is outside [h0], and leaves the cells of [h0] alone. *)
Lemma frames_alloc (c : cell) : frames h0 (alloc c) (outside h0).
Proof.
  intros h Hh. unfold alloc. cbn.
  assert (Hfresh : h !! fresh (dom h) = None)
    by (apply not_elem_of_dom, is_fresh).
  split.
  - etrans; [exact Hh|]. now apply insert_subseteq.
  - intros a [= <-]. cbn.
    destruct (h0 !! fresh (dom h)) as [c'|] eqn:E; [|reflexivity].
    eapply lookup_weaken in E; [|exact Hh]. congruence.
Qed.

(** Sorting in place an array that is outside [h0] leaves the cells of
    [h0] alone. *)
Lemma frames_Array_sort (v : hval) :
  outside h0 v -> frames h0 (Array_sort v) (outside h0).
Proof.
  intros Hv h Hh. unfold Array_sort.
  destruct v as [| | | | |l]; cbn; try (split; [exact Hh | discriminate]).
  destruct (h !! l) as [[es|ps]|] eqn:E; cbn; try (split; [exact Hh | discriminate]).
  split.
  - apply map_subseteq_spec. intros i c Hi.
    rewrite lookup_insert_ne.
    + eapply lookup_weaken; eauto.
    + intros ->. cbn in Hv. congruence.
  - now intros a [= <-].
Qed.

Lemma frames_or_else_new (a : hval) (c : cell) :
  outside h0 a -> frames h0 (or_else_new a c) (outside h0).
Proof.
  intros Ha. unfold or_else_new. destruct (truthy a).
  - now apply frames_ret.
  - apply frames_alloc.
Qed.

Lemma frames_or_else_new_anything (a : hval) (c : cell) :
  frames h0 (or_else_new a c) anything.
Proof.
  unfold or_else_new. destruct (truthy a).
  - now apply frames_ret.
  - eapply frames_anything, frames_alloc.
Qed.

Lemma frames_throw_type_error {A : Type} (e : type_error) (Q : A -> Prop) :
  frames h0 (throw_type_error e) Q.
Proof. apply frames_throw. Qed.

Lemma frames_Get (v : hval) (k : jsstring) : frames h0 (Get v k) anything.
Proof.
  unfold Get. destruct (is_nullish v).
  - apply frames_throw_type_error.
  - apply frames_look.
Qed.

Lemma frames_Object_keys (v : hval) : frames h0 (Object_keys v) (outside h0).
Proof.
  unfold Object_keys. destruct (is_nullish v).
  - apply frames_throw_type_error.
  - eapply frames_bind; [apply frames_look|]. intros ps _. apply frames_alloc.
Qed.

Lemma frames_elements (method : jsstring) (v : hval) :
  frames h0 (elements method v) anything.
Proof.
  unfold elements.
  destruct v; try apply frames_throw_type_error. apply frames_look.
Qed.

Lemma frames_filter_each {A : Type} (p : A -> M bool) (l : list A) :
  (forall x, frames h0 (p x) anything) -> frames h0 (filter_each p l) anything.
Proof.
  intros Hp. induction l as [|x l IH]; cbn [filter_each].
  - now apply frames_ret.
  - eapply frames_bind; [apply Hp|]. intros keep _.
    eapply frames_bind; [apply IH|]. intros rest _. now apply frames_ret.
Qed.

Lemma frames_map_each {A B : Type} (f : A -> M B) (l : list A) :
  (forall x, frames h0 (f x) anything) -> frames h0 (map_each f l) anything.
Proof.
  intros Hf. induction l as [|x l IH]; cbn [map_each].
  - now apply frames_ret.
  - eapply frames_bind; [apply Hf|]. intros y _.
    eapply frames_bind; [apply IH|]. intros rest _. now apply frames_ret.
Qed.

Lemma frames_Array_filter (v : hval) (p : hval -> M bool) :
  (forall x, frames h0 (p x) anything) -> frames h0 (Array_filter v p) (outside h0).
Proof.
  intros Hp. unfold Array_filter.
  eapply frames_bind; [apply frames_elements|]. intros es _.
  eapply frames_bind; [now apply frames_filter_each|]. intros kept _.
  apply frames_alloc.
Qed.

Lemma frames_Array_map (v : hval) (f : hval -> M hval) :
  (forall x, frames h0 (f x) anything) -> frames h0 (Array_map v f) (outside h0).
Proof.
  intros Hf. unfold Array_map.
  eapply frames_bind; [apply frames_elements|]. intros es _.
  eapply frames_bind; [now apply frames_map_each|]. intros images _.
  apply frames_alloc.
Qed.

Lemma frames_Array_join (sep : jsstring) (v : hval) :
  frames h0 (Array_join sep v) anything.
Proof.
  unfold Array_join.
  eapply frames_bind; [apply frames_elements|]. intros es _. apply frames_look.
Qed.

Lemma frames_strings_of (v : hval) : frames h0 (strings_of v) anything.
Proof.
  unfold strings_of.
  eapply frames_bind; [apply frames_elements|]. intros es _. apply frames_look.
Qed.

Lemma frames_JSON_stringify (v : hval) (replacer : option (list jsstring)) :
  frames h0 (JSON_stringify v replacer) anything.
Proof. apply frames_look. Qed.

End Rules.

Create HintDb frames.

#[export] Hint Resolve frames_Get frames_Object_keys frames_Array_sort
  frames_Array_join frames_strings_of frames_JSON_stringify frames_look
  frames_alloc frames_or_else_new_anything frames_throw_type_error : frames.

(** One statement of the source at a time: the head of a sequence is framed
    by a rule, the rest goes on with its result. *)
Ltac frame_step :=
  lazymatch goal with
  | |- frames _ (mbind _ _) _ =>
      eapply frames_bind; [solve [eauto with frames] | intros ? ?]
  | |- frames _ (ret _) _ => apply frames_ret; exact I
  | |- frames _ (if ?b then _ else _) _ => destruct b
  | |- frames _ (match ?r with Valid => _ | Invalid _ => _ end) _ => destruct r
  end.

Section OnImport.
Context {host : Platform}.
Variable h0 : heap.

Lemma frames_features (saveData : hval) : frames h0 (features saveData) (outside h0).
Proof.
  unfold features.
  do 6 frame_step.
  eapply frames_bind.
  { apply frames_Array_filter. intros m. repeat frame_step. }
  intros completed _.
  eapply frames_bind.
  { apply frames_Array_map. intros m. apply frames_Get. }
  intros completedNames Hnames.
  do 8 frame_step. apply frames_alloc.
Qed.

Lemma frames_generateDynamicKey (saveData : hval) :
  frames h0 (generateDynamicKey saveData) anything.
Proof.
  unfold generateDynamicKey.
  eapply frames_bind; [apply frames_features|]. intros feats _.
  repeat frame_step.
Qed.

Lemma frames_generateSignature (saveData : hval) (dynamicKey : jsstring) :
  frames h0 (generateSignature saveData dynamicKey) anything.
Proof. unfold generateSignature. repeat frame_step. Qed.

Lemma frames_validateGameLogic (saveData : hval) :
  frames h0 (validateGameLogic saveData) anything.
Proof.
  unfold validateGameLogic. apply frames_catch.
  - repeat frame_step.
  - intros e. now apply frames_ret.
Qed.

Lemma frames_import_gates now (signature timestamp gameData : hval) :
  frames h0 (import_gates now signature timestamp gameData) anything.
Proof.
  unfold import_gates.
  pose proof frames_validateGameLogic. pose proof frames_generateDynamicKey.
  pose proof frames_generateSignature.
  repeat frame_step.
Qed.

Lemma frames_secureImport now (importedData : hval) :
  frames h0 (secureImport now importedData) anything.
Proof.
  unfold secureImport. pose proof frames_import_gates.
  apply frames_catch.
  - eapply frames_bind.
    { instantiate (1 := anything). destruct (is_nullish importedData).
      - apply frames_throw_type_error.
      - now apply frames_ret. }
    intros _ _. repeat frame_step. auto.
  - intros e. now apply frames_ret.
Qed.

End OnImport.

End StoreFacts.

(** ** The input after an import *)

(** C8, as the code has it. In the store model, every cell that exists
    before a call of [secureImport] holds the same object or array after it,
    whatever the input, the clock and the outcome: the call allocates, and
    sorts in place only arrays it allocated itself. The result depends on
    the envelope and on the clock, which is read for the timestamp gate:
    two imports of an envelope with a truthy timestamp give the same result
    whenever their clock readings give the gate the same verdict, as they do
    when the readings are equal. *)
Theorem secureImport_leaves_input_unchanged {host : Platform} (now : Z)
    (importedData : Store.hval) (h : Store.heap) :
  (forall l c, h !! l = Some c ->
     (Store.secureImport now importedData h).2 !! l = Some c)
  /\ (forall (now' : Z) (envelope : value),
        truthy (own_property envelope TIMESTAMP_KEY) = true ->
        timestamp_out_of_range now (own_property envelope TIMESTAMP_KEY)
        = timestamp_out_of_range now' (own_property envelope TIMESTAMP_KEY) ->
        secureImport now envelope = secureImport now' envelope).
Proof.
  split.
  - intros l c Hl.
    destruct (StoreFacts.frames_secureImport h now importedData h) as [Hsub _];
      [reflexivity|].
    eapply lookup_weaken; eauto.
  - intros now' envelope Htruthy Hgate.
    destruct (is_nullish envelope) eqn:Hn.
    { destruct envelope; discriminate. }
    rewrite !secureImport_destructure by assumption.
    unfold import_gates, or_else. now rewrite Hgate, Htruthy.
Qed.

Lemma secureImport_leaves_input_unchanged_witness :
  (Store.secureImport (host:=Reference.platform) Reference.clock (Store.HRef 7)
     scenario_store).2 !! 6%positive
  = Some (Store.CArr [Store.HRef 5]).
Proof.
  apply (proj1 (secureImport_leaves_input_unchanged (host:=Reference.platform)
                  Reference.clock (Store.HRef 7) scenario_store)).
  vm_compute. reflexivity.
Defined.

(** C8, as stated, fails on the clock: the scenario's envelope stamped two
    days ahead is refused now and accepted two days later. *)
Lemma same_envelope_different_results :
  secureImport (host:=Reference.platform) Reference.clock
    (Reference.envelope_with Reference.fire (VNum (Reference.clock + 2 * dayInMs)))
  = Normal (ImportFail reason_timestamp)
  /\ secureImport (host:=Reference.platform) (Reference.clock + 2 * dayInMs)
       (Reference.envelope_with Reference.fire (VNum (Reference.clock + 2 * dayInMs)))
     = Normal (ImportOk Reference.snapshot (js "1762172800000") (VNum 1) true).
Proof. split; vm_compute; reflexivity. Qed.

(** The store model on the scenario: the loaded envelope is accepted as
    in the tree model, the data returned reads back as the snapshot, and the
    envelope reads back as it was. *)
Lemma store_import_scenario :
  match Store.secureImport (host:=Reference.platform) Reference.clock (Store.HRef 7)
          scenario_store with
  | (Normal (Store.ImportOk data importTime count verified), h') =>
      Store.reify 8 h' data = Some Reference.snapshot
      /\ Store.reify 8 h' (Store.HRef 7) = Some Reference.envelope
      /\ (importTime, count, verified) = (js "1762000000000", Store.HNum 1, true)
  | _ => False
  end.
Proof. vm_compute. repeat split. Qed.

(** A store the tree model has no value for: [unlocked] holds an object
    that contains itself under the name [unlocked]. The replacer lets
    [JSON.stringify] follow that name, the cycle makes it throw, and the
    import answers with the message of the error; the two cells are what
    they were. *)
Lemma store_import_cycle :
  let h : Store.heap :=
    {[ 1%positive := Store.CObj [(js "unlocked", Store.HRef 2);
                                 (INTEGRITY_KEY, Store.HStr (js "x"))];
       2%positive := Store.CObj [(js "unlocked", Store.HRef 2)] ]} in
  let run := Store.secureImport (host:=Reference.platform) Reference.clock
               (Store.HRef 1) h in
  run.1 = Normal (Store.ImportFail
                    (import_prefix ++ js "Converting circular structure to JSON"))
  /\ run.2 !! 1%positive = h !! 1%positive
  /\ run.2 !! 2%positive = h !! 2%positive.
Proof. vm_compute. repeat split. Qed.

(** ** When the export succeeds *)

Section ExportSucceeds.
Context {host : Platform}.

Lemma utf8_of_code_point_not_empty p : utf8_of_code_point p <> [].
Proof.
  unfold utf8_of_code_point.
  destruct (p <? 0x80); [discriminate|].
  destruct (p <? 0x800); [discriminate|].
  destruct (p <? 0x10000); discriminate.
Qed.

Lemma TextEncoder_encode_not_empty s : s <> [] -> TextEncoder_encode s <> [].
Proof.
  destruct s as [|c rest]; [congruence|]. intros _. cbn [TextEncoder_encode].
  assert (Happ : forall p tail, utf8_of_code_point p ++ tail <> []).
  { intros p tail H. apply app_eq_nil in H as [H _].
    now apply utf8_of_code_point_not_empty in H. }
  destruct (is_lead c).
  - destruct rest as [|c2 rest']; [apply utf8_of_code_point_not_empty|].
    destruct (is_trail c2); apply Happ.
  - destruct (is_trail c); apply Happ.
Qed.

Lemma key_not_empty (hashBuffer : bytes) :
  length hashBuffer = 32%nat -> firstn 32 (base64 hashBuffer) <> [].
Proof.
  destruct hashBuffer as [|a [|b [|c rest]]]; discriminate.
Qed.

(** On a host whose digest always answers and whose HMAC answers for every
    key that is not empty, the export of a snapshot succeeds as soon as the
    validator accepts it and no entry of [missions] is [null] or
    [undefined]. *)
Lemma secureExport_succeeds (now : Z) (S : value) :
  (forall m, exists h, subtle_digest m = Normal h) ->
  (forall k m, k <> [] -> exists s, subtle_hmac_sign k m = Normal s) ->
  validateGameLogic S = Valid ->
  key_derivable S = true ->
  exists env elements history missions,
    secureExport now S = Normal (ExportOk env elements history missions).
Proof.
  intros Hdigest Hsign Hvalid Hderivable.
  assert (HS : is_nullish S = false).
  { unfold key_derivable in Hderivable.
    apply andb_true_iff in Hderivable as [[H _]%andb_true_iff _].
    now apply negb_true_iff in H. }
  unfold secureExport. rewrite Hvalid. cbn [bind].
  rewrite generateDynamicKey_of_fingerprint by assumption.
  destruct (Hdigest (TextEncoder_encode (canonical (fingerprint_of S))))
    as [hashBuffer HhashBuffer].
  rewrite HhashBuffer. cbn [bind].
  unfold generateSignature, sorted_keys, Object_keys. rewrite HS. cbn [bind].
  match goal with
  | |- context [subtle_hmac_sign ?k ?m] =>
      destruct (Hsign k m) as [signature Hsignature];
      [apply TextEncoder_encode_not_empty, key_not_empty;
       eapply digest_length, HhashBuffer|];
      rewrite Hsignature
  end.
  cbn [bind].
  rewrite !Get_own by (auto; reflexivity). cbn [bind].
  rewrite or_else_not_nullish by reflexivity. cbn [bind].
  destruct (Get_total (or_else (own_property S (js "history")) (VArr [])) (js "length"))
    as [hl ->]; [now apply or_else_not_nullish|].
  cbn [bind].
  destruct (Get_total (or_else (own_property S (js "missions")) (VArr [])) (js "length"))
    as [ml ->]; [now apply or_else_not_nullish|].
  cbn [bind try_catch]. eauto.
Qed.

End ExportSucceeds.

(** On the reference host: a plain object without reserved names that the
    validator accepts and whose missions hold no [null] comes back from an
    export followed by an import, when the clocks agree with the gate. *)
Lemma reference_roundtrip (t t' : Z) (ps : list (jsstring * value)) :
  no_reserved_key ps ->
  validateGameLogic (host:=Reference.platform) (VObj ps) = Valid ->
  key_derivable (VObj ps) = true ->
  t = 0 \/ releaseTime <= t <= t' + dayInMs ->
  exists env elements history missions importTime,
    secureExport (host:=Reference.platform) t (VObj ps)
    = Normal (ExportOk env elements history missions)
    /\ secureImport (host:=Reference.platform) t' env
       = Normal (ImportOk (VObj ps) importTime elements true).
Proof.
  intros Hps Hvalid Hderivable Hclock.
  destruct (secureExport_succeeds (host:=Reference.platform) t (VObj ps))
    as (env & elements & history & missions & Hexport); auto.
  - intros m. eexists. reflexivity.
  - intros [|b k] m Hk; [congruence|]. eexists. reflexivity.
  - exists env, elements, history, missions. eexists. split; [exact Hexport|].
    eapply import_of_export; eassumption.
Qed.

(** For a boolean completion flag, being done is [done = true]. *)
Lemma is_done_boolean_flag (m : value) (b : bool) :
  own_property m (js "done") = VBool b ->
  (is_done m = true <-> own_property m (js "done") = VBool true).
Proof.
  intros Hflag. unfold is_done. rewrite Hflag. cbn [truthy].
  destruct b; split; congruence.
Qed.

(** The store model and the tree model give the same outcome on each of
    the sample inputs, on the reference host. *)
Lemma models_agree_on_samples :
  forallb (agrees (host:=Reference.platform) Reference.clock) samples = true.
Proof. vm_compute. reflexivity. Qed.

(** * Further properties of the code *)

(** ** The order of strings and the default sort *)

Lemma str_ltb_irrefl (a : jsstring) : str_ltb a a = false.
Proof.
  induction a as [|x a IH]; [reflexivity|]. cbn [str_ltb].
  rewrite Z.ltb_irrefl, Z.eqb_refl, IH. reflexivity.
Qed.

Lemma str_ltb_trans (a b c : jsstring) :
  str_ltb a b = true -> str_ltb b c = true -> str_ltb a c = true.
Proof.
  revert b c. induction a as [|x a IH]; intros [|y b] [|z c]; cbn [str_ltb];
    try discriminate; try reflexivity.
  intros H1 H2.
  apply orb_true_iff in H1. apply orb_true_iff in H2. apply orb_true_iff.
  destruct H1 as [H1|H1]; destruct H2 as [H2|H2].
  - left. lia.
  - apply andb_true_iff in H2. left. lia.
  - apply andb_true_iff in H1. left. lia.
  - apply andb_true_iff in H1. apply andb_true_iff in H2.
    destruct H1 as [E1 L1], H2 as [E2 L2]. right. apply andb_true_iff.
    split; [lia|]. exact (IH _ _ L1 L2).
Qed.

Lemma str_ltb_total (a b : jsstring) :
  str_ltb a b = false -> str_ltb b a = false -> a = b.
Proof.
  revert b. induction a as [|x a IH]; intros [|y b]; cbn [str_ltb];
    try discriminate; try reflexivity.
  intros H1 H2.
  apply orb_false_iff in H1. apply orb_false_iff in H2.
  destruct H1 as [L1 E1], H2 as [L2 E2].
  assert (x = y) as -> by lia.
  rewrite Z.eqb_refl in E1, E2. cbn [andb] in E1, E2.
  f_equal. exact (IH _ E1 E2).
Qed.

Lemma str_ltb_asym (a b : jsstring) : str_ltb a b = true -> str_ltb b a = false.
Proof.
  intros H. destruct (str_ltb b a) eqn:E; [|reflexivity].
  pose proof (str_ltb_trans _ _ _ H E) as C. rewrite str_ltb_irrefl in C. discriminate.
Qed.

(** Inserting two strings into a list of strings, in either order. *)
Lemma sort_insert_comm (x y : jsstring) (l : list value) :
  Forall (fun v => exists s, v = VStr s) l ->
  sort_insert (VStr x) (sort_insert (VStr y) l)
  = sort_insert (VStr y) (sort_insert (VStr x) l).
Proof.
  assert (Base : forall r,
             sort_insert (VStr x) r = VStr x :: r ->
             sort_insert (VStr y) r = VStr y :: r ->
             sort_insert (VStr x) (VStr y :: r) = sort_insert (VStr y) (VStr x :: r)).
  { intros r Hx Hy. cbn [sort_insert sort_before ToString].
    destruct (str_ltb y x) eqn:Eyx, (str_ltb x y) eqn:Exy; rewrite ?Hx, ?Hy;
      try reflexivity.
    - rewrite (str_ltb_asym _ _ Eyx) in Exy. discriminate.
    - rewrite (str_ltb_total _ _ Exy Eyx). reflexivity. }
  induction 1 as [|z l [s ->] Hl IH].
  - exact (Base [] eq_refl eq_refl).
  - cbn [sort_insert sort_before ToString].
    destruct (str_ltb s y) eqn:Esy, (str_ltb s x) eqn:Esx;
      cbn [sort_insert sort_before ToString]; rewrite ?Esy, ?Esx.
    + rewrite IH. reflexivity.
    + assert (str_ltb x y = true) as ->; [|reflexivity].
      destruct (str_ltb x y) eqn:Exy; [reflexivity|].
      destruct (str_ltb y x) eqn:Eyx.
      * rewrite (str_ltb_trans _ _ _ Esy Eyx) in Esx. discriminate.
      * rewrite (str_ltb_total _ _ Exy Eyx) in Esx. rewrite Esx in Esy. discriminate.
    + assert (str_ltb y x = true) as ->; [|reflexivity].
      destruct (str_ltb y x) eqn:Eyx; [reflexivity|].
      destruct (str_ltb x y) eqn:Exy.
      * rewrite (str_ltb_trans _ _ _ Esx Exy) in Esy. discriminate.
      * rewrite (str_ltb_total _ _ Exy Eyx) in Esx. rewrite Esx in Esy. discriminate.
    + destruct (str_ltb y x) eqn:Eyx, (str_ltb x y) eqn:Exy; try reflexivity.
      * rewrite (str_ltb_asym _ _ Eyx) in Exy. discriminate.
      * rewrite (str_ltb_total _ _ Exy Eyx). reflexivity.
Qed.

Lemma sort_insert_strings (x : jsstring) (l : list value) :
  Forall (fun v => exists s, v = VStr s) l ->
  Forall (fun v => exists s, v = VStr s) (sort_insert (VStr x) l).
Proof.
  induction 1 as [|z l Hz Hl IH]; cbn [sort_insert].
  - constructor; [eexists; reflexivity|constructor].
  - destruct (sort_before z (VStr x)).
    + constructor; assumption.
    + constructor; [eexists; reflexivity|]. constructor; assumption.
Qed.

Lemma Array_sort_strings (l : list value) :
  Forall (fun v => exists s, v = VStr s) l ->
  Forall (fun v => exists s, v = VStr s) (Array_sort l).
Proof.
  induction 1 as [|z l [s ->] Hl IH]; cbn; [constructor|].
  apply sort_insert_strings. exact IH.
Qed.

(** The default sort of an array of strings does not depend on the order
    the strings come in. *)
Lemma Array_sort_permutation (l l' : list value) :
  Permutation l l' ->
  Forall (fun v => exists s, v = VStr s) l ->
  Array_sort l = Array_sort l'.
Proof.
  induction 1 as [|v l l' P IH|v w l|l l' l'' P1 IH1 P2 IH2]; intros F.
  - reflexivity.
  - inversion F; subst. unfold Array_sort in *. cbn [fold_right].
    rewrite IH by assumption. reflexivity.
  - inversion F as [|? ? [s ->] F']; subst. inversion F' as [|? ? [t ->] F'']; subst.
    unfold Array_sort. cbn [fold_right]. apply sort_insert_comm.
    exact (Array_sort_strings l F'').
  - rewrite IH1 by exact F. apply IH2.
    eapply Permutation_Forall; eassumption.
Qed.

Lemma sort_strings_permutation (l l' : list jsstring) :
  Permutation l l' -> sort_strings l = sort_strings l'.
Proof.
  intros P. unfold sort_strings. f_equal. apply Array_sort_permutation.
  - apply Permutation_map. exact P.
  - apply List.Forall_forall. intros v Hv. apply in_map_iff in Hv.
    destruct Hv as [s [<- _]]. eexists; reflexivity.
Qed.

(** ** Objects that look up the same *)

Lemma assoc_permutation {A : Type} (ps ps' : list (jsstring * A)) :
  Permutation ps ps' -> List.NoDup (List.map fst ps) ->
  forall k, assoc k ps = assoc k ps'.
Proof.
  induction 1 as [|[k0 x0] l l' P IH|[k1 x1] [k2 x2] l|l l' l'' P1 IH1 P2 IH2];
    intros N k.
  - reflexivity.
  - cbn [assoc]. inversion N; subst. rewrite IH by assumption. reflexivity.
  - cbn [assoc]. destruct (str_eqb k2 k) eqn:E2, (str_eqb k1 k) eqn:E1; try reflexivity.
    apply str_eqb_eq in E1, E2. subst. inversion N as [|? ? Hn _]; subst.
    exfalso. apply Hn. left. reflexivity.
  - rewrite IH1 by exact N. apply IH2.
    eapply Permutation_NoDup; [apply Permutation_map; exact P1 | exact N].
Qed.

Lemma assoc_written {A B : Type} (f : A -> B) (ps : list (jsstring * A)) k :
  assoc k (List.map (fun kv => (fst kv, f (snd kv))) ps) = option_map f (assoc k ps).
Proof.
  induction ps as [|[k' x] ps IH]; [reflexivity|]. cbn [List.map assoc fst snd].
  destruct (str_eqb k' k); [reflexivity | exact IH].
Qed.

(** With a property list, an object is written from what its names look
    up to. *)
Lemma Serialize_lookups (K : list jsstring) (ps ps' : list (jsstring * value)) :
  (forall k, assoc k ps = assoc k ps') ->
  SerializeJSONProperty (Some K) (VObj ps) = SerializeJSONProperty (Some K) (VObj ps').
Proof.
  intros H. cbn [SerializeJSONProperty]. do 5 f_equal.
  apply flat_map_ext. intros k. rewrite !assoc_written, H. reflexivity.
Qed.

Section Order.
Context {host : Platform}.

Lemma Get_object ps k : Get (VObj ps) k = Normal (own_property (VObj ps) k).
Proof.
  unfold Get. cbn [is_nullish length_of]. destruct (str_eqb k (js "length")); reflexivity.
Qed.

Lemma own_property_lookups ps ps' :
  (forall k, assoc k ps = assoc k ps') ->
  forall k, own_property (VObj ps) k = own_property (VObj ps') k.
Proof. intros H k. unfold own_property. cbn [own_props]. rewrite H. reflexivity. Qed.

Lemma features_lookups ps ps' :
  (forall k, assoc k ps = assoc k ps') -> features (VObj ps) = features (VObj ps').
Proof.
  intros H. unfold features. rewrite !Get_object.
  rewrite !(own_property_lookups _ _ H). reflexivity.
Qed.

Lemma generateDynamicKey_lookups ps ps' :
  (forall k, assoc k ps = assoc k ps') ->
  generateDynamicKey (VObj ps) = generateDynamicKey (VObj ps').
Proof. intros H. unfold generateDynamicKey. rewrite (features_lookups _ _ H). reflexivity. Qed.

Lemma validateGameLogic_lookups ps ps' :
  (forall k, assoc k ps = assoc k ps') ->
  validateGameLogic (VObj ps) = validateGameLogic (VObj ps').
Proof.
  intros H. rewrite !validateGameLogic_cases.
  unfold is_object, wrong_unlocked, wrong_history, wrong_missions.
  rewrite !(own_property_lookups _ _ H). reflexivity.
Qed.

Lemma generateSignature_permutation ps ps' key :
  List.NoDup (List.map fst ps) -> Permutation ps ps' ->
  generateSignature (VObj ps) key = generateSignature (VObj ps') key.
Proof.
  intros N P. unfold generateSignature, sorted_keys, Object_keys.
  cbn [is_nullish own_props bind].
  rewrite (sort_strings_permutation _ _ (Permutation_map fst P)).
  unfold JSON_stringify. cbn [option_map].
  rewrite (Serialize_lookups _ _ _ (assoc_permutation _ _ P N)). reflexivity.
Qed.

End Order.

(** ** What [secureImport] accepts *)

Lemma assoc_without_keys (ks : list jsstring) (k : jsstring)
    (ps : list (jsstring * value)) :
  existsb (str_eqb k) ks = false -> assoc k (without_keys ks ps) = assoc k ps.
Proof.
  intros H. unfold without_keys. induction ps as [|[k' x] ps IH]; [reflexivity|].
  cbn [List.filter fst assoc]. destruct (str_eqb k' k) eqn:E.
  - apply str_eqb_eq in E. subst k'. rewrite H. cbn [negb assoc].
    rewrite str_eqb_refl. reflexivity.
  - destruct (existsb (str_eqb k') ks); cbn [negb assoc]; rewrite ?E; exact IH.
Qed.

Section Acceptance.
Context {host : Platform}.

(** The unlocked count [secureImport] and [secureExport] report. *)
Lemma unlocked_count_of (g : value) :
  is_nullish g = false ->
  (u <- Get g (js "unlocked") ;;
   keys <- Object_keys (or_else u (VObj [])) ;;
   Normal (VNum (Z.of_nat (length keys))))
  = Normal (VNum (Z.of_nat (length (unlocked_names_of g)))).
Proof.
  intros Hg. rewrite (Get_own g (js "unlocked") Hg eq_refl). cbn [bind].
  unfold Object_keys. rewrite (or_else_not_nullish _ (VObj []) eq_refl). cbn [bind].
  unfold unlocked_names_of. rewrite length_map. reflexivity.
Qed.

Lemma differs_from_string_false (s : value) (expected : jsstring) :
  differs_from_string s expected = false <-> s = VStr expected.
Proof.
  split.
  - destruct s; cbn; try discriminate. intros H. apply negb_false_iff in H.
    apply str_eqb_eq in H. subst. reflexivity.
  - intros ->. apply differs_from_itself.
Qed.

Lemma import_gates_accepts now signature timestamp gameData key expected :
  passes now signature timestamp gameData key expected ->
  import_gates now signature timestamp gameData
  = Normal (ImportOk gameData (Date_toLocaleString (or_else timestamp (VNum now)))
              (VNum (Z.of_nat (length (unlocked_names_of gameData)))) true).
Proof.
  intros (Ht & Hv & Hk & Hs & ->). unfold import_gates.
  rewrite (generateSignature_truthy _ _ _ Hs). cbn [negb]. rewrite Ht, Hv, Hk.
  cbn [bind]. rewrite Hs. cbn [bind]. rewrite differs_from_itself.
  assert (is_nullish gameData = false) as Hg.
  { apply is_object_not_nullish. rewrite validateGameLogic_cases in Hv.
    destruct (is_object gameData); [reflexivity | discriminate]. }
  pose proof (unlocked_count_of gameData Hg) as C.
  destruct (Get gameData (js "unlocked")) as [u|e]; cbn [bind] in *; [|discriminate].
  destruct (Object_keys (or_else u (VObj []))) as [keys|e]; cbn [bind] in *; [|discriminate].
  injection C as C. rewrite C. reflexivity.
Qed.

Lemma import_gates_success now signature timestamp gameData data importTime elements verified :
  import_gates now signature timestamp gameData
  = Normal (ImportOk data importTime elements verified) ->
  exists key expected,
    passes now signature timestamp gameData key expected
    /\ data = gameData
    /\ importTime = Date_toLocaleString (or_else timestamp (VNum now))
    /\ elements = VNum (Z.of_nat (length (unlocked_names_of gameData)))
    /\ verified = true.
Proof.
  unfold import_gates. intros H.
  destruct (truthy signature); cbn [negb] in H; [|discriminate].
  destruct (truthy timestamp && timestamp_out_of_range now timestamp) eqn:Ht; [discriminate|].
  destruct (validateGameLogic gameData) eqn:Hv; [|discriminate].
  destruct (generateDynamicKey gameData) as [key|e] eqn:Hk; cbn [bind] in H; [|discriminate].
  destruct (generateSignature gameData key) as [expected|e] eqn:Hs; cbn [bind] in H;
    [|discriminate].
  destruct (differs_from_string signature expected) eqn:Hd; [discriminate|].
  apply differs_from_string_false in Hd. subst signature.
  exists key, expected.
  assert (passes now (VStr expected) timestamp gameData key expected) as P.
  { repeat split; assumption. }
  pose proof (import_gates_accepts _ _ _ _ _ _ P) as A. unfold import_gates in A.
  rewrite (generateSignature_truthy _ _ _ Hs) in A. cbn [negb] in A.
  rewrite Ht, Hv, Hk in A. cbn [bind] in A. rewrite Hs in A. cbn [bind] in A.
  rewrite differs_from_itself in A. rewrite A in H.
  injection H as <- <- <- <-. repeat split; try assumption; reflexivity.
Qed.

End Acceptance.

Section MoreGates.
Context {host : Platform}.

Lemma try_catch_import_ok (m : completion ImportResult) data importTime elements verified :
  try_catch m import_handler = Normal (ImportOk data importTime elements verified)
  <-> m = Normal (ImportOk data importTime elements verified).
Proof.
  destruct m as [r|e]; cbn [try_catch import_handler]; [reflexivity|].
  split; discriminate.
Qed.

Lemma own_property_candidate (v : value) (k : jsstring) :
  existsb (str_eqb k) reserved_keys = false ->
  own_property (candidate v) k = own_property v k.
Proof.
  intros H. unfold own_property, candidate. cbn [own_props].
  rewrite assoc_without_keys by exact H. reflexivity.
Qed.

Lemma validateGameLogic_candidate (v : value) :
  validateGameLogic (candidate v)
  = if wrong_unlocked v then Invalid reason_unlocked_format
    else if wrong_history v then Invalid reason_history_format
    else if wrong_missions v then Invalid reason_missions_format
    else Valid.
Proof.
  rewrite validateGameLogic_cases.
  unfold wrong_unlocked, wrong_history, wrong_missions.
  rewrite !own_property_candidate by reflexivity. reflexivity.
Qed.

End MoreGates.


(** X2. Structural rejection on import. For an input with a truthy
    signature and a timestamp that passes the gate, a field of the wrong
    type makes [secureImport] fail with the validator's reason after the
    prefix of the structure error, before any signature is computed:
    [unlocked] is reported first, then [history], then [missions]. *)
Theorem secureImport_structure_reasons {host : Platform} (now : Z) (v : value) :
  is_nullish v = false ->
  truthy (own_property v INTEGRITY_KEY) = true ->
  truthy (own_property v TIMESTAMP_KEY)
  && timestamp_out_of_range now (own_property v TIMESTAMP_KEY) = false ->
  (wrong_unlocked v = true ->
   secureImport now v = Normal (ImportFail (structure_prefix ++ reason_unlocked_format)))
  /\ (wrong_unlocked v = false -> wrong_history v = true ->
      secureImport now v = Normal (ImportFail (structure_prefix ++ reason_history_format)))
  /\ (wrong_unlocked v = false -> wrong_history v = false -> wrong_missions v = true ->
      secureImport now v = Normal (ImportFail (structure_prefix ++ reason_missions_format))).
Proof.
  intros Hv Hs Ht. rewrite (secureImport_destructure now v Hv).
  unfold import_gates. rewrite Hs, Ht. cbn [negb]. rewrite validateGameLogic_candidate.
  split; [|split].
  - intros ->. reflexivity.
  - intros -> ->. reflexivity.
  - intros -> -> ->. reflexivity.
Qed.

Lemma secureImport_structure_reasons_witness :
  secureImport (host:=Reference.platform) Reference.clock
    (VObj [(js "history", VStr (js "abc")); (INTEGRITY_KEY, VStr (js "x"))])
  = Normal (ImportFail (structure_prefix ++ reason_history_format)).
Proof.
  apply (proj1 (proj2 (secureImport_structure_reasons (host:=Reference.platform)
                         Reference.clock
                         (VObj [(js "history", VStr (js "abc")); (INTEGRITY_KEY, VStr (js "x"))])
                         eq_refl eq_refl eq_refl)));
    reflexivity.
Defined.

(** X3. Whatever its input, [secureImport] never reports the validator's
    reasons for a save that is not an object or that could not be read: the
    validator only ever sees the object the rest pattern has built. *)
Theorem secureImport_never_reports_save_format {host : Platform} (now : Z) (v : value) :
  secureImport now v <> Normal (ImportFail (structure_prefix ++ reason_save_format))
  /\ secureImport now v <> Normal (ImportFail (structure_prefix ++ reason_parse)).
Proof.
  assert (forall r,
             r = reason_save_format \/ r = reason_parse ->
             secureImport now v <> Normal (ImportFail (structure_prefix ++ r))) as G.
  { intros r Hr. destruct (is_nullish v) eqn:Hv.
    - rewrite (secureImport_nullish now v Hv).
      destruct Hr as [-> | ->]; discriminate.
    - rewrite (secureImport_destructure now v Hv). unfold import_gates.
      destruct (truthy (own_property v INTEGRITY_KEY)); cbn [negb try_catch];
        [|destruct Hr as [-> | ->]; discriminate].
      destruct (truthy (own_property v TIMESTAMP_KEY)
                && timestamp_out_of_range now (own_property v TIMESTAMP_KEY));
        cbn [try_catch]; [destruct Hr as [-> | ->]; discriminate|].
      rewrite validateGameLogic_candidate.
      destruct (wrong_unlocked v); cbn [try_catch];
        [destruct Hr as [-> | ->]; discriminate|].
      destruct (wrong_history v); cbn [try_catch];
        [destruct Hr as [-> | ->]; discriminate|].
      destruct (wrong_missions v); cbn [try_catch];
        [destruct Hr as [-> | ->]; discriminate|].
      destruct (generateDynamicKey (candidate v)) as [key|e]; cbn [bind try_catch import_handler];
        [|destruct Hr as [-> | ->]; discriminate].
      destruct (generateSignature (candidate v) key) as [expected|e];
        cbn [bind try_catch import_handler]; [|destruct Hr as [-> | ->]; discriminate].
      destruct (differs_from_string (own_property v INTEGRITY_KEY) expected);
        cbn [try_catch]; [destruct Hr as [-> | ->]; discriminate|].
      destruct (Get (candidate v) (js "unlocked")) as [u|e]; cbn [bind try_catch import_handler];
        [|destruct Hr as [-> | ->]; discriminate].
      destruct (Object_keys (or_else u (VObj []))) as [keys|e];
        cbn [bind try_catch import_handler]; destruct Hr as [-> | ->]; discriminate. }
  split; apply G; [left | right]; reflexivity.
Qed.

Section Reserved.
Context {host : Platform}.

Lemma secureImport_object now ps :
  secureImport now (VObj ps)
  = try_catch
      (import_gates now (own_property (VObj ps) INTEGRITY_KEY)
         (own_property (VObj ps) TIMESTAMP_KEY) (candidate (VObj ps)))
      import_handler.
Proof. apply secureImport_destructure. reflexivity. Qed.

Lemma own_property_set_prop_ne k k' x ps :
  str_eqb k k' = false ->
  own_property (VObj (set_prop k x ps)) k' = own_property (VObj ps) k'.
Proof.
  intros H. unfold own_property. cbn [own_props].
  rewrite (assoc_set_prop_ne _ _ _ _ H). reflexivity.
Qed.

Lemma own_property_set_prop_eq k x ps :
  own_property (VObj (set_prop k x ps)) k = x.
Proof. unfold own_property. cbn [own_props]. rewrite assoc_set_prop_eq. reflexivity. Qed.

Lemma candidate_set_prop k x ps :
  existsb (str_eqb k) reserved_keys = true ->
  candidate (VObj (set_prop k x ps)) = candidate (VObj ps).
Proof.
  intros H. unfold candidate. cbn [own_props].
  rewrite (without_keys_set_prop _ _ _ _ H). reflexivity.
Qed.

Lemma without_keys_twice ks ks' ps :
  (forall k, existsb (str_eqb k) ks' = true -> existsb (str_eqb k) ks = true) ->
  without_keys ks (without_keys ks' ps) = without_keys ks ps.
Proof.
  intros H. unfold without_keys. induction ps as [|[k x] ps IH]; [reflexivity|].
  cbn [List.filter fst]. destruct (existsb (str_eqb k) ks') eqn:E'.
  - rewrite (H _ E'). cbn [negb]. exact IH.
  - cbn [negb List.filter fst]. rewrite IH. reflexivity.
Qed.

End Reserved.

(** X4. [secureImport] binds [_sf_version] and never reads it: giving the
    field any other value, or removing it, changes nothing in the result. *)
Theorem secureImport_ignores_version_tag {host : Platform} (now : Z)
    (ps : list (jsstring * value)) (x : value) :
  secureImport now (VObj (set_prop VERSION_KEY x ps)) = secureImport now (VObj ps)
  /\ secureImport now (VObj (without_keys [VERSION_KEY] ps)) = secureImport now (VObj ps).
Proof.
  split.
  - rewrite !secureImport_object.
    rewrite !(own_property_set_prop_ne VERSION_KEY) by reflexivity.
    rewrite candidate_set_prop by reflexivity. reflexivity.
  - rewrite !secureImport_object. unfold own_property, candidate. cbn [own_props].
    rewrite !assoc_without_keys by reflexivity.
    rewrite without_keys_twice; [reflexivity|].
    intros k. cbn [existsb reserved_keys]. rewrite !orb_false_r. intros ->.
    rewrite !orb_true_r. reflexivity.
Qed.

(** X5. The timestamp is outside the signature: in an envelope that
    [secureImport] accepts, [_sf_timestamp] can be replaced by any value
    that passes the gate (a falsy one included), and the import still
    succeeds with the same data; only [importTime] follows the new value. *)
Theorem timestamp_is_not_signed {host : Platform} (now : Z)
    (ps : list (jsstring * value)) (t data : value) (importTime : jsstring)
    (elements : value) (verified : bool) :
  secureImport now (VObj ps) = Normal (ImportOk data importTime elements verified) ->
  truthy t && timestamp_out_of_range now t = false ->
  secureImport now (VObj (set_prop TIMESTAMP_KEY t ps))
  = Normal (ImportOk data (Date_toLocaleString (or_else t (VNum now))) elements verified).
Proof.
  intros H Ht. rewrite secureImport_object in *.
  rewrite (own_property_set_prop_ne TIMESTAMP_KEY) by reflexivity.
  rewrite own_property_set_prop_eq.
  rewrite candidate_set_prop by reflexivity.
  apply (proj1 (try_catch_import_ok _ _ _ _ _)) in H.
  apply import_gates_success in H.
  destruct H as (key & expected & (_ & Hv & Hk & Hs & Hsig) & -> & _ & -> & ->).
  rewrite (import_gates_accepts now _ t _ key expected); [reflexivity|].
  repeat split; assumption.
Qed.

Lemma timestamp_is_not_signed_witness :
  secureImport (host:=Reference.platform) Reference.clock
    (VObj (set_prop TIMESTAMP_KEY (VNum (Reference.clock - dayInMs))
             (own_props Reference.envelope)))
  = Normal (ImportOk Reference.snapshot
              (js "1761913600000") (VNum 1) true).
Proof.
  apply (timestamp_is_not_signed (host:=Reference.platform) Reference.clock
           (own_props Reference.envelope) (VNum (Reference.clock - dayInMs))
           Reference.snapshot (js "1762000000000") (VNum 1) true).
  - vm_compute; reflexivity.
  - vm_compute; reflexivity.
Defined.

Section ExportInfo.
Context {host : Platform}.

Lemma array_length_of (S : value) (k : jsstring) :
  is_nullish S = false ->
  str_eqb k (js "length") = false ->
  truthy (own_property S k) && negb (Array_isArray (own_property S k)) = false ->
  (h <- Get S k ;; Get (or_else h (VArr [])) (js "length"))
  = Normal (VNum (Z.of_nat (length (match or_else (own_property S k) (VArr []) with
                                      | VArr l => l
                                      | _ => []
                                      end)))).
Proof.
  intros HS Hk H. rewrite (Get_own S k HS Hk). cbn [bind]. unfold or_else in *.
  destruct (truthy (own_property S k)); [|reflexivity].
  destruct (own_property S k); try discriminate. reflexivity.
Qed.

Lemma secureExport_result now saveData env elements history missions :
  secureExport now saveData = Normal (ExportOk env elements history missions) ->
  validateGameLogic saveData = Valid
  /\ elements = VNum (Z.of_nat (length (unlocked_names_of saveData)))
  /\ history = VNum (Z.of_nat (length (history_of saveData)))
  /\ missions = VNum (Z.of_nat (length (missions_of saveData))).
Proof.
  intros H. unfold secureExport in H.
  destruct (validateGameLogic saveData) eqn:Hv; cbn [bind try_catch export_handler] in H;
    [|discriminate].
  split; [reflexivity|].
  rewrite validateGameLogic_cases in Hv.
  destruct (is_object saveData) eqn:Ho; cbn [negb] in Hv; [|discriminate].
  destruct (wrong_unlocked saveData); [discriminate|].
  destruct (wrong_history saveData) eqn:Hh; [discriminate|].
  destruct (wrong_missions saveData) eqn:Hm; [discriminate|].
  pose proof (is_object_not_nullish _ Ho) as Hn.
  destruct (generateDynamicKey saveData) as [key|e]; cbn [bind try_catch export_handler] in H;
    [|discriminate].
  destruct (generateSignature saveData key) as [signature|e];
    cbn [bind try_catch export_handler] in H; [|discriminate].
  pose proof (unlocked_count_of saveData Hn) as C.
  pose proof (array_length_of saveData (js "history") Hn eq_refl Hh) as CH.
  pose proof (array_length_of saveData (js "missions") Hn eq_refl Hm) as CM.
  rewrite (Get_own saveData (js "unlocked") Hn eq_refl) in *. cbn [bind] in *.
  destruct (Object_keys (or_else (own_property saveData (js "unlocked")) (VObj [])))
    as [keys|e]; cbn [bind] in *; [|discriminate].
  injection C as C.
  rewrite (Get_own saveData (js "history") Hn eq_refl) in *. cbn [bind] in *.
  rewrite CH in H. cbn [bind] in H.
  rewrite (Get_own saveData (js "missions") Hn eq_refl) in *. cbn [bind] in *.
  rewrite CM in H. cbn [bind try_catch] in H.
  injection H as _ <- <- <-. rewrite C. repeat split.
Qed.

End ExportInfo.

(** X6. [secureExport] returns [{success: false, error}] with the
    validator's reason after the prefix of the structure error whenever the
    validator refuses the snapshot, so for every value that is not an
    object; it succeeds only on snapshots the validator accepts. *)
Theorem secureExport_refuses_invalid_structure {host : Platform} (now : Z) (S : value) :
  (forall reason,
      validateGameLogic S = Invalid reason ->
      secureExport now S = Normal (ExportFail (structure_prefix ++ reason)))
  /\ (is_object S = false ->
      secureExport now S = Normal (ExportFail (structure_prefix ++ reason_save_format)))
  /\ (forall env elements history missions,
        secureExport now S = Normal (ExportOk env elements history missions) ->
        validateGameLogic S = Valid).
Proof.
  assert (forall reason,
             validateGameLogic S = Invalid reason ->
             secureExport now S = Normal (ExportFail (structure_prefix ++ reason))) as G.
  { intros reason H. unfold secureExport. rewrite H. reflexivity. }
  split; [exact G|]. split.
  - intros H. apply G. rewrite validateGameLogic_cases, H. reflexivity.
  - intros env elements history missions H.
    exact (proj1 (secureExport_result _ _ _ _ _ _ H)).
Qed.

Lemma secureExport_refuses_invalid_structure_witness :
  secureExport (host:=Reference.platform) Reference.clock (VStr (js "save"))
  = Normal (ExportFail (structure_prefix ++ reason_save_format)).
Proof.
  apply (proj1 (proj2 (secureExport_refuses_invalid_structure
                         (host:=Reference.platform) Reference.clock (VStr (js "save"))))).
  reflexivity.
Defined.

(** X7. The [info] of a successful export counts the snapshot: [elements]
    is the number of names of [unlocked], [history] and [missions] are the
    lengths of the two arrays, each field counting for nothing when it is
    absent or falsy. *)
Theorem secureExport_info_counts {host : Platform} (now : Z)
    (S env elements history missions : value) :
  secureExport now S = Normal (ExportOk env elements history missions) ->
  elements = VNum (Z.of_nat (length (unlocked_names_of S)))
  /\ history = VNum (Z.of_nat (length (history_of S)))
  /\ missions = VNum (Z.of_nat (length (missions_of S))).
Proof. intros H. exact (proj2 (secureExport_result _ _ _ _ _ _ H)). Qed.

Lemma secureExport_info_counts_witness :
  (VNum 1, VNum 0, VNum 1)
  = (VNum (Z.of_nat (length (unlocked_names_of Reference.snapshot))),
     VNum (Z.of_nat (length (history_of Reference.snapshot))),
     VNum (Z.of_nat (length (missions_of Reference.snapshot)))).
Proof.
  destruct (secureExport_info_counts (host:=Reference.platform) Reference.clock
              Reference.snapshot Reference.envelope (VNum 1) (VNum 0) (VNum 1))
    as (-> & -> & ->); [vm_compute; reflexivity | reflexivity].
Defined.

(** ** Inputs that are not objects *)

(** The decimal notation of a natural number starts with a digit. *)
Lemma number_to_string_digit (i : nat) :
  exists c rest, number_to_string (Z.of_nat i) = c :: rest /\ 48 <= c <= 57.
Proof.
  unfold number_to_string.
  assert (forall d, exists c rest,
             js (NilZero.string_of_uint d) = c :: rest /\ 48 <= c <= 57) as U.
  { intros d. destruct d; cbn; eexists; eexists; (split; [reflexivity | lia]). }
  destruct (Z.of_nat i) eqn:E; cbn [Z.to_int NilZero.string_of_int].
  - apply U.
  - apply U.
  - lia.
Qed.

Lemma assoc_indexed_not_a_number {A : Type} (k : jsstring) (l : list A) :
  (forall c rest, k = c :: rest -> ~ 48 <= c <= 57) ->
  assoc k (indexed l) = None.
Proof.
  intros Hk. unfold indexed. generalize 0%nat as start.
  induction l as [|x l IH]; intros start; [reflexivity|].
  cbn [length seq List.map combine assoc].
  destruct (str_eqb (number_to_string (Z.of_nat start)) k) eqn:E; [|apply IH].
  apply str_eqb_eq in E. destruct (number_to_string_digit start) as (c & rest & E' & Hc).
  rewrite E' in E. exfalso. exact (Hk c rest (eq_sym E) Hc).
Qed.

Lemma no_signature_outside_objects (v : value) :
  match v with VObj _ => False | _ => True end ->
  assoc INTEGRITY_KEY (own_props v) = None.
Proof.
  assert (forall c rest, INTEGRITY_KEY = c :: rest -> ~ 48 <= c <= 57) as Hk.
  { intros c rest [= <- _]. lia. }
  destruct v; intros H; try reflexivity; cbn [own_props].
  - apply assoc_indexed_not_a_number. exact Hk.
  - apply assoc_indexed_not_a_number. exact Hk.
  - destruct H.
Qed.

(** X8. An input that is not an object never reaches the gates after the
    first: an array, a string, a number or a boolean has no [_sf_integrity]
    and is refused as not being a secure save, whatever it contains;
    [null] and [undefined] are refused by the [catch], with the message of
    the TypeError the destructuring throws. *)
Theorem secureImport_refuses_non_objects {host : Platform} (now : Z) (v : value) :
  match v with VObj _ => False | _ => True end ->
  secureImport now v
  = Normal (ImportFail
              (if is_nullish v
               then import_prefix ++ TypeError_message (DestructureNullish v)
               else reason_not_secure)).
Proof.
  intros H. destruct (is_nullish v) eqn:Hv.
  - apply secureImport_nullish. exact Hv.
  - rewrite (secureImport_destructure now v Hv).
    unfold own_property at 1. rewrite (no_signature_outside_objects v H).
    reflexivity.
Qed.

Lemma secureImport_refuses_non_objects_witness :
  secureImport (host:=Reference.platform) Reference.clock
    (VArr [VStr (js "_sf_integrity"); VNum 7])
  = Normal (ImportFail reason_not_secure).
Proof.
  exact (secureImport_refuses_non_objects (host:=Reference.platform) Reference.clock
           (VArr [VStr (js "_sf_integrity"); VNum 7]) I).
Defined.

(** ** Order of properties *)

Lemma filter_permutation {A : Type} (f : A -> bool) (l l' : list A) :
  Permutation l l' -> Permutation (List.filter f l) (List.filter f l').
Proof.
  induction 1 as [|x l l' P IH|x y l|l l' l'' P1 IH1 P2 IH2]; cbn [List.filter].
  - constructor.
  - destruct (f x); [constructor|]; exact IH.
  - destruct (f x), (f y); try reflexivity. constructor.
  - etransitivity; eassumption.
Qed.

Lemma without_keys_NoDup ks ps :
  List.NoDup (List.map fst ps) -> List.NoDup (List.map fst (without_keys ks ps)).
Proof.
  unfold without_keys. induction ps as [|[k x] ps IH]; intros N; [exact N|].
  cbn [List.map fst] in N. inversion N as [|? ? Hn N']; subst.
  cbn [List.filter fst]. destruct (negb (existsb (str_eqb k) ks)); [|exact (IH N')].
  cbn [List.map fst]. constructor; [|exact (IH N')].
  intros Hin. apply Hn. apply in_map_iff in Hin. destruct Hin as [kv [E Hin]].
  apply filter_In in Hin. apply in_map_iff. exists kv. split; [exact E | apply Hin].
Qed.

(** X9. The sorted key list normalizes the order of the top-level
    properties: two objects with the same properties in different orders
    get the same derived key and the same signature. *)
Theorem signature_ignores_property_order {host : Platform}
    (ps ps' : list (jsstring * value)) (key : jsstring) :
  List.NoDup (List.map fst ps) ->
  Permutation ps ps' ->
  generateDynamicKey (VObj ps) = generateDynamicKey (VObj ps')
  /\ generateSignature (VObj ps) key = generateSignature (VObj ps') key.
Proof.
  intros N P. split.
  - apply generateDynamicKey_lookups. exact (assoc_permutation _ _ P N).
  - apply generateSignature_permutation; assumption.
Qed.

Lemma signature_ignores_property_order_witness :
  generateSignature (host:=Reference.platform)
    (VObj [(js "version", VNum 1); (js "unlocked", VObj [])]) (js "k")
  = generateSignature (host:=Reference.platform)
      (VObj [(js "unlocked", VObj []); (js "version", VNum 1)]) (js "k").
Proof.
  apply (proj2 (signature_ignores_property_order (host:=Reference.platform)
                  [(js "version", VNum 1); (js "unlocked", VObj [])]
                  [(js "unlocked", VObj []); (js "version", VNum 1)] (js "k")
                  ltac:(repeat constructor; cbn; intuition discriminate)
                  ltac:(constructor))).
Defined.

(** X10. An envelope that [secureImport] accepts is still accepted when
    its properties come in another order, and the data returned hold the
    same properties in the new order. *)
Theorem reordered_envelope_is_accepted {host : Platform} (now : Z)
    (ps ps' : list (jsstring * value)) (data : value) (importTime : jsstring)
    (elements : value) (verified : bool) :
  List.NoDup (List.map fst ps) ->
  Permutation ps ps' ->
  secureImport now (VObj ps) = Normal (ImportOk data importTime elements verified) ->
  secureImport now (VObj ps')
  = Normal (ImportOk (candidate (VObj ps')) importTime elements verified)
  /\ Permutation (own_props data) (own_props (candidate (VObj ps'))).
Proof.
  intros N P H. rewrite secureImport_object in *.
  apply (proj1 (try_catch_import_ok _ _ _ _ _)) in H.
  apply import_gates_success in H.
  destruct H as (key & expected & (Ht & Hv & Hk & Hs & Hsig) & -> & -> & -> & ->).
  pose proof (assoc_permutation _ _ P N) as L.
  assert (Permutation (without_keys reserved_keys ps) (without_keys reserved_keys ps')) as PC.
  { apply filter_permutation. exact P. }
  pose proof (without_keys_NoDup reserved_keys ps N) as NC.
  pose proof (assoc_permutation _ _ PC NC) as LC.
  rewrite <- !(own_property_lookups _ _ L).
  split; [|exact PC].
  rewrite (import_gates_accepts now _ _ (candidate (VObj ps')) key expected).
  - unfold unlocked_names_of, candidate. cbn [own_props].
    rewrite <- (own_property_lookups _ _ LC). reflexivity.
  - unfold candidate in *. cbn [own_props] in *. repeat split.
    + exact Ht.
    + rewrite <- (validateGameLogic_lookups _ _ LC). exact Hv.
    + rewrite <- (generateDynamicKey_lookups _ _ LC). exact Hk.
    + rewrite <- (generateSignature_permutation _ _ _ NC PC). exact Hs.
    + exact Hsig.
Qed.

Lemma reordered_envelope_is_accepted_witness :
  secureImport (host:=Reference.platform) Reference.clock
    (VObj (rev (own_props Reference.envelope)))
  = Normal (ImportOk (candidate (VObj (rev (own_props Reference.envelope))))
              (js "1762000000000") (VNum 1) true).
Proof.
  apply (proj1 (reordered_envelope_is_accepted (host:=Reference.platform) Reference.clock
                  (own_props Reference.envelope) (rev (own_props Reference.envelope))
                  Reference.snapshot (js "1762000000000") (VNum 1) true
                  ltac:(repeat constructor; cbn; intuition discriminate)
                  (Permutation_rev _)
                  ltac:(vm_compute; reflexivity))).
Defined.

(** ** Order of the unlocked entries and of the missions *)

Lemma fingerprint_permutation (S S' : value) (us us' : list (jsstring * value))
    (ms ms' : list value) :
  own_property S (js "unlocked") = VObj us ->
  own_property S' (js "unlocked") = VObj us' ->
  own_property S (js "missions") = VArr ms ->
  own_property S' (js "missions") = VArr ms' ->
  own_property S (js "version") = own_property S' (js "version") ->
  Permutation us us' ->
  Permutation ms ms' ->
  Forall (fun m => is_done m = true -> exists s, own_property m (js "name") = VStr s) ms ->
  fingerprint_of S = fingerprint_of S'.
Proof.
  intros Hu Hu' Hm Hm' Hv Pu Pm Hs. unfold fingerprint_of.
  unfold unlocked_names_of, missions_of. rewrite Hu, Hu', Hm, Hm', Hv.
  cbn [or_else truthy own_props].
  f_equal.
  - apply sort_strings_permutation. apply Permutation_map. exact Pu.
  - apply Array_sort_permutation.
    + apply Permutation_map. apply filter_permutation. exact Pm.
    + apply List.Forall_forall. intros x Hx. apply in_map_iff in Hx.
      destruct Hx as [m [<- Hin]]. apply filter_In in Hin. destruct Hin as [Hin Hd].
      rewrite List.Forall_forall in Hs. exact (Hs m Hin Hd).
  - rewrite !length_map. rewrite (Permutation_length Pu). reflexivity.
Qed.

Lemma key_derivable_missions (S : value) (ms : list value) :
  is_nullish S = false ->
  own_property S (js "missions") = VArr ms ->
  Forall (fun m => is_nullish m = false) ms ->
  key_derivable S = true.
Proof.
  intros HS Hm Hn. unfold key_derivable, missions_of. rewrite HS, Hm.
  cbn [negb truthy Array_isArray orb andb or_else].
  apply forallb_forall. intros m Hin. rewrite List.Forall_forall in Hn.
  rewrite (Hn m Hin). reflexivity.
Qed.

(** X11. The derived key does not depend on the order of the entries of
    [unlocked] nor on the order of the missions, when the missions that are
    done are named by strings: two snapshots with the same [version], whose
    [unlocked] objects and [missions] arrays are permutations of each
    other, get the same key. *)
Theorem key_ignores_order_of_entries {host : Platform} (S S' : value)
    (us us' : list (jsstring * value)) (ms ms' : list value) :
  is_nullish S = false ->
  is_nullish S' = false ->
  own_property S (js "unlocked") = VObj us ->
  own_property S' (js "unlocked") = VObj us' ->
  own_property S (js "missions") = VArr ms ->
  own_property S' (js "missions") = VArr ms' ->
  own_property S (js "version") = own_property S' (js "version") ->
  Permutation us us' ->
  Permutation ms ms' ->
  Forall (fun m => is_nullish m = false) ms ->
  Forall (fun m => is_done m = true -> exists s, own_property m (js "name") = VStr s) ms ->
  generateDynamicKey S = generateDynamicKey S'.
Proof.
  intros HS HS' Hu Hu' Hm Hm' Hv Pu Pm Hn Hs.
  rewrite (generateDynamicKey_of_fingerprint S (key_derivable_missions S ms HS Hm Hn)).
  rewrite (generateDynamicKey_of_fingerprint S').
  - rewrite (fingerprint_permutation S S' us us' ms ms'); try assumption. reflexivity.
  - apply (key_derivable_missions S' ms' HS' Hm').
    eapply Permutation_Forall; eassumption.
Qed.

Lemma key_ignores_order_of_entries_witness :
  generateDynamicKey (host:=Reference.platform)
    (VObj [(js "unlocked", VObj [(js "Fire", VNum 1); (js "Water", VNum 2)]);
           (js "missions", VArr [Reference.mission (js "Fire") Reference.fire true;
                                 Reference.mission (js "Water") Reference.droplet true])])
  = generateDynamicKey (host:=Reference.platform)
      (VObj [(js "missions", VArr [Reference.mission (js "Water") Reference.droplet true;
                                   Reference.mission (js "Fire") Reference.fire true]);
             (js "unlocked", VObj [(js "Water", VNum 2); (js "Fire", VNum 1)])]).
Proof.
  apply (key_ignores_order_of_entries (host:=Reference.platform) _ _
           [(js "Fire", VNum 1); (js "Water", VNum 2)]
           [(js "Water", VNum 2); (js "Fire", VNum 1)]
           [Reference.mission (js "Fire") Reference.fire true;
            Reference.mission (js "Water") Reference.droplet true]
           [Reference.mission (js "Water") Reference.droplet true;
            Reference.mission (js "Fire") Reference.fire true]);
    try reflexivity; try (apply perm_swap).
  - repeat constructor.
  - repeat constructor; intros _; eexists; reflexivity.
Defined.

(** ** The version in the key *)

Section Version.
Context {host : Platform}.

(** The key is derived from three reads of the snapshot. *)
Lemma features_three_fields ps ps' :
  own_property (VObj ps) (js "unlocked") = own_property (VObj ps') (js "unlocked") ->
  own_property (VObj ps) (js "missions") = own_property (VObj ps') (js "missions") ->
  or_else (own_property (VObj ps) (js "version")) (VNum 1)
  = or_else (own_property (VObj ps') (js "version")) (VNum 1) ->
  features (VObj ps) = features (VObj ps').
Proof.
  intros Hu Hm Hv. unfold features. rewrite !Get_object. cbn [bind].
  rewrite Hu, Hm.
  destruct (sorted_keys _) as [names|e]; cbn [bind]; [|reflexivity].
  destruct (Array_filter _ _) as [completed|e]; cbn [bind]; [|reflexivity].
  destruct (mapM _ completed) as [completedNames|e]; cbn [bind]; [|reflexivity].
  destruct (Object_keys _) as [keys|e]; cbn [bind]; [|reflexivity].
  rewrite Hv. reflexivity.
Qed.

End Version.

(** X23. In the key, a version that is missing or falsy counts as
    version 1: giving [version] any falsy value ([0], [null], [false], the
    empty string), or adding [version: 1] to a snapshot that has none,
    leaves the derived key as it is. *)
Theorem key_defaults_the_version {host : Platform} (ps : list (jsstring * value))
    (v : value) :
  truthy v = false ->
  generateDynamicKey (VObj (set_prop (js "version") v ps))
  = generateDynamicKey (VObj (set_prop (js "version") (VNum 1) ps))
  /\ (assoc (js "version") ps = None ->
      generateDynamicKey (VObj ps)
      = generateDynamicKey (VObj (set_prop (js "version") (VNum 1) ps))).
Proof.
  intros Hv. split.
  - unfold generateDynamicKey. rewrite (features_three_fields _ (set_prop (js "version") (VNum 1) ps)).
    + reflexivity.
    + rewrite !(own_property_set_prop_ne (js "version")) by reflexivity. reflexivity.
    + rewrite !(own_property_set_prop_ne (js "version")) by reflexivity. reflexivity.
    + rewrite !own_property_set_prop_eq. unfold or_else. rewrite Hv. reflexivity.
  - intros Hn. unfold generateDynamicKey.
    rewrite (features_three_fields ps (set_prop (js "version") (VNum 1) ps)).
    + reflexivity.
    + rewrite (own_property_set_prop_ne (js "version")) by reflexivity. reflexivity.
    + rewrite (own_property_set_prop_ne (js "version")) by reflexivity. reflexivity.
    + rewrite own_property_set_prop_eq. unfold own_property. cbn [own_props].
      rewrite Hn. reflexivity.
Qed.

Lemma key_defaults_the_version_witness :
  generateDynamicKey (host:=Reference.platform)
    (VObj [(js "unlocked", VObj []); (js "version", VNum 0)])
  = generateDynamicKey (host:=Reference.platform)
      (VObj [(js "unlocked", VObj []); (js "version", VNum 1)]).
Proof.
  exact (proj1 (key_defaults_the_version (host:=Reference.platform)
                  [(js "unlocked", VObj []); (js "version", VNum 7)] (VNum 0) eq_refl)).
Defined.

(** ** Lengths of the key and of the signature *)

Lemma base64_length (bs : bytes) :
  length (base64 bs) = (4 * ((length bs + 2) / 3))%nat.
Proof.
  assert (forall n (l : bytes), (length l <= n)%nat ->
             length (base64 l) = (4 * ((length l + 2) / 3))%nat) as G.
  { induction n as [|n IH]; intros l Hl.
    - destruct l; [reflexivity | cbn in Hl; lia].
    - destruct l as [|a [|b [|c rest]]]; try reflexivity.
      cbn [base64 length app]. rewrite IH by (cbn [length] in Hl; lia).
      replace (S (S (S (length rest))) + 2)%nat with (1 * 3 + (length rest + 2))%nat by lia.
      rewrite Nat.div_add_l by lia. lia. }
  exact (G (length bs) bs (le_n _)).
Qed.

(** X12. A derived key has exactly 32 code units, and a signature has
    exactly 44, the last one the padding [=]. *)
Theorem key_and_signature_lengths {host : Platform} (S : value) :
  (forall key, generateDynamicKey S = Normal key -> length key = 32%nat)
  /\ (forall dynamicKey signature,
        generateSignature S dynamicKey = Normal signature ->
        length signature = 44%nat /\ nth 43 signature 0 = 61).
Proof.
  split.
  - intros key H. unfold generateDynamicKey in H.
    destruct (features S) as [feats|e]; cbn [bind] in H; [|discriminate].
    destruct (subtle_digest (encode (JSON_stringify feats None))) as [h|e] eqn:Hd;
      cbn [bind] in H; [|discriminate].
    injection H as <-. rewrite length_firstn, base64_length, (digest_length _ _ Hd).
    reflexivity.
  - intros dynamicKey signature H. unfold generateSignature in H.
    destruct (sorted_keys S) as [keys|e]; cbn [bind] in H; [|discriminate].
    destruct (subtle_hmac_sign (encode (Some dynamicKey))
                (encode (JSON_stringify S (Some keys)))) as [s|e] eqn:Hs;
      cbn [bind] in H; [|discriminate].
    injection H as <-. pose proof (sign_length _ _ _ Hs) as L.
    split; [rewrite base64_length, L; reflexivity|].
    do 32 (destruct s as [|? s]; [discriminate L|]).
    destruct s; [reflexivity | discriminate L].
Qed.

Lemma key_and_signature_lengths_witness :
  length (js "5El8TSTTOpKY3Diqp2Hplp81gKI/cq+F") = 32%nat.
Proof.
  apply (proj1 (key_and_signature_lengths (host:=Reference.platform)
                  (Reference.snapshot_with Reference.fire))).
  vm_compute; reflexivity.
Defined.

(** ** What the signature covers *)

Lemma value_induction (P : value -> Prop) :
  P VUndefined -> P VNull -> (forall b, P (VBool b)) -> (forall n, P (VNum n)) ->
  (forall s, P (VStr s)) ->
  (forall l, Forall P l -> P (VArr l)) ->
  (forall ps, Forall (fun kv => P (snd kv)) ps -> P (VObj ps)) ->
  forall v, P v.
Proof.
  intros HU HN HB HZ HS HA HO. fix IH 1. intros [ | | b | n | s | l | ps].
  - exact HU.
  - exact HN.
  - apply HB.
  - apply HZ.
  - apply HS.
  - apply HA.
    exact ((fix go (l : list value) : Forall P l :=
              match l with
              | [] => @List.Forall_nil _ P
              | x :: r => @List.Forall_cons _ P x r (IH x) (go r)
              end) l).
  - apply HO.
    exact ((fix go (ps : list (jsstring * value)) : Forall (fun kv => P (snd kv)) ps :=
              match ps with
              | [] => @List.Forall_nil _ (fun kv => P (snd kv))
              | kv :: r => @List.Forall_cons _ (fun kv => P (snd kv)) kv r (IH (snd kv)) (go r)
              end) ps).
Qed.

Lemma assoc_In {A : Type} (k : jsstring) (ps : list (jsstring * A)) (x : A) :
  assoc k ps = Some x -> In (k, x) ps.
Proof.
  induction ps as [|[k' y] ps IH]; cbn [assoc]; [discriminate|].
  destruct (str_eqb k' k) eqn:E.
  - intros [= ->]. apply str_eqb_eq in E. subst. left. reflexivity.
  - intros H. right. exact (IH H).
Qed.

Lemma flat_map_ext_on {A B : Type} (f g : A -> list B) (l : list A) :
  (forall a, In a l -> f a = g a) -> flat_map f l = flat_map g l.
Proof.
  induction l as [|a l IH]; intros H; [reflexivity|]. cbn [flat_map].
  rewrite (H a (or_introl eq_refl)), IH; [reflexivity|].
  intros b Hb. apply H. right. exact Hb.
Qed.

Lemma map_related {A B : Type} (R : A -> A -> Prop) (f : A -> B) (l l' : list A) :
  Forall2 R l l' -> Forall (fun x => forall y, R x y -> f x = f y) l ->
  List.map f l = List.map f l'.
Proof.
  induction 1 as [|x y l l' Hxy F IH]; intros H; [reflexivity|].
  inversion H as [|? ? Hx Hl]; subst. cbn [List.map].
  rewrite (Hx y Hxy), (IH Hl). reflexivity.
Qed.

(** With the property list [K'], two values that are alike for a larger
    list are written the same. *)
Lemma Serialize_alike (K K' : list jsstring) :
  incl K' K ->
  forall v v', alike K v v' ->
  SerializeJSONProperty (Some K') v = SerializeJSONProperty (Some K') v'.
Proof.
  intros Hincl v. induction v as [ | | b | n | s | l IH | ps IH] using value_induction;
    intros v' H.
  1-5: inversion H; subst; reflexivity.
  - inversion H as [ | l0 l' F | ]; subst; [reflexivity|].
    cbn [SerializeJSONProperty]. do 4 f_equal.
    apply (map_related _ _ _ _ F).
    eapply List.Forall_impl; [|exact IH]. cbn beta. intros x Hx y Hxy.
    rewrite (Hx y Hxy). reflexivity.
  - inversion H as [ | | ps0 ps' N Sm]; subst; [reflexivity|].
    cbn [SerializeJSONProperty]. do 5 f_equal.
    apply flat_map_ext_on. intros k Hk. rewrite !assoc_written.
    pose proof (N k (Hincl k Hk)) as Nk.
    destruct (assoc k ps) as [x|] eqn:Ex, (assoc k ps') as [y|] eqn:Ey; cbn [option_map].
    + rewrite List.Forall_forall in IH.
      pose proof (IH (k, x) (assoc_In _ _ _ Ex) y (Sm k x y (Hincl k Hk) Ex Ey)) as E.
      cbn [snd] in E. rewrite E. reflexivity.
    + destruct Nk as [_ Nk]. discriminate (Nk eq_refl).
    + destruct Nk as [Nk _]. discriminate (Nk eq_refl).
    + reflexivity.
Qed.

Lemma In_sort_insert (x y : value) (l : list value) :
  In x (sort_insert y l) -> x = y \/ In x l.
Proof.
  induction l as [|z l IH]; cbn [sort_insert].
  - intros [<-|[]]. left. reflexivity.
  - destruct (sort_before z y).
    + intros [<-|H]; [right; left; reflexivity|].
      destruct (IH H) as [->|H']; [left; reflexivity | right; right; exact H'].
    + intros [<-|H]; [left; reflexivity | right; exact H].
Qed.

Lemma In_Array_sort (x : value) (l : list value) : In x (Array_sort l) -> In x l.
Proof.
  induction l as [|y l IH]; [intros []|]. unfold Array_sort. cbn [fold_right].
  intros H. destruct (In_sort_insert _ _ _ H) as [->|H']; [left; reflexivity|].
  right. exact (IH H').
Qed.

Lemma In_sort_strings (k : jsstring) (l : list jsstring) : In k (sort_strings l) -> In k l.
Proof.
  unfold sort_strings. intros H. apply in_map_iff in H. destruct H as [v [<- H]].
  apply In_Array_sort in H. apply in_map_iff in H. destruct H as [s [<- H]]. exact H.
Qed.

Lemma In_property_list (k : jsstring) (seen l : list jsstring) :
  In k (property_list seen l) -> In k l.
Proof.
  revert seen. induction l as [|x l IH]; intros seen; cbn [property_list]; [intros []|].
  destruct (existsb (str_eqb x) seen).
  - intros H. right. exact (IH _ H).
  - intros [<-|H]; [left; reflexivity | right; exact (IH _ H)].
Qed.

Section Covered.
Context {host : Platform}.

Lemma generateSignature_alike ps ps' key :
  List.map fst ps = List.map fst ps' ->
  alike (List.map fst ps) (VObj ps) (VObj ps') ->
  generateSignature (VObj ps) key = generateSignature (VObj ps') key.
Proof.
  intros Hk Ha. unfold generateSignature, sorted_keys, Object_keys.
  cbn [is_nullish own_props bind]. rewrite <- Hk.
  unfold JSON_stringify. cbn [option_map].
  rewrite (Serialize_alike (List.map fst ps)
             (property_list [] (sort_strings (List.map fst ps)))) with (v' := VObj ps');
    [reflexivity | | exact Ha].
  intros k H. apply In_property_list in H. apply In_sort_strings in H. exact H.
Qed.

End Covered.

(** X13. With the top-level names as its property list, the signed text
    holds of a nested object only the properties whose names are also
    top-level names: two snapshots with the same top-level names that are
    alike for these names get the same signature, whatever else their
    nested objects hold. *)
Theorem signature_covers_top_level_names_only {host : Platform}
    (ps ps' : list (jsstring * value)) (key : jsstring) :
  List.map fst ps = List.map fst ps' ->
  alike (List.map fst ps) (VObj ps) (VObj ps') ->
  generateSignature (VObj ps) key = generateSignature (VObj ps') key.
Proof. apply generateSignature_alike. Qed.

Lemma alike_scenario (d1 d2 : jsstring) :
  alike (List.map fst (own_props (Reference.snapshot_with d1)))
    (Reference.snapshot_with d1) (Reference.snapshot_with d2).
Proof.
  apply alike_obj.
  - intros k Hk. cbn in Hk.
    destruct Hk as [<-|[<-|[<-|[<-|[]]]]]; split; discriminate.
  - intros k x y Hk. cbn in Hk.
    destruct Hk as [<-|[<-|[<-|[<-|[]]]]]; intros [= <-] [= <-]; try apply alike_same.
    apply alike_obj.
    + intros k Hk. cbn in Hk.
      destruct Hk as [<-|[<-|[<-|[<-|[]]]]]; split; reflexivity.
    + intros k x y Hk. cbn in Hk.
      destruct Hk as [<-|[<-|[<-|[<-|[]]]]]; discriminate.
Qed.

Lemma signature_covers_top_level_names_only_witness :
  generateSignature (host:=Reference.platform)
    (Reference.snapshot_with Reference.fire) (js "k")
  = generateSignature (host:=Reference.platform)
      (Reference.snapshot_with Reference.droplet) (js "k").
Proof.
  exact (signature_covers_top_level_names_only (host:=Reference.platform)
           (own_props (Reference.snapshot_with Reference.fire))
           (own_props (Reference.snapshot_with Reference.droplet)) (js "k")
           eq_refl (alike_scenario Reference.fire Reference.droplet)).
Defined.

(** X14. What the integrity check lets through. Take an envelope that
    [secureImport] accepts and change, at any depth, properties whose names
    are not top-level names of the save, keeping the signature, the
    timestamp and the fingerprint of the key: when the validator accepts
    the result, [secureImport] accepts the changed envelope too and returns
    the changed data. *)
Theorem nested_changes_pass_the_integrity_check {host : Platform} (now : Z)
    (ps ps' : list (jsstring * value)) (data : value) (importTime : jsstring)
    (elements : value) (verified : bool) :
  secureImport now (VObj ps) = Normal (ImportOk data importTime elements verified) ->
  own_property (VObj ps') INTEGRITY_KEY = own_property (VObj ps) INTEGRITY_KEY ->
  own_property (VObj ps') TIMESTAMP_KEY = own_property (VObj ps) TIMESTAMP_KEY ->
  List.map fst (own_props (candidate (VObj ps)))
  = List.map fst (own_props (candidate (VObj ps'))) ->
  alike (List.map fst (own_props (candidate (VObj ps))))
    (candidate (VObj ps)) (candidate (VObj ps')) ->
  validateGameLogic (candidate (VObj ps')) = Valid ->
  key_derivable (candidate (VObj ps)) = true ->
  key_derivable (candidate (VObj ps')) = true ->
  fingerprint_of (candidate (VObj ps)) = fingerprint_of (candidate (VObj ps')) ->
  secureImport now (VObj ps')
  = Normal (ImportOk (candidate (VObj ps')) importTime elements verified).
Proof.
  intros H Hsig Hts Hnames Ha Hv' Hd Hd' Hfp. rewrite secureImport_object in *.
  apply (proj1 (try_catch_import_ok _ _ _ _ _)) in H.
  apply import_gates_success in H.
  destruct H as (key & expected & (Ht & Hv & Hk & Hs & Hsg) & -> & -> & -> & ->).
  rewrite Hsig, Hts.
  rewrite (import_gates_accepts now _ _ (candidate (VObj ps')) key expected).
  - pose proof (f_equal unlocked_count Hfp) as C. cbn [unlocked_count fingerprint_of] in C.
    rewrite C. reflexivity.
  - repeat split; try assumption.
    + rewrite generateDynamicKey_of_fingerprint in * by assumption.
      rewrite <- Hfp. exact Hk.
    + unfold candidate in *. cbn [own_props] in *.
      rewrite <- (generateSignature_alike _ _ key Hnames Ha). exact Hs.
Qed.

Lemma nested_changes_pass_the_integrity_check_witness :
  secureImport (host:=Reference.platform) Reference.clock
    (Reference.envelope_with Reference.droplet (VNum Reference.clock))
  = Normal (ImportOk (Reference.snapshot_with Reference.droplet)
              (js "1762000000000") (VNum 1) true).
Proof.
  apply (nested_changes_pass_the_integrity_check (host:=Reference.platform)
           Reference.clock
           (own_props Reference.envelope)
           (own_props (Reference.envelope_with Reference.droplet (VNum Reference.clock)))
           Reference.snapshot (js "1762000000000") (VNum 1) true).
  - vm_compute; reflexivity.
  - reflexivity.
  - reflexivity.
  - reflexivity.
  - exact (alike_scenario Reference.fire Reference.droplet).
  - vm_compute; reflexivity.
  - reflexivity.
  - reflexivity.
  - reflexivity.
Defined.

(** ** Runs on the store *)

Module SealingFacts.
Import Store StoreFacts Sealing.

Section Runs.
Context {host : Platform}.

Lemma frames_run {A : Type} (h0 h h' : heap) (m : M A) (Q : A -> Prop) (a : A) :
  frames h0 m Q -> h0 ⊆ h -> m h = (Normal a, h') -> h0 ⊆ h' /\ Q a.
Proof.
  intros F Hh E. destruct (F h Hh) as [S1 S2]. rewrite E in S1, S2.
  split; [exact S1 | apply S2; reflexivity].
Qed.

Lemma mbind_normal {A B : Type} (m : M A) (k : A -> M B) (h h' : heap) (b : B) :
  mbind m k h = (Normal b, h') ->
  exists a h1, m h = (Normal a, h1) /\ k a h1 = (Normal b, h').
Proof.
  unfold mbind. destruct (m h) as [[a|e] h1]; [|discriminate].
  intros E. exists a, h1. split; [reflexivity | exact E].
Qed.

Lemma catch_normal {A : Type} (body : M A) (handler : exn -> M A) (h : heap) :
  catch body handler h
  = match body h with
    | (Normal a, h') => (Normal a, h')
    | (Throw e, h') => handler e h'
    end.
Proof. reflexivity. Qed.

Lemma own_props_weaken (h h' : heap) (v : hval) :
  allocated h v -> h ⊆ h' -> own_props h' v = own_props h v.
Proof.
  intros Ha Hs. destruct v as [| | | | |l]; try reflexivity. cbn in Ha.
  unfold own_props, cell_at. destruct (h !! l) as [c|] eqn:E; [|congruence].
  rewrite (lookup_weaken _ _ _ _ E Hs). reflexivity.
Qed.

Lemma frames_import_gates_data (h0 : heap) now (signature timestamp gameData : hval) :
  frames h0 (import_gates now signature timestamp gameData) (imported_data_is gameData).
Proof.
  unfold import_gates.
  pose proof (frames_validateGameLogic h0). pose proof (frames_generateDynamicKey h0).
  pose proof (frames_generateSignature h0).
  repeat first [frame_step | apply frames_ret; reflexivity].
Qed.

Lemma Get_own_run (v : hval) (k : jsstring) (h : heap) :
  is_nullish v = false -> str_eqb k (js "length") = false ->
  Get v k h = (Normal (own_property h v k), h).
Proof. intros Hv Hk. unfold Get, look. rewrite Hv, Hk. reflexivity. Qed.

Lemma alloc_run (c : cell) (h : heap) :
  alloc c h = (Normal (HRef (fresh (dom h))), <[fresh (dom h) := c]> h)
  /\ h !! fresh (dom h) = None.
Proof. split; [reflexivity|]. apply not_elem_of_dom, is_fresh. Qed.

End Runs.


Section Frames.
Context {host : Platform}.
Variable h0 : heap.

Lemma frames_secureExport now (saveData : hval) :
  frames h0 (secureExport now saveData) anything.
Proof.
  unfold secureExport.
  pose proof (frames_validateGameLogic h0). pose proof (frames_generateDynamicKey h0).
  pose proof (frames_generateSignature h0).
  apply frames_catch.
  - eapply frames_bind; [apply frames_validateGameLogic|]. intros logicCheck _.
    apply frames_bind with (Q := anything).
    { destruct logicCheck; [apply frames_ret; exact I | apply frames_throw]. }
    intros _ _. repeat frame_step.
  - intros e. now apply frames_ret.
Qed.

End Frames.

Section Allocation.
Context {host : Platform}.

Lemma secureExport_allocates now (saveData : hval) (h h' : heap)
    (data elements history missions : hval) :
  allocated h saveData ->
  secureExport now saveData h
  = (Normal (ExportOk data elements history missions), h') ->
  exists l signature,
    data = HRef l
    /\ h !! l = None
    /\ h' !! l = Some (CObj (sealed (own_props h saveData) signature now)).
Proof.
  intros Ha H.
  unfold secureExport in H. rewrite catch_normal in H.
  match type of H with
  | match ?b with _ => _ end = _ => destruct b as [[r|e] h1] eqn:B; [|discriminate H]
  end.
  injection H as -> ->.
  apply mbind_normal in B. destruct B as (logicCheck & h1 & E & B).
  destruct (frames_run _ _ _ _ _ _
              (frames_validateGameLogic h saveData) (reflexivity _) E)
    as [S1 _]. clear E.
  apply mbind_normal in B. destruct B as (u & h1' & E & B).
  destruct logicCheck; [|discriminate E]. injection E as _ <-.
  apply mbind_normal in B. destruct B as (dynamicKey & h2 & E & B).
  destruct (frames_run _ _ _ _ _ _
              (frames_generateDynamicKey h saveData) S1 E) as [S2 _]. clear E.
  apply mbind_normal in B. destruct B as (signature & h3 & E & B).
  destruct (frames_run _ _ _ _ _ _
              (frames_generateSignature h saveData dynamicKey) S2 E)
    as [S3 _]. clear E.
  apply mbind_normal in B. destruct B as (ps & h3' & E & B).
  injection E as <- <-.
  apply mbind_normal in B. destruct B as (secureData & h4 & E & B).
  match type of E with
  | alloc ?c _ = _ => destruct (alloc_run c h3) as [A Hfresh]
  end.
  rewrite A in E. injection E as <- <-.
  match type of B with
  | ?m _ = _ =>
      assert (frames (<[fresh (dom h3) := CObj
                                (sealed (own_props h3 saveData) signature now)]> h3)
                m (exported_data_is (HRef (fresh (dom h3))))) as F
  end.
  { cbv beta. repeat first [frame_step | apply frames_ret; reflexivity]. }
  destruct (frames_run _ _ _ _ _ _ F (reflexivity _) B) as [Hsub Hdata].
  cbn in Hdata. subst data.
  exists (fresh (dom h3)), signature. split; [reflexivity|]. split.
  + destruct (h !! fresh (dom h3)) as [c|] eqn:Ec; [|reflexivity].
    rewrite (lookup_weaken _ _ _ _ Ec S3) in Hfresh. discriminate.
  + rewrite <- (own_props_weaken h h3 saveData Ha S3).
    eapply lookup_weaken; [|exact Hsub]. apply lookup_insert_eq.
Qed.

End Allocation.

End SealingFacts.

(** ** New objects in the store *)

(** X15. The data of a successful import is an object the call has
    allocated: its location was free before the call, and it holds the own
    properties of the input, in their order, without the three reserved
    names. The values are those of the input, so a nested object is shared
    with the input, not copied. *)
Theorem secureImport_returns_a_new_object {host : Platform} (now : Z)
    (importedData : Store.hval) (h h' : Store.heap) (data : Store.hval)
    (importTime : jsstring) (count : Store.hval) (verified : bool) :
  Store.secureImport now importedData h
  = (Normal (Store.ImportOk data importTime count verified), h') ->
  exists l,
    data = Store.HRef l
    /\ h !! l = None
    /\ h' !! l
       = Some (Store.CObj
                 (List.filter (fun kv => negb (existsb (str_eqb (fst kv)) reserved_keys))
                    (Store.own_props h importedData))).
Proof.
  intros H. unfold Store.secureImport in H. rewrite SealingFacts.catch_normal in H.
  match type of H with
  | match ?b with _ => _ end = _ => destruct b as [[r|e] h1] eqn:B; [|discriminate H]
  end.
  injection H as -> ->.
  destruct (Store.is_nullish importedData) eqn:Hn.
  { discriminate B. }
  apply SealingFacts.mbind_normal in B. destruct B as (u & h2 & E & B).
  injection E as _ <-.
  do 3 (apply SealingFacts.mbind_normal in B; destruct B as (? & ? & E & B);
        rewrite (SealingFacts.Get_own_run importedData) in E; [|exact Hn|reflexivity];
        injection E as <- <-).
  apply SealingFacts.mbind_normal in B. destruct B as (rest & h3 & E & B).
  injection E as <- <-.
  apply SealingFacts.mbind_normal in B. destruct B as (gameData & h4 & E & B).
  match type of E with
  | Store.alloc ?c _ = _ => destruct (SealingFacts.alloc_run c h) as [A Hfresh]
  end.
  rewrite A in E. injection E as <- <-.
  destruct (SealingFacts.frames_run _ _ _ _ _ _
              (SealingFacts.frames_import_gates_data _ now _ _ _)
              (reflexivity _) B) as [Hsub Hdata].
  cbn in Hdata. subst data.
  exists (fresh (dom h)). split; [reflexivity|]. split; [exact Hfresh|].
  eapply lookup_weaken; [|exact Hsub]. apply lookup_insert_eq.
Qed.

Lemma secureImport_returns_a_new_object_witness :
  exists l,
    Store.HRef 8 = Store.HRef l
    /\ scenario_store !! l = None
    /\ (Store.secureImport (host:=Reference.platform) Reference.clock (Store.HRef 7)
          scenario_store).2 !! l
       = Some (Store.CObj
                 (List.filter (fun kv => negb (existsb (str_eqb (fst kv)) reserved_keys))
                    (Store.own_props scenario_store (Store.HRef 7)))).
Proof.
  apply (secureImport_returns_a_new_object (host:=Reference.platform) Reference.clock
           (Store.HRef 7) scenario_store
           (Store.secureImport (host:=Reference.platform) Reference.clock (Store.HRef 7)
              scenario_store).2
           (Store.HRef 8) (js "1762000000000") (Store.HNum 1) true).
  vm_compute. reflexivity.
Defined.


(** X16. [secureExport] changes no cell that exists before the call,
    whatever its outcome. When it succeeds on a snapshot the store holds,
    the envelope is an object the call has allocated, and it holds the own
    properties of the snapshot followed by the three reserved names: the
    values of the snapshot are shared, not copied. *)
Theorem secureExport_returns_a_new_object {host : Platform} (now : Z)
    (saveData : Store.hval) (h : Store.heap) :
  (forall l c, h !! l = Some c ->
     (Sealing.secureExport now saveData h).2 !! l = Some c)
  /\ (Sealing.allocated h saveData ->
      forall h' data elements history missions,
        Sealing.secureExport now saveData h
        = (Normal (Sealing.ExportOk data elements history missions), h') ->
        exists l signature,
          data = Store.HRef l
          /\ h !! l = None
          /\ h' !! l
             = Some (Store.CObj (Sealing.sealed (Store.own_props h saveData) signature now))).
Proof.
  split.
  - intros l c Hl.
    destruct (SealingFacts.frames_secureExport h now saveData h) as [Hsub _]; [reflexivity|].
    eapply lookup_weaken; eauto.
  - intros Ha h' data elements history missions H.
    exact (SealingFacts.secureExport_allocates now saveData h h' data elements history
             missions Ha H).
Qed.

Lemma secureExport_returns_a_new_object_witness :
  exists l signature,
    Store.HRef 15 = Store.HRef l
    /\ snapshot_store !! l = None
    /\ (Sealing.secureExport (host:=Reference.platform) Reference.clock (Store.HRef 7)
          snapshot_store).2 !! l
       = Some (Store.CObj
                 (Sealing.sealed (Store.own_props snapshot_store (Store.HRef 7))
                    signature Reference.clock)).
Proof.
  apply (proj2 (secureExport_returns_a_new_object (host:=Reference.platform)
                  Reference.clock (Store.HRef 7) snapshot_store)
           ltac:(vm_compute; discriminate)
           (Sealing.secureExport (host:=Reference.platform) Reference.clock (Store.HRef 7)
              snapshot_store).2
           (Store.HRef 15) (Store.HNum 1) (Store.HNum 0) (Store.HNum 1)).
  vm_compute. reflexivity.
Defined.

(** On the samples, [secureExport] on the store and on trees agree. *)
Lemma export_models_agree_on_samples :
  forallb (export_agrees (host:=Reference.platform) Reference.clock) export_samples = true.
Proof. vm_compute. reflexivity. Qed.

(** X17. Validation, key derivation and signing leave every cell of the
    store as it was: the arrays they sort in place are arrays they have
    allocated themselves. *)
Theorem derivation_leaves_the_store_unchanged {host : Platform}
    (saveData : Store.hval) (dynamicKey : jsstring) (h : Store.heap)
    (l : positive) (c : Store.cell) :
  h !! l = Some c ->
  (Store.validateGameLogic saveData h).2 !! l = Some c
  /\ (Store.generateDynamicKey saveData h).2 !! l = Some c
  /\ (Store.generateSignature saveData dynamicKey h).2 !! l = Some c.
Proof.
  intros Hl. split; [|split].
  - destruct (StoreFacts.frames_validateGameLogic h saveData h) as [Hsub _];
      [reflexivity|]. eapply lookup_weaken; eauto.
  - destruct (StoreFacts.frames_generateDynamicKey h saveData h) as [Hsub _];
      [reflexivity|]. eapply lookup_weaken; eauto.
  - destruct (StoreFacts.frames_generateSignature h saveData dynamicKey h) as [Hsub _];
      [reflexivity|]. eapply lookup_weaken; eauto.
Qed.

Lemma derivation_leaves_the_store_unchanged_witness :
  (Store.generateDynamicKey (host:=Reference.platform) (Store.HRef 7) snapshot_store).2
    !! 6%positive
  = Some (Store.CArr [Store.HRef 5]).
Proof.
  apply (proj1 (proj2 (derivation_leaves_the_store_unchanged (host:=Reference.platform)
                         (Store.HRef 7) [] snapshot_store 6%positive
                         (Store.CArr [Store.HRef 5]) ltac:(vm_compute; reflexivity)))).
Defined.

(** ** The pair key *)

Lemma normPair_cases (a b : value) :
  normPair a b
  = if sort_before b a
    then (if is_nullish b then [] else ToString b) ++ js "+"
         ++ (if is_nullish a then [] else ToString a)
    else (if is_nullish a then [] else ToString a) ++ js "+"
         ++ (if is_nullish b then [] else ToString b).
Proof.
  unfold normPair, Array_sort, Array_join. cbn [fold_right sort_insert].
  destruct (sort_before b a); reflexivity.
Qed.

Lemma normPair_strings (a b : jsstring) :
  normPair (VStr a) (VStr b)
  = if str_ltb b a then b ++ js "+" ++ a else a ++ js "+" ++ b.
Proof. rewrite normPair_cases. reflexivity. Qed.

(** X18. The pair key does not depend on the order of the two names:
    [normPair(a, b)] is [normPair(b, a)] for all values but [null]. *)
Theorem normPair_symmetric (a b : value) :
  a <> VNull -> b <> VNull -> normPair a b = normPair b a.
Proof.
  intros Ha Hb. rewrite !normPair_cases.
  destruct (sort_before b a) eqn:Eba, (sort_before a b) eqn:Eab; try reflexivity.
  - exfalso. destruct a, b; cbn [sort_before] in Eba, Eab; try discriminate;
      rewrite (str_ltb_asym _ _ Eba) in Eab; discriminate.
  - assert (a = VUndefined /\ b = VUndefined
            \/ (is_nullish a = false /\ is_nullish b = false
                /\ ToString a = ToString b)) as [[-> ->] | (Na & Nb & E)].
    { destruct a, b; try contradiction; cbn [sort_before] in Eba, Eab;
        try discriminate; try (left; split; reflexivity);
        right; (split; [reflexivity|split; [reflexivity|]]);
        exact (str_ltb_total _ _ Eab Eba). }
    + reflexivity.
    + rewrite Na, Nb, E. reflexivity.
Qed.

Lemma normPair_symmetric_witness :
  normPair (VStr (js "Water")) (VStr (js "Fire"))
  = normPair (VStr (js "Fire")) (VStr (js "Water")).
Proof.
  apply normPair_symmetric; discriminate.
Defined.

Lemma split_at_plus (x x' y y' : jsstring) :
  ~ In 43 x -> ~ In 43 x' ->
  x ++ js "+" ++ y = x' ++ js "+" ++ y' -> x = x' /\ y = y'.
Proof.
  revert x'. induction x as [|c x IH]; intros [|c' x'] Hx Hx'; cbn.
  - intros [= ->]. split; reflexivity.
  - intros [= <- _]. exfalso. apply Hx'. left. reflexivity.
  - intros [= -> _]. exfalso. apply Hx. left. reflexivity.
  - intros [= -> E]. destruct (IH x') as [-> ->].
    + intros H. apply Hx. right. exact H.
    + intros H. apply Hx'. right. exact H.
    + exact E.
    + split; reflexivity.
Qed.

(** X19. For names without the separator [+], the pair key identifies the
    unordered pair: two pairs of names with the same key are the same
    pair. *)
Theorem normPair_identifies_the_pair (a b c d : jsstring) :
  ~ In 43 a -> ~ In 43 b -> ~ In 43 c -> ~ In 43 d ->
  normPair (VStr a) (VStr b) = normPair (VStr c) (VStr d) ->
  (a = c /\ b = d) \/ (a = d /\ b = c).
Proof.
  intros Ha Hb Hc Hd. rewrite !normPair_strings.
  destruct (str_ltb b a), (str_ltb d c); intros E;
    apply split_at_plus in E; try assumption; destruct E as [-> ->]; auto.
Qed.

Lemma normPair_identifies_the_pair_witness :
  (js "Water" = js "Fire" /\ js "Fire" = js "Water")
  \/ (js "Water" = js "Water" /\ js "Fire" = js "Fire").
Proof.
  apply (normPair_identifies_the_pair (js "Water") (js "Fire") (js "Fire") (js "Water"));
    [cbn; intuition discriminate .. | vm_compute; reflexivity].
Defined.

(** Names that contain the separator can collide. *)
Lemma normPair_collision :
  normPair (VStr (js "a+b")) (VStr (js "c")) = normPair (VStr (js "a")) (VStr (js "b+c")).
Proof. vm_compute; reflexivity. Qed.


(** ** The display configuration *)

Module DisplayFacts.
Import Display.

Lemma set_prop_twice (k : jsstring) (x y : value) ps :
  set_prop k y (set_prop k x ps) = set_prop k y ps.
Proof.
  induction ps as [|[k' z] ps IH]; cbn [set_prop].
  - rewrite str_eqb_refl. reflexivity.
  - destruct (str_eqb k' k) eqn:E; cbn [set_prop]; rewrite E; [reflexivity|].
    rewrite IH. reflexivity.
Qed.

(** Setting a name the list already holds commutes with setting another. *)
Lemma set_prop_swap (k k' : jsstring) (x x' y : value) ps :
  str_eqb k k' = false ->
  set_prop k x' (set_prop k' y (set_prop k x ps))
  = set_prop k' y (set_prop k x' ps).
Proof.
  intros H. induction ps as [|[k0 z] ps IH]; cbn [set_prop].
  - rewrite H. cbn [set_prop]. rewrite str_eqb_refl. reflexivity.
  - destruct (str_eqb k0 k) eqn:E; cbn [set_prop].
    + assert (str_eqb k0 k' = false) as E'.
      { apply str_eqb_eq in E. subst k0. exact H. }
      rewrite E'. cbn [set_prop]. rewrite E. reflexivity.
    + destruct (str_eqb k0 k') eqn:E'; cbn [set_prop]; rewrite E; cbn [set_prop];
        rewrite ?E'.
      * rewrite set_prop_twice. reflexivity.
      * rewrite IH. reflexivity.
Qed.

Lemma Object_assign_flags ps se si :
  Object_assign ps (own_props (flags se si))
  = set_prop (js "showImage") (VBool si) (set_prop (js "showEmoji") (VBool se) ps).
Proof. reflexivity. Qed.

Lemma Object_assign_flags_twice ps a b c d :
  Object_assign (Object_assign ps (own_props (flags a b))) (own_props (flags c d))
  = Object_assign ps (own_props (flags c d)).
Proof.
  rewrite !Object_assign_flags.
  rewrite (set_prop_swap (js "showEmoji") (js "showImage")) by reflexivity.
  rewrite set_prop_twice. reflexivity.
Qed.

Lemma modes_are_flags mode source :
  assoc mode modes = Some source -> exists se si, source = flags se si.
Proof.
  unfold modes. cbn [assoc].
  repeat (match goal with
          | |- context [if ?b then _ else _] => destruct b
          end; [intros [= <-]; eexists; eexists; reflexivity|]).
  discriminate.
Qed.

Section Prototype.
Variable inherited : jsstring -> bool.

Lemma setDisplayMode_known r name mode se si :
  configured r ->
  assoc mode modes = Some (flags se si) ->
  inherited name = false ->
  setDisplayMode inherited r name mode
  = Some (with_display r
            (<[name := VObj (Object_assign
                               (match elementDisplay r !! name with
                                | Some (VObj ps) => ps
                                | _ => []
                                end)
                               (own_props (flags se si)))]> (elementDisplay r))).
Proof.
  intros C Hm Hn. unfold setDisplayMode. rewrite Hm. cbn [resolve].
  destruct (elementDisplay r !! name) as [x|] eqn:E; cbn [resolve].
  - destruct (C name x E) as [ps ->]. reflexivity.
  - rewrite Hn. reflexivity.
Qed.

Lemma setDisplayMode_configured r r' name mode :
  configured r -> setDisplayMode inherited r name mode = Some r' -> configured r'.
Proof.
  intros C H. unfold setDisplayMode in H.
  destruct (resolve inherited (assoc mode modes) mode) as [source| |]; [| |discriminate].
  - assert (forall config, (exists ps, config = VObj ps) ->
              assign_entry r name config source = Some r' -> configured r') as A.
    { intros config [ps ->]. cbn [assign_entry]. intros [= <-].
      intros n x. cbn [with_display elementDisplay].
      destruct (decide (name = n)) as [->|Hne].
      - rewrite lookup_insert_eq. intros [= <-]. eexists. reflexivity.
      - rewrite lookup_insert_ne by exact Hne. apply C. }
    destruct (elementDisplay r !! name) as [x|] eqn:E; cbn [resolve] in H.
    + destruct (truthy x); [apply (A x (C name x E) H) | apply (A (VObj []))];
        [eexists; reflexivity | exact H].
    + destruct (inherited name); [discriminate|].
      apply (A (VObj [])); [eexists; reflexivity | exact H].
  - injection H as <-. exact C.
Qed.

End Prototype.
End DisplayFacts.

Lemma created_is_configured : Display.configured Display.created.
Proof.
  intros name x H. cbn [Display.created Display.elementDisplay] in H.
  apply lookup_singleton_Some in H. destruct H as [_ <-]. eexists. reflexivity.
Qed.

(** X20. Setting a display mode and reading the configuration back. For
    a renderer whose configurations are objects, one of the four modes and
    an element name that [Object.prototype] does not answer,
    [setDisplayMode] succeeds, keeps the configurations objects, and
    [getElementDisplayConfig] then reports for this element the two flags
    of the mode, whatever the fallback emoji. *)
Theorem setDisplayMode_then_get (inherited : jsstring -> bool)
    (r : Display.EmojiRenderer) (name mode : jsstring) (showEmoji showImage : bool) :
  Display.configured r ->
  assoc mode Display.modes = Some (Display.flags showEmoji showImage) ->
  inherited name = false ->
  exists r',
    Display.setDisplayMode inherited r name mode = Some r'
    /\ Display.configured r'
    /\ forall fallbackEmoji config,
         Display.getElementDisplayConfig inherited r' name fallbackEmoji
         = Some (Normal config) ->
         own_property config (js "showEmoji") = VBool showEmoji
         /\ own_property config (js "showImage") = VBool showImage.
Proof.
  intros C Hm Hn.
  pose proof (DisplayFacts.setDisplayMode_known inherited r name mode _ _ C Hm Hn) as K.
  eexists. split; [exact K|]. split.
  - exact (DisplayFacts.setDisplayMode_configured inherited _ _ _ _ C K).
  - intros fallbackEmoji config. unfold Display.getElementDisplayConfig.
    cbn [Display.with_display Display.elementDisplay].
    rewrite lookup_insert_eq. cbn [Display.resolve truthy negb].
    destruct (Display.defaultEmoji _ _ _ _) as [[emoji|e]|]; try discriminate.
    intros [= <-]. split.
    + rewrite (own_property_set_prop_ne (js "emoji")) by reflexivity.
      rewrite (own_property_set_prop_ne (js "showImage")) by reflexivity.
      apply own_property_set_prop_eq.
    + rewrite (own_property_set_prop_ne (js "emoji")) by reflexivity.
      apply own_property_set_prop_eq.
Qed.

Lemma setDisplayMode_then_get_witness :
  exists r',
    Display.setDisplayMode Display.standard Display.created Display.dragon_heart
      (js "emoji-only") = Some r'
    /\ Display.getElementDisplayConfig Display.standard r' Display.dragon_heart VUndefined
       = Some (Normal (VObj [(js "showEmoji", VBool true); (js "showImage", VBool false);
                             (js "image", VStr (js "images/dragon_heart.png"));
                             (js "emoji", VNull)])).
Proof.
  destruct (setDisplayMode_then_get Display.standard Display.created Display.dragon_heart
              (js "emoji-only") true false created_is_configured eq_refl eq_refl)
    as (r' & H & _ & _).
  exists r'. split; [exact H|].
  injection H as <-. vm_compute. reflexivity.
Defined.

(** X21. What [setDisplayMode] leaves alone: the configurations of the
    other elements, the two emoji helpers, and in the configuration of the
    element itself every property but [showEmoji] and [showImage] (its
    image, its custom emoji); a mode that is not in the table changes
    nothing at all. *)
Theorem setDisplayMode_keeps_the_rest (inherited : jsstring -> bool)
    (r r' : Display.EmojiRenderer) (name mode : jsstring) :
  Display.setDisplayMode inherited r name mode = Some r' ->
  (forall other, other <> name ->
     Display.elementDisplay r' !! other = Display.elementDisplay r !! other)
  /\ Display.pickEmojiByName r' = Display.pickEmojiByName r
  /\ Display.resultEmojiMap r' = Display.resultEmojiMap r
  /\ (forall ps ps' k,
        Display.elementDisplay r !! name = Some (VObj ps) ->
        Display.elementDisplay r' !! name = Some (VObj ps') ->
        k <> js "showEmoji" -> k <> js "showImage" ->
        assoc k ps' = assoc k ps)
  /\ (assoc mode Display.modes = None -> r' = r).
Proof.
  intros H. unfold Display.setDisplayMode in H.
  destruct (assoc mode Display.modes) as [source|] eqn:Hm; cbn [Display.resolve] in H.
  - destruct (DisplayFacts.modes_are_flags _ _ Hm) as (se & si & ->).
    assert (forall config,
               Display.assign_entry r name config (Display.flags se si) = Some r' ->
               (Display.elementDisplay r !! name = None \/
                Display.elementDisplay r !! name = Some config \/
                (exists x, Display.elementDisplay r !! name = Some x /\ truthy x = false)) ->
               (forall other, other <> name ->
                  Display.elementDisplay r' !! other = Display.elementDisplay r !! other)
               /\ Display.pickEmojiByName r' = Display.pickEmojiByName r
               /\ Display.resultEmojiMap r' = Display.resultEmojiMap r
               /\ (forall ps ps' k,
                     Display.elementDisplay r !! name = Some (VObj ps) ->
                     Display.elementDisplay r' !! name = Some (VObj ps') ->
                     k <> js "showEmoji" -> k <> js "showImage" ->
                     assoc k ps' = assoc k ps)) as A.
    { intros config HA Hc.
      destruct config as [ | | b | n | s | l | ps0]; cbn [Display.assign_entry] in HA.
      1-5: injection HA as <-; (split; [intros other _; reflexivity|]);
           (split; [reflexivity|]); (split; [reflexivity|]);
           intros ps ps' k Hps Hps'; rewrite Hps in Hps'; injection Hps' as <-;
           reflexivity.
      1: discriminate HA.
      injection HA as <-.
      cbn [Display.with_display Display.elementDisplay Display.pickEmojiByName
           Display.resultEmojiMap].
      split; [intros other Ho; apply lookup_insert_ne; congruence|].
      split; [reflexivity|]. split; [reflexivity|].
      intros ps ps' k Hps. rewrite lookup_insert_eq. intros [= <-] Hk1 Hk2.
      rewrite !assoc_set_prop_ne by (apply str_eqb_neq; congruence).
      destruct Hc as [Hc | [Hc | (x & Hc & Hx)]]; rewrite Hc in Hps.
      - discriminate.
      - injection Hps as ->. reflexivity.
      - injection Hps as ->. discriminate. }
    destruct (Display.elementDisplay r !! name) as [x|] eqn:E; cbn [Display.resolve] in H.
    + destruct (truthy x) eqn:Hx.
      * destruct (A x H) as (A1 & A2 & A3 & A4); [right; left; reflexivity|].
        repeat split; try assumption. discriminate.
      * destruct (A (VObj []) H) as (A1 & A2 & A3 & A4);
          [right; right; exists x; split; [reflexivity | exact Hx]|].
        repeat split; try assumption. discriminate.
    + destruct (inherited name); [discriminate|].
      destruct (A (VObj []) H) as (A1 & A2 & A3 & A4); [left; reflexivity|].
      repeat split; try assumption. discriminate.
  - destruct (inherited mode); [discriminate|]. injection H as <-.
    repeat split. intros ps ps' k -> [= ->]. reflexivity.
Qed.

Lemma setDisplayMode_keeps_the_rest_witness :
  exists r',
    Display.setDisplayMode Display.standard Display.created (js "Fire") (js "mixed")
    = Some r'
    /\ Display.elementDisplay r' !! Display.dragon_heart
       = Display.elementDisplay Display.created !! Display.dragon_heart
    /\ Display.resultEmojiMap r' = Display.resultEmojiMap Display.created.
Proof.
  destruct (Display.setDisplayMode Display.standard Display.created (js "Fire")
              (js "mixed")) as [r'|] eqn:H; [|discriminate H].
  destruct (setDisplayMode_keeps_the_rest Display.standard Display.created r'
              (js "Fire") (js "mixed") H) as (A1 & _ & A3 & _).
  exists r'. split; [reflexivity|]. split; [apply A1; discriminate | exact A3].
Defined.

(** X22. The mode set last is the mode in force: setting a mode and then
    another leaves the renderer exactly as setting the second one alone. *)
Theorem last_display_mode_wins (inherited : jsstring -> bool)
    (r : Display.EmojiRenderer) (name mode1 mode2 : jsstring) (source1 source2 : value) :
  Display.configured r ->
  assoc mode1 Display.modes = Some source1 ->
  assoc mode2 Display.modes = Some source2 ->
  inherited name = false ->
  match Display.setDisplayMode inherited r name mode1 with
  | Some r1 => Display.setDisplayMode inherited r1 name mode2
  | None => None
  end
  = Display.setDisplayMode inherited r name mode2.
Proof.
  intros C H1 H2 Hn.
  destruct (DisplayFacts.modes_are_flags _ _ H1) as (a & b & ->).
  destruct (DisplayFacts.modes_are_flags _ _ H2) as (c & d & ->).
  pose proof (DisplayFacts.setDisplayMode_known inherited r name mode1 _ _ C H1 Hn) as K1.
  rewrite K1.
  rewrite (DisplayFacts.setDisplayMode_known inherited _ name mode2 c d
             (DisplayFacts.setDisplayMode_configured inherited _ _ _ _ C K1) H2 Hn).
  rewrite (DisplayFacts.setDisplayMode_known inherited r name mode2 c d C H2 Hn).
  cbn [Display.with_display Display.elementDisplay Display.pickEmojiByName
       Display.resultEmojiMap].
  rewrite lookup_insert_eq, insert_insert_eq, DisplayFacts.Object_assign_flags_twice.
  reflexivity.
Qed.

Lemma last_display_mode_wins_witness :
  match Display.setDisplayMode Display.standard Display.created (js "Fire")
          (js "image-only") with
  | Some r1 => Display.setDisplayMode Display.standard r1 (js "Fire") (js "auto")
  | None => None
  end
  = Display.setDisplayMode Display.standard Display.created (js "Fire") (js "auto").
Proof.
  exact (last_display_mode_wins Display.standard Display.created (js "Fire")
           (js "image-only") (js "auto") _ _ created_is_configured eq_refl eq_refl eq_refl).
Defined.

(** ** Platform detection *)

Lemma matches_here_iff (w s : jsstring) :
  matches_here w s = true
  <-> exists m post, s = m ++ post /\ List.map fold_case m = List.map fold_case w.
Proof.
  revert s. induction w as [|p w IH]; intros s; cbn [matches_here].
  - split; [intros _; exists [], s; split; reflexivity|reflexivity].
  - destruct s as [|c s].
    + split; [discriminate|]. intros (m & post & E & Hm).
      destruct m; [discriminate Hm | discriminate E].
    + rewrite andb_true_iff, IH. split.
      * intros [Hc (m & post & -> & Hm)]. exists (c :: m), post.
        split; [reflexivity|]. cbn [List.map]. rewrite Hm. f_equal. lia.
      * intros (m & post & E & Hm). destruct m as [|c' m]; [discriminate Hm|].
        injection E as <- ->. injection Hm as Hc Hm.
        split; [lia|]. exists m, post. split; [reflexivity | exact Hm].
Qed.

Lemma matches_somewhere_iff (w s : jsstring) :
  matches_somewhere w s = true
  <-> exists pre m post,
        s = pre ++ m ++ post /\ List.map fold_case m = List.map fold_case w.
Proof.
  induction s as [|c s IH]; cbn [matches_somewhere]; rewrite orb_true_iff, matches_here_iff.
  - split.
    + intros [(m & post & E & Hm) | H]; [|discriminate].
      exists [], m, post. split; [exact E | exact Hm].
    + intros (pre & m & post & E & Hm). left.
      destruct pre; [|discriminate E]. exists m, post. split; [exact E | exact Hm].
  - rewrite IH. split.
    + intros [(m & post & E & Hm) | (pre & m & post & E & Hm)].
      * exists [], m, post. split; [exact E | exact Hm].
      * exists (c :: pre), m, post. split; [rewrite E; reflexivity | exact Hm].
    + intros (pre & m & post & E & Hm). destruct pre as [|c' pre].
      * left. exists m, post. split; [exact E | exact Hm].
      * right. injection E as _ E. exists pre, m, post. split; [exact E | exact Hm].
Qed.

(** X24. [isApplePlatform] answers true exactly when the user agent
    contains one of the words Mac, iPhone, iPad, iPod, in any letter case
    and anywhere, inside another word too. *)
Theorem isApplePlatform_iff (userAgent : jsstring) :
  isApplePlatform userAgent = true
  <-> exists pre m post w,
        userAgent = pre ++ m ++ post
        /\ In w apple_words
        /\ List.map fold_case m = List.map fold_case w.
Proof.
  unfold isApplePlatform. rewrite existsb_exists. split.
  - intros (w & Hw & H). apply matches_somewhere_iff in H.
    destruct H as (pre & m & post & E & Hm). exists pre, m, post, w. auto.
  - intros (pre & m & post & w & E & Hw & Hm). exists w. split; [exact Hw|].
    apply matches_somewhere_iff. exists pre, m, post. auto.
Qed.

(** Four user agents: a Mac, an iPad in capitals, Windows, and an Android
    agent that happens to contain the letters of Mac. *)
Lemma isApplePlatform_samples :
  isApplePlatform (js "Mozilla/5.0 (Macintosh; Intel Mac OS X 10_15_7)") = true
  /\ isApplePlatform (js "Mozilla/5.0 (IPAD; CPU OS 17_0 like Mac OS X)") = true
  /\ isApplePlatform (js "Mozilla/5.0 (Windows NT 10.0; Win64; x64)") = false
  /\ isApplePlatform (js "Mozilla/5.0 (Linux; Android 14) emacs") = true.
Proof. vm_compute. repeat split. Qed.
